(** * The merit-list chat bot: slot resolution, normalization and dialogue state

    A shallow embedding of [app.py].  Python strings are modelled as Rocq
    [string]s, read as sequences of code points below 256; the character
    classes ([str.isspace], [str.lower], the regex classes [\s], [\w], [\d])
    are the ones Python uses on that range.  The data set, the current year
    and the answer of the language model are inputs of the model. *)

From Stdlib Require Import ZArith QArith Qminmax Strings.String Strings.Ascii List Sorted Bool Lia Lra.
From stdpp Require Import gmap strings.
Import ListNotations.

Open Scope string_scope.
Open Scope bool_scope.

(** ** Characters *)

Definition code (c : ascii) : nat := nat_of_ascii c.

Definition between (lo hi n : nat) : bool := (lo <=? n)%nat && (n <=? hi)%nat.

(** [str.isspace] on one character: TAB..CR, FS..US, space, NEL, NBSP. *)
Definition isspace (c : ascii) : bool :=
  let n := code c in
  between 9 13 n || between 28 32 n || (n =? 133)%nat || (n =? 160)%nat.

(** [str.lower] on one character: A-Z and the Latin-1 capitals. *)
Definition lower_char (c : ascii) : ascii :=
  let n := code c in
  if between 65 90 n || (between 192 222 n && negb (n =? 215)%nat)
  then ascii_of_nat (n + 32) else c.

(** [\d]: the decimal digits. *)
Definition isdigit (c : ascii) : bool := between 48 57 (code c).

(** [[A-Za-z0-9']]. *)
Definition istoken (c : ascii) : bool :=
  let n := code c in
  between 65 90 n || between 97 122 n || between 48 57 n || (n =? 39)%nat.

(** [\w]: alphanumeric (letters, digits, numeric characters) or underscore. *)
Definition isword (c : ascii) : bool :=
  let n := code c in
  between 48 57 n || between 65 90 n || between 97 122 n || (n =? 95)%nat
  || (n =? 170)%nat || (n =? 178)%nat || (n =? 179)%nat || (n =? 181)%nat
  || (n =? 185)%nat || (n =? 186)%nat || between 188 190 n
  || between 192 214 n || between 216 246 n || between 248 255 n.

(** ** Strings *)

(** [s.lower()] *)
Fixpoint lower (s : string) : string :=
  match s with
  | EmptyString => EmptyString
  | String c s' => String (lower_char c) (lower s')
  end.

Fixpoint lstrip (s : string) : string :=
  match s with
  | EmptyString => EmptyString
  | String c s' => if isspace c then lstrip s' else s
  end.

Fixpoint rstrip (s : string) : string :=
  match s with
  | EmptyString => EmptyString
  | String c s' =>
      match rstrip s' with
      | EmptyString => if isspace c then EmptyString else String c EmptyString
      | r => String c r
      end
  end.

(** [s.strip()] *)
Definition strip (s : string) : string := rstrip (lstrip s).

(** [s.replace(c, '')] for a one-character [c]. *)
Fixpoint remove_char (x : ascii) (s : string) : string :=
  match s with
  | EmptyString => EmptyString
  | String c s' => if Ascii.eqb c x then remove_char x s' else String c (remove_char x s')
  end.

(** [needle in hay] *)
Fixpoint contains (needle hay : string) : bool :=
  String.prefix needle hay ||
  match hay with
  | EmptyString => false
  | String _ hay' => contains needle hay'
  end.

(** [sep.join(l)] *)
Fixpoint join (sep : string) (l : list string) : string :=
  match l with
  | [] => EmptyString
  | [x] => x
  | x :: l' => x +:+ sep +:+ join sep l'
  end.

(** Truth value of a [str]. *)
Definition nonempty (s : string) : bool :=
  match s with EmptyString => false | _ => true end.

(** Truth value of an optional [str] ([None] and the empty string are false). *)
Definition truthy (o : option string) : bool :=
  match o with Some s => nonempty s | None => false end.

(** [a or b] on optional strings. *)
Definition por (a b : option string) : option string :=
  if truthy a then a else b.

(** [(a or '')] *)
Definition or_empty (a : option string) : string :=
  match a with Some s => s | None => EmptyString end.

(** The loop idiom [for x in l: v = f(x); if v: found = v; break]. *)
Fixpoint first_truthy {A} (f : A -> option string) (l : list A) : option string :=
  match l with
  | [] => None
  | x :: l' => if truthy (f x) then f x else first_truthy f l'
  end.

(** Order-preserving removal of duplicates, compared in lower case:
    [if c.lower() not in seen: out.append(c); seen.add(c.lower())]. *)
Fixpoint dedupe_from (seen : list string) (l : list string) : list string :=
  match l with
  | [] => []
  | c :: l' =>
      if existsb (String.eqb (lower c)) seen then dedupe_from seen l'
      else c :: dedupe_from (lower c :: seen) l'
  end.

Definition dedupe_ci (l : list string) : list string := dedupe_from [] l.

(** [sorted(set(l))]: insertion into a strictly increasing list. *)
Section SortedSet.
Context {A : Type} (cmp : A -> A -> comparison).

Fixpoint insert_sorted (x : A) (l : list A) : list A :=
  match l with
  | [] => [x]
  | y :: l' =>
      match cmp x y with
      | Lt => x :: l
      | Eq => l
      | Gt => y :: insert_sorted x l'
      end
  end.

Definition sorted_set (l : list A) : list A := fold_right insert_sorted [] l.
End SortedSet.

(** ** Regular expressions

    The fragment of Python's [re] the program uses: character classes,
    sequence, alternation, greedy repetition of a class and the word
    boundary [\b].  Matching is backtracking in priority order, as in
    [re]; the continuation receives the character before the position
    (needed by [\b]) and the remaining text. *)

Inductive regex : Type :=
| Eps
| Chr (p : ascii -> bool)
| Seq (r1 r2 : regex)
| Alt (r1 r2 : regex)
| Star (p : ascii -> bool)
| WordB.

Definition cont := option ascii -> string -> option string.

Definition word_before (prev : option ascii) : bool :=
  match prev with Some c => isword c | None => false end.

Definition word_after (s : string) : bool :=
  match s with String c _ => isword c | EmptyString => false end.

Fixpoint star_k (p : ascii -> bool) (k : cont) (prev : option ascii) (s : string)
  : option string :=
  match s with
  | String c s' =>
      if p c then
        match star_k p k (Some c) s' with
        | Some r => Some r
        | None => k prev s
        end
      else k prev s
  | EmptyString => k prev s
  end.

Fixpoint rmatch (r : regex) (k : cont) (prev : option ascii) (s : string)
  : option string :=
  match r with
  | Eps => k prev s
  | Chr p =>
      match s with
      | String c s' => if p c then k (Some c) s' else None
      | EmptyString => None
      end
  | Seq r1 r2 => rmatch r1 (rmatch r2 k) prev s
  | Alt r1 r2 =>
      match rmatch r1 k prev s with
      | Some x => Some x
      | None => rmatch r2 k prev s
      end
  | Star p => star_k p k prev s
  | WordB => if xorb (word_before prev) (word_after s) then k prev s else None
  end.

(** A match of [r] starting exactly here; the result is the text after it. *)
Definition match_here (r : regex) (prev : option ascii) (s : string) : option string :=
  rmatch r (fun _ rest => Some rest) prev s.

(** Number of characters a match consumed. *)
Definition consumed (s rest : string) : nat := String.length s - String.length rest.

(** First [n] characters of [s]. *)
Fixpoint take (n : nat) (s : string) : string :=
  match n, s with
  | S n', String c s' => String c (take n' s')
  | _, _ => EmptyString
  end.

(** [re.search(r, s)]: the text of the leftmost match. *)
Fixpoint search_from (r : regex) (prev : option ascii) (s : string) : option string :=
  match match_here r prev s with
  | Some rest => Some (take (consumed s rest) s)
  | None =>
      match s with
      | String c s' => search_from r (Some c) s'
      | EmptyString => None
      end
  end.

Definition re_search (r : regex) (s : string) : option string := search_from r None s.

Definition re_found (r : regex) (s : string) : bool :=
  match re_search r s with Some _ => true | None => false end.

(** [re.findall(r, s)] for a pattern without groups that never matches the
    empty string: the texts of the successive leftmost matches.  [skip]
    counts the characters of the current match still to step over. *)
Fixpoint findall_from (r : regex) (prev : option ascii) (s : string) (skip : nat)
  : list string :=
  match s with
  | EmptyString => []
  | String c s' =>
      match skip with
      | S n => findall_from r (Some c) s' n
      | O =>
          match match_here r prev s with
          | Some rest =>
              match consumed s rest with
              | O => findall_from r (Some c) s' 0
              | S n => take (S n) s :: findall_from r (Some c) s' n
              end
          | None => findall_from r (Some c) s' 0
          end
      end
  end.

Definition re_findall (r : regex) (s : string) : list string := findall_from r None s 0.

(** [re.split(r, s)] for a pattern without groups that never matches the
    empty string.  The result of [split_from] is the piece being read and
    the pieces after it. *)
Fixpoint split_from (r : regex) (prev : option ascii) (s : string) (skip : nat)
  : string * list string :=
  match s with
  | EmptyString => (EmptyString, [])
  | String c s' =>
      match skip with
      | S n => split_from r (Some c) s' n
      | O =>
          match match_here r prev s with
          | Some rest =>
              match consumed s rest with
              | O => let '(p, ps) := split_from r (Some c) s' 0 in (String c p, ps)
              | S n => let '(p, ps) := split_from r (Some c) s' n in (EmptyString, p :: ps)
              end
          | None => let '(p, ps) := split_from r (Some c) s' 0 in (String c p, ps)
          end
      end
  end.

Definition re_split (r : regex) (s : string) : list string :=
  let '(p, ps) := split_from r None s 0 in p :: ps.

(** Pattern builders. *)
Definition lit (c : ascii) : regex := Chr (Ascii.eqb c).

(** A literal character under [re.IGNORECASE]. *)
Definition lit_i (c : ascii) : regex := Chr (fun x => Ascii.eqb (lower_char x) c).

Fixpoint lits (s : string) : regex :=
  match s with
  | EmptyString => Eps
  | String c s' => Seq (lit c) (lits s')
  end.

Definition opt (r : regex) : regex := Alt r Eps.

Definition newline : ascii := ascii_of_nat 10.

(** A pattern text used unescaped: [.] is any character but newline,
    every other character of the alias keys is literal. *)
Fixpoint pattern (s : string) : regex :=
  match s with
  | EmptyString => Eps
  | String c s' =>
      Seq (if Ascii.eqb c "."%char then Chr (fun x => negb (Ascii.eqb x newline)) else lit c)
          (pattern s')
  end.

(** [rf"\b{k}\b"] *)
Definition whole_word (body : regex) : regex := Seq WordB (Seq body WordB).

(** [\s*(?:,|and|&)\s*] with [re.IGNORECASE]. *)
Definition campus_separator : regex :=
  Seq (Star isspace)
      (Seq (Alt (lit ","%char)
                (Alt (Seq (lit_i "a"%char) (Seq (lit_i "n"%char) (lit_i "d"%char)))
                     (lit "&"%char)))
           (Star isspace)).

(** [,\s*] *)
Definition comma_separator : regex := Seq (lit ","%char) (Star isspace).

(** [\blast\s+year\b] *)
Definition last_year_pattern : regex :=
  whole_word (Seq (lits "last") (Seq (Chr isspace) (Seq (Star isspace) (lits "year")))).

(** [\b(20\d{2}|19\d{2})\b] *)
Definition four_digit_year : regex :=
  whole_word (Alt (Seq (lits "20") (Seq (Chr isdigit) (Chr isdigit)))
                  (Seq (lits "19") (Seq (Chr isdigit) (Chr isdigit)))).

(** [[A-Za-z0-9']{n,}] for n = 2 and n = 3. *)
Definition token2 : regex := Seq (Chr istoken) (Seq (Chr istoken) (Star istoken)).
Definition token3 : regex := Seq (Chr istoken) token2.

(** [\b(vacant seats?|vacancies|merit\s*list(?:s)?|policy|how many lists?)\b] *)
Definition policy_pattern : regex :=
  whole_word
    (Alt (Seq (lits "vacant seat") (opt (lit "s"%char)))
    (Alt (lits "vacancies")
    (Alt (Seq (lits "merit") (Seq (Star isspace) (Seq (lits "list") (opt (lit "s"%char)))))
    (Alt (lits "policy")
         (Seq (lits "how many list") (opt (lit "s"%char))))))).

(** [\band\b|\&] with [re.IGNORECASE]. *)
Definition and_or_ampersand : regex :=
  Alt (whole_word (Seq (lit_i "a"%char) (Seq (lit_i "n"%char) (lit_i "d"%char))))
      (lit "&"%char).

(** ** difflib.SequenceMatcher

    The library routine behind [ratio], following CPython's [difflib]:
    [b2j] with the automatic junk heuristic (no junk predicate is passed),
    [find_longest_match], [get_matching_blocks] and [ratio].  Sequences are
    lists of characters indexed by position. *)

Module difflib.

Definition chars (s : string) : list ascii := list_ascii_of_string s.

Definition at_ (l : list ascii) (i : nat) : ascii := nth i l Ascii.zero.

Fixpoint indices_from (c : ascii) (b : list ascii) (j : nat) : list nat :=
  match b with
  | [] => []
  | x :: b' => if Ascii.eqb x c then j :: indices_from c b' (S j) else indices_from c b' (S j)
  end.

(** [b2j.get(c, [])]: the positions of [c] in [b], none when [c] is
    popular ([len(b) >= 200] and more than [len(b) // 100 + 1] occurrences). *)
Definition b2j (b : list ascii) (c : ascii) : list nat :=
  let idxs := indices_from c b 0 in
  let n := length b in
  if (200 <=? n)%nat && (n / 100 + 1 <? length idxs)%nat then [] else idxs.

(** [j2len.get(j, 0)] *)
Fixpoint j2len_get (j2len : list (nat * nat)) (j : nat) : nat :=
  match j2len with
  | [] => 0
  | (j', k) :: rest => if (j' =? j)%nat then k else j2len_get rest j
  end.

Record best := { besti : nat; bestj : nat; bestsize : nat }.

(** The loop over [j] in [b2j[a[i]]]. *)
Fixpoint scan_row (i blo bhi : nat) (j2len : list (nat * nat)) (js : list nat)
         (newj2len : list (nat * nat)) (bst : best) : list (nat * nat) * best :=
  match js with
  | [] => (newj2len, bst)
  | j :: js' =>
      if (j <? blo)%nat then scan_row i blo bhi j2len js' newj2len bst
      else if (bhi <=? j)%nat then (newj2len, bst)
      else
        let k := S (match j with O => 0 | S j1 => j2len_get j2len j1 end) in
        let bst' :=
          if (bestsize bst <? k)%nat
          then {| besti := i + 1 - k; bestj := j + 1 - k; bestsize := k |}
          else bst in
        scan_row i blo bhi j2len js' ((j, k) :: newj2len) bst'
  end.

(** The loop over [i] in [range(alo, ahi)]. *)
Fixpoint scan_rows (a b : list ascii) (blo bhi : nat) (is_ : list nat)
         (j2len : list (nat * nat)) (bst : best) : best :=
  match is_ with
  | [] => bst
  | i :: is' =>
      let '(newj2len, bst') := scan_row i blo bhi j2len (b2j b (at_ a i)) [] bst in
      scan_rows a b blo bhi is' newj2len bst'
  end.

(** [while besti > alo and bestj > blo and a[besti-1] == b[bestj-1]] *)
Fixpoint extend_left (fuel : nat) (a b : list ascii) (alo blo : nat) (bst : best) : best :=
  match fuel with
  | O => bst
  | S fuel' =>
      if (alo <? besti bst)%nat && (blo <? bestj bst)%nat
         && Ascii.eqb (at_ a (besti bst - 1)) (at_ b (bestj bst - 1))
      then extend_left fuel' a b alo blo
             {| besti := besti bst - 1; bestj := bestj bst - 1; bestsize := bestsize bst + 1 |}
      else bst
  end.

(** [while besti+bestsize < ahi and bestj+bestsize < bhi and
    a[besti+bestsize] == b[bestj+bestsize]] *)
Fixpoint extend_right (fuel : nat) (a b : list ascii) (ahi bhi : nat) (bst : best) : best :=
  match fuel with
  | O => bst
  | S fuel' =>
      if (besti bst + bestsize bst <? ahi)%nat && (bestj bst + bestsize bst <? bhi)%nat
         && Ascii.eqb (at_ a (besti bst + bestsize bst)) (at_ b (bestj bst + bestsize bst))
      then extend_right fuel' a b ahi bhi
             {| besti := besti bst; bestj := bestj bst; bestsize := bestsize bst + 1 |}
      else bst
  end.

(** The junk set is empty, so the two loops that extend over junk never
    run; the loops over non-junk run at most [besti] and [ahi] times. *)
Definition find_longest_match (a b : list ascii) (alo ahi blo bhi : nat) : best :=
  let bst := scan_rows a b blo bhi (seq alo (ahi - alo)) []
               {| besti := alo; bestj := blo; bestsize := 0 |} in
  let bst := extend_left (besti bst) a b alo blo bst in
  extend_right ahi a b ahi bhi bst.

(** The work list of [get_matching_blocks]; [queue.pop()] takes the last
    entry.  Every block found lies inside its window of [a] and has a
    positive size, and pushes at most two windows, so [2 * len(a) + 1]
    rounds empty the queue. *)
Fixpoint blocks_loop (fuel : nat) (a b : list ascii)
         (queue : list (nat * nat * nat * nat)) (acc : list best) : list best :=
  match fuel with
  | O => acc
  | S fuel' =>
      match rev queue with
      | [] => acc
      | (alo, ahi, blo, bhi) :: rest =>
          let queue := rev rest in
          let x := find_longest_match a b alo ahi blo bhi in
          let i := besti x in
          let j := bestj x in
          let k := bestsize x in
          match k with
          | O => blocks_loop fuel' a b queue acc
          | S _ =>
              let queue :=
                if (alo <? i)%nat && (blo <? j)%nat then (queue ++ [(alo, i, blo, j)])%list else queue in
              let queue :=
                if (i + k <? ahi)%nat && (j + k <? bhi)%nat
                then (queue ++ [(i + k, ahi, j + k, bhi)])%list else queue in
              blocks_loop fuel' a b queue (acc ++ [x])%list
          end
      end
  end.

Definition get_matching_blocks (a b : list ascii) : list best :=
  blocks_loop (2 * length a + 1) a b [(0, length a, 0, length b)]%nat [].

(** [ratio()]: [2.0 * matches / length], and [1.0] for two empty sequences. *)
Definition ratio (a b : string) : Q :=
  let la := chars a in
  let lb := chars b in
  let matches := fold_right (fun x n => (bestsize x + n)%nat) 0%nat (get_matching_blocks la lb) in
  match (length la + length lb)%nat with
  | O => 1%Q
  | S n => (Z.of_nat (2 * matches) # Pos.of_succ_nat n)%Q
  end.

End difflib.

(** ** Normalization and fuzzy matching *)

(** [ratio(a, b)].  The ratio is kept as the exact fraction [2 * matches /
    length]; Python rounds it to a double.  Comparing two such fractions,
    or one with a two-digit decimal cutoff, gives the same answer before
    and after rounding as long as the texts are shorter than ten million
    characters. *)
Definition ratio (a b : string) : Q := difflib.ratio (lower a) (lower b).

(** The loop of [fuzzy_pick]: keeps the first option with the highest
    ratio seen so far, starting from [best = None], [best_r = 0.0]. *)
Fixpoint fuzzy_scan (candidate : string) (options : list string)
         (best : option string) (best_r : Q) : option string * Q :=
  match options with
  | [] => (best, best_r)
  | o :: options' =>
      let r := ratio candidate o in
      if negb (Qle_bool r best_r)
      then fuzzy_scan candidate options' (Some o) r
      else fuzzy_scan candidate options' best best_r
  end.

Definition fuzzy_pick (candidate : string) (options : list string) (cutoff : Q)
  : option string :=
  if negb (nonempty candidate) || match options with [] => true | _ => false end
  then None
  else
    let '(best, best_r) := fuzzy_scan candidate options None 0%Q in
    if Qle_bool cutoff best_r then best else None.

(** Python dictionaries keep insertion order; the alias tables are
    association lists in the order of the source. *)
Definition dict_get (d : list (string * string)) (key : string) : option string :=
  option_map snd (List.find (fun kv => String.eqb (fst kv) key) d).

Definition dept_aliases : list (string * string) :=
  [ ("cs", "Computer Science"); ("c.s", "Computer Science");
    ("comp science", "Computer Science");
    ("computer science", "Computer Science"); ("computerscience", "Computer Science");
    ("se", "Software Engineering"); ("software engineering", "Software Engineering");
    ("cyber", "Cyber Security"); ("cyber security", "Cyber Security");
    ("computing", "Computing");
    ("ee", "Electrical"); ("electrical", "Electrical");
    ("electrical engineering", "Electrical");
    ("me", "Mechanical"); ("mechanical", "Mechanical");
    ("mechanical engineering", "Mechanical");
    ("physics", "Physics"); ("applied physics", "Applied Physics");
    ("math", "Mathematics") ].

Definition prog_aliases : list (string * string) :=
  [ ("bs", "BS"); ("b.s", "BS"); ("bsc", "BS"); ("b.sc", "BS"); ("bachelors", "BS");
    ("bachelor", "BS"); ("undergrad", "BS"); ("ug", "BS");
    ("ms", "MS"); ("m.s", "MS"); ("msc", "MS"); ("m.sc", "MS");
    ("mphil", "MPhil"); ("m.phil", "MPhil"); ("postgrad", "MS"); ("pg", "MS");
    ("phd", "PhD"); ("ph.d", "PhD"); ("doctorate", "PhD") ].

Definition campus_aliases : list (string * string) :=
  [ ("isb", "Islamabad"); ("islamabad", "Islamabad");
    ("rwp", "Rawalpindi"); ("rawalpindi", "Rawalpindi");
    ("lhr", "Lahore"); ("lahore", "Lahore");
    ("khi", "Karachi"); ("karachi", "Karachi"); ("kt", "Karachi");
    ("pesh", "Peshawar"); ("peshawar", "Peshawar");
    ("qta", "Quetta"); ("quetta", "Quetta");
    ("abbott", "Abbottabad"); ("abbottabad", "Abbottabad");
    ("skt", "Sialkot"); ("sialkot", "Sialkot");
    ("mul", "Multan"); ("multan", "Multan");
    ("faisalabad", "Faisalabad"); ("fsd", "Faisalabad");
    ("suk", "Sukkur"); ("sukkur", "Sukkur") ].

(** The per-field cutoffs, as the decimal fractions written in the source. *)
Definition cutoff_uni : Q := (78 # 100)%Q.
Definition cutoff_dept : Q := (83 # 100)%Q.
Definition cutoff_prog : Q := (90 # 100)%Q.
Definition cutoff_campus : Q := (80 # 100)%Q.
Definition cutoff_default : Q := (80 # 100)%Q.

(** A row of the table [merit_data]. *)
Record record : Type := {
  University : string;
  Campus : string;
  Department : string;
  Program : string;
  Year : Z;
  MinimumMerit : Q;
  MaximumMerit : Q
}.

(** [grab_merit_data]: every text column is stripped on loading. *)
Definition grab_merit_data (table : list record) : list record :=
  List.map (fun r =>
    {| University := strip (University r);
       Campus := strip (Campus r);
       Department := strip (Department r);
       Program := strip (Program r);
       Year := Year r;
       MinimumMerit := MinimumMerit r;
       MaximumMerit := MaximumMerit r |}) table.

(** [sorted({r[col] for r in rows if keep(r)})] *)
Definition column (col : record -> string) (keep : record -> bool) (rows : list record)
  : list string :=
  sorted_set String.compare (List.map col (List.filter keep rows)).

(** ** Values that arrive untyped

    The answer of the language model is JSON; a field of it is absent or
    holds a JSON value as [json.loads] reads it: null, a string, an
    integer, true or false, a float (given by its exact value, or not
    finite: [NaN], [Infinity] and [-Infinity] are accepted), an array or an
    object. *)
#[warnings="-register-all"]
Inductive jval : Type :=
| JAbsent
| JNull
| JStr (s : string)
| JInt (z : Z)
| JBool (b : bool)
| JFloat (q : Q)
| JNonFinite
| JArray (items : list jval)
| JObject (members : list (string * jval)).

(** The object the model answered, restricted to the five keys read. *)
Record hint : Type := {
  h_university : jval;
  h_campus : jval;
  h_department : jval;
  h_program : jval;
  h_year : jval
}.

(** A Python value held by [uni], [camp], [dept] or [prog]. *)
Inductive pyval : Type :=
| PNone
| PStr (s : string)
| PInt (z : Z)
| PBool (b : bool)
| PFloat (q : Q)
| PNonFinite
| PList (items : list jval)
| PDict (members : list (string * jval)).

Definition pv_truthy (v : pyval) : bool :=
  match v with
  | PNone => false
  | PStr s => nonempty s
  | PInt z => negb (z =? 0)%Z
  | PBool b => b
  | PFloat q => negb (Qeq_bool q 0)
  | PNonFinite => true
  | PList items => match items with [] => false | _ => true end
  | PDict members => match members with [] => false | _ => true end
  end.

Definition pv_of_option (o : option string) : pyval :=
  match o with Some s => PStr s | None => PNone end.

(** [info.get(key)] and [info.get(key, default)] *)
Definition dict_get_or (v : jval) (default : pyval) : pyval :=
  match v with
  | JAbsent => default
  | JNull => PNone
  | JStr s => PStr s
  | JInt z => PInt z
  | JBool b => PBool b
  | JFloat q => PFloat q
  | JNonFinite => PNonFinite
  | JArray items => PList items
  | JObject members => PDict members
  end.

(** [v or o] *)
Definition pv_or (v : pyval) (o : option string) : pyval :=
  if pv_truthy v then v else pv_of_option o.

(** Truth value of an optional [int]. *)
Definition yr_truthy (y : option Z) : bool :=
  match y with Some z => negb (z =? 0)%Z | None => false end.

Definition yr_or (y : option Z) (z : Z) : option Z :=
  if yr_truthy y then y else Some z.

(** The white space [int] skips around the digits of a string: TAB..CR and
    space, and the white space beyond ASCII (NEL, NBSP); unlike
    [str.strip], not FS..US. *)
Definition int_space (c : ascii) : bool :=
  let n := code c in
  between 9 13 n || (n =? 32)%nat || (n =? 133)%nat || (n =? 160)%nat.

Fixpoint lskip (p : ascii -> bool) (s : string) : string :=
  match s with
  | EmptyString => EmptyString
  | String c s' => if p c then lskip p s' else s
  end.

Fixpoint rskip (p : ascii -> bool) (s : string) : string :=
  match s with
  | EmptyString => EmptyString
  | String c s' =>
      match rskip p s' with
      | EmptyString => if p c then EmptyString else String c EmptyString
      | r => String c r
      end
  end.

(** [int(s)] on a string: optional sign, decimal digits with single
    underscores between them, surrounding white space ignored. *)
Fixpoint digits_value (acc : Z) (after_digit : bool) (s : string) : option Z :=
  match s with
  | EmptyString => if after_digit then Some acc else None
  | String c s' =>
      if isdigit c then digits_value (10 * acc + Z.of_nat (code c - 48)) true s'
      else if Ascii.eqb c "_"%char && after_digit then
        match s' with
        | String d _ => if isdigit d then digits_value acc false s' else None
        | EmptyString => None
        end
      else None
  end.

Definition int_of_string (s : string) : option Z :=
  match rskip int_space (lskip int_space s) with
  | String "-"%char s' => option_map Z.opp (digits_value 0 false s')
  | String "+"%char s' => digits_value 0 false s'
  | s' => digits_value 0 false s'
  end.

(** [int(x)] on a float: the integer part, rounding toward zero. *)
Definition truncate (q : Q) : Z := Z.quot (Qnum q) (Zpos (Qden q)).

(** What a request can end with other than a reply. *)
Inductive exn : Type :=
| AttributeError
| TypeError.

Inductive result (A : Type) : Type :=
| Ok (a : A)
| Raise (e : exn).
Arguments Ok {A} a.
Arguments Raise {A} e.

(** ** The session store

    [user_context] is a dictionary from session identifiers to contexts.
    The request handler works in a state monad over the store that also
    records which store operations were performed, and may raise. *)

Record context : Type := {
  awaiting : string;
  known_university : option string;
  known_department : option string;
  known_program : option string;
  known_campus : string;
  known_year : option Z
}.

Inductive store_op : Type :=
| OpGet (session : string)
| OpSet (session : string) (c : context)
| OpPop (session : string).

Record world : Type := {
  user_context : gmap string context;
  oplog : list store_op
}.

Definition M (A : Type) : Type := world -> result A * world.

Definition ret {A} (a : A) : M A := fun w => (Ok a, w).

Definition raise {A} (e : exn) : M A := fun w => (Raise e, w).

Definition bind {A B} (m : M A) (f : A -> M B) : M B :=
  fun w =>
    match m w with
    | (Ok a, w') => f a w'
    | (Raise e, w') => (Raise e, w')
    end.

Notation "'let*' x := m 'in' k" := (bind m (fun x => k))
  (at level 10, x name, m at level 100, k at level 200).

Definition lift {A} (r : result A) : M A := fun w => (r, w).

(** [user_context.get(session_id, {})] *)
Definition ctx_get (session : string) : M (option context) :=
  fun w => (Ok (user_context w !! session),
            {| user_context := user_context w; oplog := oplog w ++ [OpGet session] |}).

(** [user_context[session_id] = c] *)
Definition ctx_set (session : string) (c : context) : M unit :=
  fun w => (Ok tt,
            {| user_context := <[session := c]> (user_context w);
               oplog := oplog w ++ [OpSet session c] |}).

(** [user_context.pop(session_id, None)] *)
Definition ctx_pop (session : string) : M unit :=
  fun w => (Ok tt,
            {| user_context := delete session (user_context w);
               oplog := oplog w ++ [OpPop session] |}).

(** ** Replies

    The text of a reply is determined by its kind and the values spliced
    into it; a completed query is handed to the reply builders. *)
Inductive reply : Type :=
| PolicyReply
| AskUniversity (examples : list string)
| AskDepartmentAt (uni : string) (examples : list string)
| AskDepartment (examples : list string)
| AskProgramFor (dept uni : string) (options : list string)
| AskProgram
| MultiCampusReply (uni dept prog : option string) (camp : string) (yr : option Z)
| SingleReply (uni dept prog : option string) (camp : string) (yr : option Z).

Section Bot.

(** The rows of the table [merit_data] and [datetime.now().year]. *)
Variable merit_data : list record.
Variable now_y : Z.

Definition merit_records : list record := grab_merit_data merit_data.

Definition UNIS : list string :=
  column University (fun r => nonempty (University r)) merit_records.
Definition DEPTS : list string :=
  column Department (fun r => nonempty (Department r)) merit_records.
Definition PROGS : list string :=
  column Program (fun r => nonempty (Program r)) merit_records.
Definition CAMPS : list string :=
  column Campus (fun r => nonempty (Campus r)) merit_records.

Definition norm_dept (txt : string) : option string :=
  if negb (nonempty txt) then None else
  let t := lower (strip txt) in
  match dict_get dept_aliases t with
  | Some v => Some v
  | None =>
      match List.find (fun d => String.eqb (lower d) t) DEPTS with
      | Some d => Some d
      | None => por (fuzzy_pick txt DEPTS cutoff_dept) (Some (strip txt))
      end
  end.

Definition norm_prog (txt : string) : option string :=
  if negb (nonempty txt) then None else
  let t := remove_char " "%char (remove_char "_"%char (remove_char "-"%char
             (lower (strip txt)))) in
  match dict_get prog_aliases t with
  | Some v => Some v
  | None => por (fuzzy_pick txt PROGS cutoff_prog) (Some (strip txt))
  end.

Definition norm_uni (txt : string) : option string :=
  if negb (nonempty txt) then None else
  match List.find (fun u => String.eqb (lower u) (lower (strip txt))) UNIS with
  | Some u => Some u
  | None => por (fuzzy_pick txt UNIS cutoff_uni) (Some (strip txt))
  end.

(** The body of the loop of [norm_campus] for one non-blank part. *)
Definition norm_campus_part (p_s : string) : string :=
  match dict_get campus_aliases (lower p_s) with
  | Some v => v
  | None => or_empty (por (fuzzy_pick p_s CAMPS cutoff_campus) (Some p_s))
  end.

Definition norm_campus (txt : string) : string :=
  if negb (nonempty txt) then EmptyString else
  let parts := re_split campus_separator txt in
  let normalized :=
    List.map norm_campus_part (List.filter nonempty (List.map strip parts)) in
  join ", " (dedupe_ci normalized).

Definition campus_like (c1 : string) (c2 : option string) : bool :=
  if negb (truthy c2) then true else
  let c1_l := lower c1 in
  let c2_list :=
    List.map (fun x => lower (strip x))
      (List.filter (fun x => nonempty (strip x)) (re_split comma_separator (or_empty c2))) in
  existsb (fun part => String.eqb part c1_l || contains part c1_l) c2_list.

Definition departments_at_uni (uni : option string) : list string :=
  column Department
    (fun r => String.eqb (lower (University r)) (lower (or_empty uni))) merit_records.

Definition programs_for (uni dept : option string) : list string :=
  column Program
    (fun r => String.eqb (lower (University r)) (lower (or_empty uni))
              && String.eqb (lower (Department r)) (lower (or_empty dept)))
    merit_records.

Definition adjust_dept_for_uni (uni dept : option string) : option string :=
  if negb (truthy uni) || negb (truthy dept) then dept else
  let uni_deps := List.map lower (departments_at_uni uni) in
  let has x := existsb (String.eqb x) uni_deps in
  if existsb (String.eqb (lower (or_empty dept)))
       ["computer science"; "software engineering"; "cyber security"]
     && negb (has "computer science") && has "computing"
  then Some "Computing" else dept.

(** ** Data helpers *)

Definition lookup_rows (uni camp dept prog : option string) (yr : Z) : list record :=
  List.filter
    (fun rec =>
       String.eqb (lower (University rec)) (lower (or_empty uni))
       && campus_like (Campus rec) camp
       && String.eqb (lower (Department rec)) (lower (or_empty dept))
       && String.eqb (lower (Program rec)) (lower (or_empty prog))
       && (Year rec =? yr)%Z)
    merit_records.

(** [camp] is [None] when the argument is left at its default or passed as
    [None]. *)
Definition available_years (uni dept prog : option string) (camp : option string)
  : list Z :=
  sorted_set Z.compare
    (List.map Year
       (List.filter
          (fun r =>
             String.eqb (lower (University r)) (lower (or_empty uni))
             && String.eqb (lower (Department r)) (lower (or_empty dept))
             && String.eqb (lower (Program r)) (lower (or_empty prog))
             && match camp with
                | None => true
                | Some _ => campus_like (Campus r) camp
                end)
          merit_records)).

(** [min(ys, key=f)]: the first element with the least key. *)
Fixpoint min_by (key : Z -> Z) (best : Z) (ys : list Z) : Z :=
  match ys with
  | [] => best
  | y :: ys' => if (key y <? key best)%Z then min_by key y ys' else min_by key best ys'
  end.

Definition closest_year (uni dept prog : option string) (yr : Z)
           (camp : option string) : option Z :=
  match available_years uni dept prog camp with
  | [] => None
  | y :: ys => Some (min_by (fun y => Z.abs (y - yr)) y ys)
  end.

(** ** Extraction *)

Definition detect_year_from_text (msg : string) : Z :=
  let msg_l := lower msg in
  if re_found last_year_pattern msg_l then now_y - 1
  else
    match re_search four_digit_year msg_l with
    | Some m =>
        match int_of_string m with
        | Some y => y
        | None => now_y
        end
    | None => now_y
    end.

(** The five values [cheap_extract] returns. *)
Record extracted : Type := {
  uni_found : option string;
  camp_found : option string;
  dept_found : option string;
  prog_found : option string;
  year_found : Z
}.

(** First value of an alias table whose key occurs as a whole word. *)
Definition alias_word (aliases : list (string * string)) (msg_l : string) : option string :=
  option_map snd
    (List.find (fun kv => re_found (whole_word (pattern (fst kv))) msg_l) aliases).

(** First vocabulary entry occurring in the message. *)
Definition vocab_substring (vocab : list string) (msg_l : string) : option string :=
  List.find (fun v => contains (lower v) msg_l) vocab.

Definition cheap_extract (msg : string) : extracted :=
  let msg_l := lower msg in
  let uni_found := vocab_substring UNIS msg_l in
  let uni_found :=
    if negb (truthy uni_found)
    then first_truthy (fun token => fuzzy_pick token UNIS cutoff_default)
           (re_findall token3 msg_l)
    else uni_found in
  let dept_found := alias_word dept_aliases msg_l in
  let dept_found :=
    if negb (truthy dept_found) then vocab_substring DEPTS msg_l else dept_found in
  let dept_found :=
    if negb (truthy dept_found)
    then first_truthy (fun token => fuzzy_pick token DEPTS cutoff_dept)
           (re_findall token2 msg_l)
    else dept_found in
  let prog_found := alias_word prog_aliases msg_l in
  let prog_found :=
    if negb (truthy prog_found) then vocab_substring PROGS msg_l else prog_found in
  let prog_found :=
    if negb (truthy prog_found) then Some "BS" else prog_found in
  let camps_detected :=
    (List.map snd
       (List.filter (fun kv => re_found (whole_word (lits (fst kv))) msg_l) campus_aliases)
     ++ List.filter (fun c => contains (lower c) msg_l) CAMPS)%list in
  let camp_found :=
    match camps_detected with
    | [] => None
    | _ => Some (join ", " (dedupe_ci camps_detected))
    end in
  {| uni_found := uni_found; camp_found := camp_found; dept_found := dept_found;
     prog_found := prog_found; year_found := detect_year_from_text msg |}.

Definition is_policy_question (msg : string) : bool :=
  re_found policy_pattern (lower msg).

(** ** The chat endpoint *)

(** The values of [uni], [camp], [dept], [prog], [yr] between the steps. *)
Record slots : Type := {
  s_uni : pyval;
  s_camp : pyval;
  s_dept : pyval;
  s_prog : pyval;
  s_yr : option Z
}.

(** [int(info.get("year", detect_year_from_text(user_msg)))]; [None]
    stands for the exception [int] raises: on null, on a string that is not
    a number, on a float that is not finite, on an array or an object. *)
Definition hint_year (msg : string) (v : jval) : option Z :=
  match v with
  | JAbsent => Some (detect_year_from_text msg)
  | JNull => None
  | JStr s => int_of_string s
  | JInt z => Some z
  | JBool b => Some (if b then 1 else 0)%Z
  | JFloat q => Some (truncate q)
  | JNonFinite => None
  | JArray _ => None
  | JObject _ => None
  end.

(** Step 2.  [info] is [None] when the call to the language model raised,
    its text held no JSON object, or the object was empty.  An exception
    from [int] leaves [yr] at [None] and keeps the four assignments made
    before it. *)
Definition llm_extract (msg : string) (info : option hint) : slots :=
  match info with
  | None => {| s_uni := PNone; s_camp := PNone; s_dept := PNone; s_prog := PNone;
               s_yr := None |}
  | Some h =>
      {| s_uni := dict_get_or (h_university h) PNone;
         s_camp := dict_get_or (h_campus h) (PStr EmptyString);
         s_dept := dict_get_or (h_department h) PNone;
         s_prog := dict_get_or (h_program h) (PStr "BS");
         s_yr := hint_year msg (h_year h) |}
  end.

(** Step 3: the fallback extractor, run when the model did not give all of
    [uni], [dept], [prog], [yr]. *)
Definition fallback (msg : string) (s : slots) : slots :=
  if negb (pv_truthy (s_uni s) && pv_truthy (s_dept s) && pv_truthy (s_prog s)
           && yr_truthy (s_yr s))
  then
    let f := cheap_extract msg in
    {| s_uni := pv_or (s_uni s) (uni_found f);
       s_camp := pv_or (s_camp s) (camp_found f);
       s_dept := pv_or (s_dept s) (dept_found f);
       s_prog := pv_or (s_prog s) (prog_found f);
       s_yr := yr_or (s_yr s) (year_found f) |}
  else s.

(** [norm(v) if v else None]: a value that is not a string has no [strip]. *)
Definition norm_if (norm : string -> option string) (v : pyval) : result (option string) :=
  if pv_truthy v then
    match v with
    | PStr s => Ok (norm s)
    | _ => Raise AttributeError
    end
  else Ok None.

(** [norm_campus(camp) if camp else '']: [re.split] rejects a non-string. *)
Definition norm_campus_if (v : pyval) : result string :=
  if pv_truthy v then
    match v with
    | PStr s => Ok (norm_campus s)
    | _ => Raise TypeError
    end
  else Ok EmptyString.

(** The slots after step 4 and the adjustment of the department. *)
Record normalized : Type := {
  n_uni : option string;
  n_dept : option string;
  n_prog : option string;
  n_camp : string;
  n_yr : option Z
}.

Definition normalize (s : slots) : result normalized :=
  match norm_if norm_uni (s_uni s) with
  | Raise e => Raise e
  | Ok uni =>
  match norm_if norm_dept (s_dept s) with
  | Raise e => Raise e
  | Ok dept =>
  match norm_if norm_prog (s_prog s) with
  | Raise e => Raise e
  | Ok prog =>
  match norm_campus_if (s_camp s) with
  | Raise e => Raise e
  | Ok camp =>
      let dept :=
        if truthy uni && truthy dept then adjust_dept_for_uni uni dept else dept in
      Ok {| n_uni := uni; n_dept := dept; n_prog := prog; n_camp := camp;
            n_yr := s_yr s |}
  end end end end.

(** Step 5: the names of the required slots still empty. *)
Definition missing_slots (n : normalized) : list string :=
  ((if negb (truthy (n_uni n)) then ["university"] else [])
   ++ (if negb (truthy (n_dept n)) then ["department"] else [])
   ++ (if negb (truthy (n_prog n)) then ["program"] else []))%list.

(** The part of [chat] after the clarification block: an awaited slot is
    filled from the raw message, the session is dropped, and the query is
    handed to the reply builder for several campuses or for one. *)
Definition answer (session msg : string) (ctx : option context) (n : normalized) : M reply :=
  let aw := option_map awaiting ctx in
  let* n' :=
    if truthy aw then
      let awaiting := or_empty aw in
      let n' :=
        if String.eqb awaiting "university" && negb (truthy (n_uni n)) then
          let uni_try := norm_uni msg in
          if truthy uni_try
          then {| n_uni := uni_try; n_dept := n_dept n; n_prog := n_prog n;
                  n_camp := n_camp n; n_yr := n_yr n |}
          else n
        else if String.eqb awaiting "department" && negb (truthy (n_dept n)) then
          let dept_try := norm_dept msg in
          if truthy dept_try
          then {| n_uni := n_uni n; n_dept := dept_try; n_prog := n_prog n;
                  n_camp := n_camp n; n_yr := n_yr n |}
          else n
        else if String.eqb awaiting "program" && negb (truthy (n_prog n)) then
          let prog_try := norm_prog msg in
          if truthy prog_try
          then {| n_uni := n_uni n; n_dept := n_dept n; n_prog := prog_try;
                  n_camp := n_camp n; n_yr := n_yr n |}
          else n
        else n in
      let* _ := ctx_pop session in
      ret n'
    else ret n in
  let camp := n_camp n' in
  if nonempty camp && (contains "," camp || re_found and_or_ampersand camp)
  then ret (MultiCampusReply (n_uni n') (n_dept n') (n_prog n') camp (n_yr n'))
  else ret (SingleReply (n_uni n') (n_dept n') (n_prog n') camp (n_yr n')).

Definition chat (session msg : string) (info : option hint) : M reply :=
  let* ctx := ctx_get session in
  if is_policy_question msg then ret PolicyReply else
  let* n := lift (normalize (fallback msg (llm_extract msg info))) in
  match missing_slots n with
  | ask_next :: _ =>
      let* _ := ctx_set session
                  {| awaiting := ask_next;
                     known_university := n_uni n;
                     known_department := n_dept n;
                     known_program := n_prog n;
                     known_campus := n_camp n;
                     known_year := n_yr n |} in
      if String.eqb ask_next "university" then
        ret (AskUniversity (firstn 8 UNIS))
      else if String.eqb ask_next "department" then
        if truthy (n_uni n)
        then ret (AskDepartmentAt (or_empty (n_uni n))
                    (firstn 8 (departments_at_uni (n_uni n))))
        else ret (AskDepartment (firstn 8 DEPTS))
      else if String.eqb ask_next "program" then
        if truthy (n_uni n) && truthy (n_dept n)
        then ret (AskProgramFor (or_empty (n_dept n)) (or_empty (n_uni n))
                    (programs_for (n_uni n) (n_dept n)))
        else ret AskProgram
      else answer session msg ctx n
  | [] => answer session msg ctx n
  end.

End Bot.

(** ** Reply builders

    What a reply builder decides: the kind of the reply and the values it
    computes and splices into the text, next to its own arguments. *)

Section Replies.

Variable merit_data : list record.

(** [campuses_offering(uni, dept, prog, yr)]; [yr] is [None] when the
    argument is left at its default. *)
Definition campuses_offering (uni dept prog : option string) (yr : option Z) : list string :=
  column Campus
    (fun r => String.eqb (lower (University r)) (lower (or_empty uni))
              && String.eqb (lower (Department r)) (lower (or_empty dept))
              && String.eqb (lower (Program r)) (lower (or_empty prog))
              && match yr with None => true | Some y => (Year r =? y)%Z end)
    (merit_records merit_data).

(** The first loop over the records:
    [UNI_TO_CAMP.setdefault(rec["University"], set()).add(rec["Campus"])]. *)
Definition campus_sets : gmap string (gset string) :=
  foldl (fun m rec =>
           <[University rec := {[Campus rec]} ∪ default ∅ (m !! University rec)]> m)
        ∅ (merit_records merit_data).

(** [UNI_TO_CAMP], after the second loop sorted every set. *)
Definition UNI_TO_CAMP : gmap string (list string) :=
  (fun s => sorted_set String.compare (elements s)) <$> campus_sets.

(** The reply of [reply_for_single_or_uncamped]. *)
Inductive outcome : Type :=
| ExactOne (r : record)
| ExactMany (rows : list record)
| ClosestYear (cy : Z) (r : record)
| OfferedElsewhere (camps : list string)
| OtherPrograms (progs : list string)
| NotAvailable (deps : list string)
| NoProgramData (progs : list string)
| NoMatchAtUniversity (camps deps : list string)
| NothingMatched.

Definition reply_for_single_or_uncamped (uni dept prog : option string) (camp : string)
           (yr : Z) : outcome :=
  match lookup_rows merit_data uni (Some camp) dept prog yr with
  | [r] => ExactOne r
  | (_ :: _) as rows => ExactMany rows
  | [] =>
      let closest :=
        match closest_year merit_data uni dept prog yr
                (if nonempty camp then Some camp else None) with
        | Some cy =>
            match lookup_rows merit_data uni (Some camp) dept prog cy with
            | r :: _ => Some (ClosestYear cy r)
            | [] => None
            end
        | None => None
        end in
      match closest with
      | Some o => o
      | None =>
          let general :=
            match programs_for merit_data uni dept with
            | (_ :: _) as pr_avail => NoProgramData pr_avail
            | [] =>
                match uni ≫= (fun u => UNI_TO_CAMP !! u) with
                | Some camps => NoMatchAtUniversity camps (departments_at_uni merit_data uni)
                | None => NothingMatched
                end
            end in
          if nonempty camp then
            match available_years merit_data uni dept prog (Some camp) with
            | [] =>
                match campuses_offering uni dept prog None with
                | (_ :: _) as offered_other_camps => OfferedElsewhere offered_other_camps
                | [] =>
                    match programs_for merit_data uni dept with
                    | (_ :: _) as pr_avail => OtherPrograms pr_avail
                    | [] => NotAvailable (departments_at_uni merit_data uni)
                    end
                end
            | _ :: _ => general
            end
          else general
      end
  end.

(** One line of the reply of [reply_for_multi_campus]. *)
Inductive campus_line : Type :=
| LineExact (c : string) (r : record)
| LineClosest (c : string) (cy : Z) (r : record)
| LineNotOffered (c : string) (offered_any : list string)
| LineNoData (c : string).

(** The body of the loop over [camp_list]. *)
Definition campus_reply (uni dept prog : option string) (yr : Z) (c : string) : campus_line :=
  match lookup_rows merit_data uni (Some c) dept prog yr with
  | r :: _ => LineExact c r
  | [] =>
      let closest :=
        match closest_year merit_data uni dept prog yr (Some c) with
        | Some cy =>
            match lookup_rows merit_data uni (Some c) dept prog cy with
            | r :: _ => Some (LineClosest c cy r)
            | [] => None
            end
        | None => None
        end in
      match closest with
      | Some l => l
      | None =>
          let offered_any := campuses_offering uni dept prog None in
          if match offered_any with [] => false | _ => true end
             && negb (existsb (String.eqb c) offered_any)
          then LineNotOffered c offered_any
          else LineNoData c
      end
  end.

Definition reply_for_multi_campus (uni dept prog : option string) (camp : string) (yr : Z)
  : list campus_line :=
  let camp_list :=
    List.map strip
      (List.filter (fun c => nonempty (strip c)) (re_split comma_separator camp)) in
  List.map (campus_reply uni dept prog yr) camp_list.

End Replies.

(** ** Declarative reading of the patterns

    [matches r prev s prev' rest]: the pattern [r] matches a prefix of [s]
    (the character before [s] being [prev]) and leaves [rest]. *)
Inductive matches : regex -> option ascii -> string -> option ascii -> string -> Prop :=
| M_Eps prev s : matches Eps prev s prev s
| M_Chr (p : ascii -> bool) prev c s :
    p c = true -> matches (Chr p) prev (String c s) (Some c) s
| M_Seq r1 r2 prev s prev1 s1 prev2 s2 :
    matches r1 prev s prev1 s1 -> matches r2 prev1 s1 prev2 s2 ->
    matches (Seq r1 r2) prev s prev2 s2
| M_AltL r1 r2 prev s prev' s' :
    matches r1 prev s prev' s' -> matches (Alt r1 r2) prev s prev' s'
| M_AltR r1 r2 prev s prev' s' :
    matches r2 prev s prev' s' -> matches (Alt r1 r2) prev s prev' s'
| M_Star0 (p : ascii -> bool) prev s : matches (Star p) prev s prev s
| M_StarS (p : ascii -> bool) prev c s prev' s' :
    p c = true -> matches (Star p) (Some c) s prev' s' ->
    matches (Star p) prev (String c s) prev' s'
| M_WordB prev s :
    xorb (word_before prev) (word_after s) = true -> matches WordB prev s prev s.

(** The character before the end of [pre], if any, else [prev]. *)
Fixpoint last_char (prev : option ascii) (pre : string) : option ascii :=
  match pre with
  | EmptyString => prev
  | String c pre' => last_char (Some c) pre'
  end.

(** The pattern matches somewhere in the text. *)
Definition occurs (r : regex) (s : string) : Prop :=
  exists pre rest prev' post,
    s = pre +:+ rest /\ matches r (last_char None pre) rest prev' post.

(** ** Example data *)

(** A row with fixed merit bounds. *)
Definition row (u c d p : string) (y : Z) : record :=
  {| University := u; Campus := c; Department := d; Program := p; Year := y;
     MinimumMerit := 80; MaximumMerit := (925 # 10) |}.

(** No session stored, no store operation performed. *)
Definition empty_world : world := {| user_context := ∅; oplog := [] |}.

(** One university with one department. *)
Definition table_fast : list record :=
  [ row "FAST" "Islamabad" "Physics" "BS" 2023 ].

(** A program name outside the alias table. *)
Definition table_diploma : list record :=
  [ row "FAST" "Islamabad" "Physics" "Diploma" 2023 ].

(** Two campuses of one programme with different years on record. *)
Definition table_years : list record :=
  [ row "FAST" "Islamabad" "Physics" "BS" 2022;
    row "FAST" "Islamabad" "Physics" "BS" 2019;
    row "FAST" "Lahore" "Physics" "BS" 2023;
    row "FAST" "Lahore" "Physics" "BS" 2019 ].

(** A department under its own name, next to one named by an alias key. *)
Definition table_math : list record :=
  [ row "QAU" "Islamabad" "Math" "BS" 2023;
    row "QAU" "Islamabad" "Statistics" "BS" 2023 ].

(** A campus whose name contains the letters "and". *)
Definition table_mandi : list record :=
  [ row "UOG" "Mandi Bahauddin" "Physics" "BS" 2023;
    row "UOG" "Lahore" "Physics" "BS" 2023 ].


(** A hint whose program is one space. *)
Definition hint_blank_program : hint :=
  {| h_university := JStr "FAST"; h_campus := JAbsent; h_department := JStr "Physics";
     h_program := JStr " "; h_year := JInt 2023 |}.

(** ** Vocabulary of the properties *)

(** *** Strings and matches *)

(** A string that does not start with white space. *)
Definition no_lead (s : string) : bool :=
  match s with String c _ => negb (isspace c) | EmptyString => true end.

(** A value of an alias table is a non-empty string without surrounding
    white space. *)
Definition clean (s : string) : bool := nonempty s && String.eqb (strip s) s.

(** [pre], [m], [post] cut the text at the leftmost match of [r], [m]
    being a matched text there. *)
Definition leftmost_from (prev : option ascii) (r : regex) (s pre m post : string) : Prop :=
  s = pre +:+ m +:+ post
  /\ (exists prev', matches r (last_char prev pre) (m +:+ post) prev' post)
  /\ forall pre' rest prev' post',
       s = pre' +:+ rest -> (String.length pre' < String.length pre)%nat ->
       ~ matches r (last_char prev pre') rest prev' post'.

(** The same, at the start of the text. *)
Definition leftmost : regex -> string -> string -> string -> string -> Prop :=
  leftmost_from None.

(** A four-digit year is 19 or 20 followed by two digits. *)
Definition year_text (m : string) : Prop :=
  exists c d, isdigit c = true /\ isdigit d = true
    /\ (m = String "2" (String "0" (String c (String d EmptyString)))
        \/ m = String "1" (String "9" (String c (String d EmptyString)))).

(** *** The hint and the slots *)

(** The model gave all of [uni], [dept], [prog], [yr]. *)
Definition complete (s : slots) : bool :=
  pv_truthy (s_uni s) && pv_truthy (s_dept s) && pv_truthy (s_prog s) && yr_truthy (s_yr s).


(** The hint gives a program that is white space only. *)
Definition hint_program_blank (info : option hint) : bool :=
  match info with
  | Some h =>
      match h_program h with
      | JStr s => nonempty s && negb (nonempty (strip s))
      | _ => false
      end
  | None => false
  end.





(** *** Fuzzy matching *)

(** What the fuzzy step decides for [txt] against a vocabulary: [r] is an
    entry with the highest ratio and that ratio meets the cutoff, or no
    entry meets the cutoff and [r] is the text passed through. *)
Definition fuzzy_outcome (txt : string) (vocab : list string) (cutoff : Q)
           (passthrough r : string) : Prop :=
  (In r vocab /\ (cutoff <= ratio txt r)%Q
   /\ forall o, In o vocab -> (ratio txt o <= ratio txt r)%Q)
  \/ (r = passthrough /\ forall o, In o vocab -> (ratio txt o < cutoff)%Q).

(** *** Campus names and separators *)

(** The separator token at the head of a text, and the text after it. *)
Definition sep_token (s : string) : option string :=
  match s with
  | String c s1 =>
      if Ascii.eqb "," c then Some s1
      else if Ascii.eqb (lower_char c) "a" then
        match s1 with
        | String c2 (String c3 s3) =>
            if Ascii.eqb (lower_char c2) "n" && Ascii.eqb (lower_char c3) "d"
            then Some s3 else None
        | _ => None
        end
      else if Ascii.eqb "&" c then Some s1
      else None
  | EmptyString => None
  end.

(** A separator match at the head of a text: white space, a token, white
    space. *)
Definition sep_at (s : string) : option string :=
  match sep_token (lstrip s) with
  | Some rest => Some (lstrip rest)
  | None => None
  end.

(** The token and the white space after it. *)
Definition sep_tail : regex :=
  Seq (Alt (lit ","%char)
           (Alt (Seq (lit_i "a"%char) (Seq (lit_i "n"%char) (lit_i "d"%char)))
                (lit "&"%char)))
      (Star isspace).

(** A text in which no separator can start: no comma, no ampersand, no
    "and" in any letter case, and no white space at its end. *)
Definition quiet (t : string) : bool :=
  String.eqb (rstrip t) t
  && negb (contains "," t) && negb (contains "&" t) && negb (contains "and" (lower t)).

(** A campus name: non-empty, no surrounding white space, quiet. *)
Definition plain (n : string) : bool := nonempty n && no_lead n && quiet n.

(** The separators between the names of a list; the letters "and" count
    in any letter case and without white space around them. *)
Definition separators : list string :=
  [","; ", "; " and "; "&"; " & "; "and"; " AND "; "And"].

(** The character that follows a name does not continue an "and". *)
Definition safe_next (x : string) : bool :=
  match x with
  | EmptyString => true
  | String c _ => negb (Ascii.eqb (lower_char c) "n") && negb (Ascii.eqb (lower_char c) "d")
  end.

(** A list of names without repetitions, names compared in lower case:
    a name stays where it is first seen and is dropped where it comes
    again. *)
Fixpoint first_seen (l : list string) : list string :=
  match l with
  | [] => []
  | x :: l' =>
      x :: List.filter (fun y => negb (String.eqb (lower y) (lower x))) (first_seen l')
  end.


(** *** The windows of the sequence matcher *)

(** A block inside the window of [a] up to [e] and the window of [b]. *)
Definition block_inside (alo e blo bhi : nat) (x : difflib.best) : Prop :=
  (alo <= difflib.besti x /\ difflib.besti x + difflib.bestsize x <= e
   /\ blo <= difflib.bestj x /\ difflib.bestj x + difflib.bestsize x <= bhi)%nat.

(** The run lengths kept for a row are bounded by the rows and columns read. *)
Definition runs_bounded (blo rows : nat) (j2len : list (nat * nat)) : Prop :=
  forall j, (difflib.j2len_get j2len j <= rows /\ difflib.j2len_get j2len j <= j + 1 - blo)%nat.

(** The rounds a work list can still take. *)
Fixpoint rounds (queue : list (nat * nat * nat * nat)) : nat :=
  match queue with
  | [] => 0%nat
  | (alo, ahi, _, _) :: queue' => (2 * (ahi - alo) + 1 + rounds queue')%nat
  end.

(** The windows of a work list are well formed. *)
Definition windows_ok (queue : list (nat * nat * nat * nat)) : Prop :=
  List.Forall (fun w => let '(alo, ahi, blo, bhi) := w in (alo <= ahi /\ blo <= bhi)%nat) queue.

(** *** Order of the vocabularies *)

(** The order [sorted] puts strings in: by code point, a prefix first. *)
Definition string_lt (a b : string) : Prop := String.compare a b = Lt.

(** *** Values where a text is expected *)

(** A value of the hint that passes the truth test and is not a string: a
    number other than zero, true, a float other than zero or not finite,
    an array or an object that is not empty. *)
Definition jv_not_text (v : jval) : bool :=
  match v with
  | JAbsent | JNull | JStr _ => false
  | JInt z => negb (z =? 0)%Z
  | JBool b => b
  | JFloat q => negb (Qeq_bool q 0)
  | JNonFinite => true
  | JArray items => match items with [] => false | _ => true end
  | JObject members => match members with [] => false | _ => true end
  end.

(** The same for the value held by a slot. *)
Definition pv_not_text (v : pyval) : bool :=
  match v with PStr _ => false | _ => pv_truthy v end.

(** The slots a stored context remembers. *)
Definition known_slots (c : context) : normalized :=
  {| n_uni := known_university c; n_dept := known_department c;
     n_prog := known_program c; n_camp := known_campus c; n_yr := known_year c |}.

(** *** Matched characters *)

(** The characters of [a], and of [b], inside the windows of a work list. *)
Fixpoint room_a (queue : list (nat * nat * nat * nat)) : nat :=
  match queue with
  | [] => 0%nat
  | (alo, ahi, _, _) :: queue' => (ahi - alo + room_a queue')%nat
  end.

Fixpoint room_b (queue : list (nat * nat * nat * nat)) : nat :=
  match queue with
  | [] => 0%nat
  | (_, _, blo, bhi) :: queue' => (bhi - blo + room_b queue')%nat
  end.

(** The total size of a list of blocks. *)
Definition matched (blocks : list difflib.best) : nat :=
  fold_right (fun x n => (difflib.bestsize x + n)%nat) 0%nat blocks.

(** * Properties *)

(** ** Strings *)

Lemma isspace_lower_char c : isspace (lower_char c) = isspace c.
Proof.
  destruct c as [[] [] [] [] [] [] [] []]; vm_compute; reflexivity.
Qed.

Lemma nonempty_true s : nonempty s = true <-> s <> EmptyString.
Proof. destruct s; simpl; split; congruence. Qed.

Lemma lstrip_lower s : lstrip (lower s) = lower (lstrip s).
Proof.
  induction s as [|c s IH]; simpl; [reflexivity|].
  rewrite isspace_lower_char. destruct (isspace c); [exact IH | reflexivity].
Qed.

Lemma rstrip_lower s : rstrip (lower s) = lower (rstrip s).
Proof.
  induction s as [|c s IH]; simpl; [reflexivity|].
  rewrite IH, isspace_lower_char.
  destruct (rstrip s); simpl; [destruct (isspace c)|]; reflexivity.
Qed.

Lemma strip_lower s : strip (lower s) = lower (strip s).
Proof. unfold strip. rewrite lstrip_lower. apply rstrip_lower. Qed.

Lemma app_nil_s s : EmptyString +:+ s = s.
Proof. reflexivity. Qed.

Lemma app_cons_s c s t : String c s +:+ t = String c (s +:+ t).
Proof. reflexivity. Qed.

Lemma app_s_nil s : s +:+ EmptyString = s.
Proof. induction s as [|c s IH]; [reflexivity|]. rewrite app_cons_s, IH. reflexivity. Qed.

Lemma app_assoc_s s t u : (s +:+ t) +:+ u = s +:+ (t +:+ u).
Proof.
  induction s as [|c s IH]; [reflexivity|]. rewrite !app_cons_s, IH. reflexivity.
Qed.

Lemma lstrip_no_lead s : no_lead (lstrip s) = true.
Proof.
  induction s as [|c s IH]; simpl; [reflexivity|].
  destruct (isspace c) eqn:E; [exact IH | simpl; rewrite E; reflexivity].
Qed.

Lemma lstrip_id s : no_lead s = true -> lstrip s = s.
Proof.
  destruct s as [|c s]; simpl; [reflexivity|].
  destruct (isspace c); [discriminate | reflexivity].
Qed.

Lemma rstrip_no_lead s : no_lead s = true -> no_lead (rstrip s) = true.
Proof.
  destruct s as [|c s]; simpl; [reflexivity|]. intros H.
  destruct (rstrip s); simpl; [|exact H].
  destruct (isspace c) eqn:E; simpl; [reflexivity | rewrite E; reflexivity].
Qed.

Lemma rstrip_cons c s :
  rstrip (String c s) =
  match rstrip s with
  | EmptyString => if isspace c then EmptyString else String c EmptyString
  | r => String c r
  end.
Proof. reflexivity. Qed.

Lemma rstrip_idempotent s : rstrip (rstrip s) = rstrip s.
Proof.
  induction s as [|c s IH]; [reflexivity|].
  rewrite rstrip_cons.
  destruct (rstrip s) as [|d r] eqn:E.
  - destruct (isspace c) eqn:Ec; [reflexivity|].
    rewrite rstrip_cons. simpl. rewrite Ec. reflexivity.
  - rewrite rstrip_cons, IH. reflexivity.
Qed.

Lemma strip_idempotent s : strip (strip s) = strip s.
Proof.
  unfold strip.
  rewrite (lstrip_id (rstrip (lstrip s))).
  - apply rstrip_idempotent.
  - apply rstrip_no_lead, lstrip_no_lead.
Qed.

(** ** The matcher finds a match exactly when one exists *)

Lemma star_k_matches p k prev s :
  star_k p k prev s <> None <->
  exists prev' s', matches (Star p) prev s prev' s' /\ k prev' s' <> None.
Proof.
  revert prev. induction s as [|c s IH]; intros prev; simpl.
  - split.
    + intros H. exists prev, EmptyString. split; [constructor | exact H].
    + intros (prev' & s' & Hm & Hk). inversion Hm; subst. exact Hk.
  - destruct (p c) eqn:Ep.
    + destruct (star_k p k (Some c) s) eqn:Es.
      * split; [intros _ | congruence].
        destruct (proj1 (IH (Some c))) as (prev' & s' & Hm & Hk); [congruence|].
        exists prev', s'. split; [apply M_StarS; assumption | exact Hk].
      * split.
        -- intros H. exists prev, (String c s). split; [constructor | exact H].
        -- intros (prev' & s' & Hm & Hk). inversion Hm; subst; [exact Hk|].
           exfalso. apply (proj2 (IH (Some c))); [|exact Es]. eauto.
    + split.
      * intros H. exists prev, (String c s). split; [constructor | exact H].
      * intros (prev' & s' & Hm & Hk). inversion Hm; subst; [exact Hk | congruence].
Qed.

Lemma rmatch_matches r : forall k prev s,
  rmatch r k prev s <> None <->
  exists prev' s', matches r prev s prev' s' /\ k prev' s' <> None.
Proof.
  induction r as [|p|r1 IH1 r2 IH2|r1 IH1 r2 IH2|p|]; intros k prev s; simpl.
  - split.
    + intros H. exists prev, s. split; [constructor | exact H].
    + intros (prev' & s' & Hm & Hk). inversion Hm; subst. exact Hk.
  - destruct s as [|c s].
    + split; [congruence|]. intros (prev' & s' & Hm & _). inversion Hm.
    + destruct (p c) eqn:Ep.
      * split.
        -- intros H. exists (Some c), s. split; [constructor; exact Ep | exact H].
        -- intros (prev' & s' & Hm & Hk). inversion Hm; subst. exact Hk.
      * split; [congruence|]. intros (prev' & s' & Hm & _). inversion Hm; congruence.
  - rewrite IH1. split.
    + intros (prev1 & s1 & Hm1 & Hk). apply IH2 in Hk.
      destruct Hk as (prev2 & s2 & Hm2 & Hk). exists prev2, s2.
      split; [econstructor; eassumption | exact Hk].
    + intros (prev2 & s2 & Hm & Hk). inversion Hm; subst.
      exists prev1, s1. split; [assumption|]. apply IH2. eauto.
  - destruct (rmatch r1 k prev s) eqn:E1.
    + split; [intros _ | congruence].
      destruct (proj1 (IH1 k prev s)) as (prev' & s' & Hm & Hk); [congruence|].
      exists prev', s'. split; [apply M_AltL; exact Hm | exact Hk].
    + rewrite IH2. split.
      * intros (prev' & s' & Hm & Hk). exists prev', s'.
        split; [apply M_AltR; exact Hm | exact Hk].
      * intros (prev' & s' & Hm & Hk). inversion Hm; subst; [|eauto].
        exfalso. apply (proj2 (IH1 k prev s)); [|exact E1]. eauto.
  - apply star_k_matches.
  - destruct (xorb (word_before prev) (word_after s)) eqn:E.
    + split.
      * intros H. exists prev, s. split; [constructor; exact E | exact H].
      * intros (prev' & s' & Hm & Hk). inversion Hm; subst. exact Hk.
    + split; [congruence|]. intros (prev' & s' & Hm & _). inversion Hm; congruence.
Qed.

Lemma match_here_matches r prev s :
  match_here r prev s <> None <-> exists prev' s', matches r prev s prev' s'.
Proof.
  unfold match_here. rewrite rmatch_matches. split.
  - intros (prev' & s' & Hm & _). eauto.
  - intros (prev' & s' & Hm). exists prev', s'. split; [exact Hm | congruence].
Qed.

Lemma search_from_occurs r : forall s prev,
  search_from r prev s <> None <->
  exists pre rest prev' post,
    s = pre +:+ rest /\ matches r (last_char prev pre) rest prev' post.
Proof.
  induction s as [|c s IH]; intros prev; simpl.
  - destruct (match_here r prev EmptyString) eqn:E.
    + split; [intros _ | congruence].
      destruct (proj1 (match_here_matches r prev EmptyString)) as (prev' & s' & Hm);
        [congruence|].
      exists EmptyString, EmptyString, prev', s'. split; [reflexivity | exact Hm].
    + split; [congruence|]. intros (pre & rest & prev' & post & Hs & Hm).
      destruct pre; [|discriminate Hs]. rewrite app_nil_s in Hs. simpl in Hm. subst rest.
      assert (match_here r prev EmptyString <> None) by (apply match_here_matches; eauto).
      congruence.
  - destruct (match_here r prev (String c s)) eqn:E.
    + split; [intros _ | congruence].
      destruct (proj1 (match_here_matches r prev (String c s))) as (prev' & s' & Hm);
        [congruence|].
      exists EmptyString, (String c s), prev', s'. split; [reflexivity | exact Hm].
    + rewrite IH. split.
      * intros (pre & rest & prev' & post & Hs & Hm).
        exists (String c pre), rest, prev', post.
        split; [rewrite app_cons_s; congruence | exact Hm].
      * intros (pre & rest & prev' & post & Hs & Hm).
        destruct pre as [|c' pre].
        -- rewrite app_nil_s in Hs. simpl in Hm. subst rest.
           assert (match_here r prev (String c s) <> None)
             by (apply match_here_matches; eauto).
           congruence.
        -- rewrite app_cons_s in Hs. injection Hs as <- ->.
           exists pre, rest, prev', post. split; [reflexivity | exact Hm].
Qed.

Lemma re_found_occurs r s : re_found r s = true <-> occurs r s.
Proof.
  unfold re_found, re_search, occurs. rewrite <- search_from_occurs.
  destruct (search_from r None s); split; congruence.
Qed.

(** ** The policy shortcut *)

Lemma policy_shortcut merit_data now_y session msg info w :
  is_policy_question msg = true ->
  chat merit_data now_y session msg info w =
  (Ok PolicyReply,
   {| user_context := user_context w; oplog := oplog w ++ [OpGet session] |}).
Proof.
  intros H. unfold chat, bind, ctx_get. rewrite H. reflexivity.
Qed.

(** C10, as amended.  A message in which the policy pattern occurs is
    answered with the fixed policy reply, whatever the data set, the hint
    and the stored sessions are: nothing is extracted, normalized or looked
    up, and the session store keeps its content.  The one store operation
    of such a turn is the initial read of the session's context, whose
    value is not used. *)
Theorem policy_reply_leaves_store
        (merit_data : list record) (now_y : Z) (session msg : string)
        (info : option hint) (w : world) :
  occurs policy_pattern (lower msg) ->
  chat merit_data now_y session msg info w =
  (Ok PolicyReply,
   {| user_context := user_context w; oplog := oplog w ++ [OpGet session] |}).
Proof.
  intros H. apply policy_shortcut. unfold is_policy_question.
  apply re_found_occurs. exact H.
Qed.

(** A concrete turn of the kind covered by [policy_reply_leaves_store]. *)
Lemma policy_reply_leaves_store_witness :
  occurs policy_pattern (lower "What is the merit list policy for BS CS at FAST Islamabad 2023?")
  /\ chat table_fast 2026 "s"
       "What is the merit list policy for BS CS at FAST Islamabad 2023?" None empty_world
     = (Ok PolicyReply, {| user_context := ∅; oplog := [OpGet "s"] |}).
Proof.
  assert (H : occurs policy_pattern
                (lower "What is the merit list policy for BS CS at FAST Islamabad 2023?")).
  { apply re_found_occurs. vm_compute. reflexivity. }
  split; [exact H|].
  exact (policy_reply_leaves_store table_fast 2026 "s" _ None empty_world H).
Defined.

(** C10, the claim as stated fails: a policy turn does access the session
    store, reading the session's context before the policy check. *)
Lemma policy_turn_reads_session :
  is_policy_question "merit list policy" = true
  /\ oplog (snd (chat table_fast 2026 "s" "merit list policy" None empty_world))
     = [OpGet "s"].
Proof. split; vm_compute; reflexivity. Qed.

(** ** The dialogue across turns *)

Lemma missing_nil_truthy (n : normalized) :
  missing_slots n = [] ->
  truthy (n_uni n) = true /\ truthy (n_dept n) = true /\ truthy (n_prog n) = true.
Proof.
  unfold missing_slots.
  destruct (truthy (n_uni n)), (truthy (n_dept n)), (truthy (n_prog n));
    simpl; intros H; try discriminate H; auto.
Qed.

(** The first missing slot is one of the three required slot names. *)
Lemma missing_head (n : normalized) ask rest :
  missing_slots n = ask :: rest ->
  ask = "university" \/ ask = "department" \/ ask = "program".
Proof.
  unfold missing_slots.
  destruct (truthy (n_uni n)), (truthy (n_dept n)), (truthy (n_prog n));
    simpl; intros H; inversion H; auto.
Qed.

(** With every required slot filled, the block that plugs the awaited slot
    in has nothing to fill: the reply does not depend on the stored context. *)
Lemma answer_reply_ignores_context merit_data session msg ctx ctx' (n : normalized) w w' :
  missing_slots n = [] ->
  fst (answer merit_data session msg ctx n w) = fst (answer merit_data session msg ctx' n w').
Proof.
  intros H. destruct (missing_nil_truthy n H) as (Hu & Hd & Hp).
  unfold answer, bind, ret, ctx_pop. rewrite Hu, Hd, Hp. simpl.
  rewrite !andb_false_r.
  destruct (truthy (option_map awaiting ctx)), (truthy (option_map awaiting ctx'));
    simpl; destruct (nonempty (n_camp n) && _); reflexivity.
Qed.

(** What a turn replies never depends on what the session store holds:
    the slot values kept under [known_...] are never read back. *)
Lemma chat_reply_ignores_store merit_data now_y session msg info w w' :
  fst (chat merit_data now_y session msg info w)
  = fst (chat merit_data now_y session msg info w').
Proof.
  unfold chat, bind, ctx_get, lift.
  destruct (is_policy_question msg); [reflexivity|].
  destruct (normalize merit_data (fallback merit_data now_y msg
              (llm_extract now_y msg info))) as [n|e]; [|reflexivity].
  destruct (missing_slots n) as [|ask rest] eqn:Hm.
  - apply answer_reply_ignores_context. exact Hm.
  - unfold ctx_set, ret.
    destruct (missing_head n ask rest Hm) as [-> | [-> | ->]]; simpl.
    + reflexivity.
    + destruct (truthy (n_uni n)); reflexivity.
    + destruct (truthy (n_uni n) && truthy (n_dept n)); reflexivity.
Qed.

(** C1, the code at the failing input.  Two turns of one session over a data
    set with the university FAST and the department Physics, the language
    model being unavailable.  The first turn names the university and is
    asked for the department, and FAST is stored as the known university.
    The second turn supplies the awaited department, yet the reply asks for
    the university again and the stored university is overwritten by
    [None]: the stored values are not merged into the turn. *)
Theorem known_university_is_asked_again :
  let turn1 := chat table_fast 2026 "s" "FAST" None empty_world in
  let turn2 := chat table_fast 2026 "s" "Physics" None (snd turn1) in
  fst turn1 = Ok (AskDepartmentAt "FAST" ["Physics"])
  /\ (user_context (snd turn1) !! "s")
     = Some {| awaiting := "department"; known_university := Some "FAST";
               known_department := None; known_program := Some "BS";
               known_campus := EmptyString; known_year := Some 2026%Z |}
  /\ fst turn2 = Ok (AskUniversity ["FAST"])
  /\ (user_context (snd turn2) !! "s")
     = Some {| awaiting := "university"; known_university := None;
               known_department := Some "Physics"; known_program := Some "BS";
               known_campus := EmptyString; known_year := Some 2026%Z |}.
Proof. vm_compute. repeat split; reflexivity. Qed.

(** ** Program extraction *)

(** C6, the code at the failing input.  The program vocabulary is
    [["Diploma"]] and the message spells it "diplomma": no alias and no
    vocabulary entry occurs in the message, a fuzzy match of its tokens at
    cutoff 0.90 would find "Diploma", and the extractor returns "BS": the
    program has no fuzzy tier. *)
Theorem program_extraction_has_no_fuzzy_tier :
  let msg := "diplomma merit at FAST" in
  PROGS table_diploma = ["Diploma"]
  /\ alias_word prog_aliases (lower msg) = None
  /\ vocab_substring (PROGS table_diploma) (lower msg) = None
  /\ first_truthy (fun token => fuzzy_pick token (PROGS table_diploma) cutoff_prog)
       (re_findall token2 (lower msg)) = Some "Diploma"
  /\ prog_found (cheap_extract table_diploma 2026 msg) = Some "BS".
Proof. vm_compute. repeat split; reflexivity. Qed.

(** ** Sorted sets *)

Section SortedSetFacts.
Context {A : Type} (cmp : A -> A -> comparison).
Hypothesis cmp_eq : forall x y, cmp x y = Eq -> x = y.

Lemma insert_sorted_In x y l :
  In x (insert_sorted cmp y l) <-> x = y \/ In x l.
Proof using cmp_eq.
  induction l as [|z l IH]; simpl.
  - intuition.
  - destruct (cmp y z) eqn:E; simpl.
    + apply cmp_eq in E. subst z. intuition.
    + intuition.
    + rewrite IH. intuition.
Qed.

Lemma sorted_set_In x l : In x (sorted_set cmp l) <-> In x l.
Proof using cmp_eq.
  induction l as [|y l IH]; simpl; [reflexivity|].
  rewrite insert_sorted_In, IH. intuition.
Qed.
End SortedSetFacts.

Lemma insert_sorted_increasing x l :
  StronglySorted Z.lt l -> StronglySorted Z.lt (insert_sorted Z.compare x l).
Proof.
  induction 1 as [|y l Hs IH Hy]; simpl.
  - repeat constructor.
  - rewrite List.Forall_forall in Hy.
    destruct (Z.compare_spec x y) as [E|E|E].
    + constructor; [assumption|]. apply List.Forall_forall. exact Hy.
    + constructor; [constructor; [assumption | apply List.Forall_forall; exact Hy]|].
      constructor; [exact E|].
      apply List.Forall_forall. intros z Hz. specialize (Hy z Hz). lia.
    + constructor; [exact IH|].
      apply List.Forall_forall. intros z Hz.
      apply (insert_sorted_In Z.compare Z.compare_eq) in Hz.
      destruct Hz as [-> | Hz]; [exact E | apply Hy; exact Hz].
Qed.

Lemma sorted_set_increasing l : StronglySorted Z.lt (sorted_set Z.compare l).
Proof.
  induction l as [|x l IH]; simpl; [constructor|].
  apply insert_sorted_increasing. exact IH.
Qed.

(** ** The closest year *)

(** [min_by] returns the first element with the least key. *)
Lemma min_by_first_least (key : Z -> Z) : forall ys best,
  let r := min_by key best ys in
  (r = best \/ (In r ys /\ key r < key best))%Z
  /\ (key r <= key best)%Z
  /\ (forall y, In y ys -> key r <= key y)%Z
  /\ (StronglySorted Z.lt (best :: ys) ->
      forall y, In y ys -> key y = key r -> r <= y)%Z.
Proof.
  induction ys as [|y ys IH]; intros best; simpl.
  - repeat split; auto; try lia; intros _ y [].
  - destruct (key y <? key best)%Z eqn:E.
    + apply Z.ltb_lt in E. destruct (IH y) as (H1 & H2 & H3 & H4).
      repeat split.
      * right. destruct H1 as [-> | [H1 H1']]; [auto | split; [auto | lia]].
      * lia.
      * intros z [<- | Hz]; [exact H2 | apply H3; exact Hz].
      * intros Hs z [<- | Hz] Hk.
        -- destruct H1 as [-> | [_ H1']]; lia.
        -- apply H4; [|exact Hz | exact Hk].
           inversion Hs; subst. assumption.
    + apply Z.ltb_ge in E. destruct (IH best) as (H1 & H2 & H3 & H4).
      assert (Hsub : StronglySorted Z.lt (best :: y :: ys) ->
                     StronglySorted Z.lt (best :: ys)).
      { intros Hs. inversion Hs as [|? ? Hs' Hall]; subst.
        inversion Hs'; subst. inversion Hall; subst.
        constructor; assumption. }
      repeat split.
      * destruct H1 as [-> | [H1 H1']]; [left; reflexivity | right; auto].
      * exact H2.
      * intros z [<- | Hz]; [lia | apply H3; exact Hz].
      * intros Hs z [<- | Hz] Hk.
        -- destruct H1 as [H1 | [_ H1']]; [|lia].
           rewrite H1. inversion Hs as [|? ? _ Hall]; subst.
           inversion Hall; subst. lia.
        -- apply H4; [apply Hsub; exact Hs | exact Hz | exact Hk].
Qed.

(** A year is available exactly when the exact lookup at that year finds
    a row. *)
Lemma available_year_has_rows merit_data uni dept prog camp y :
  In y (available_years merit_data uni dept prog camp)
  <-> lookup_rows merit_data uni camp dept prog y <> [].
Proof.
  unfold available_years, lookup_rows.
  rewrite (sorted_set_In Z.compare Z.compare_eq), List.in_map_iff.
  assert (Hc : forall r, match camp with
                         | Some _ => campus_like (Campus r) camp
                         | None => true
                         end = campus_like (Campus r) camp).
  { intros r. destruct camp; reflexivity. }
  split.
  - intros (r & Hy & Hr). apply List.filter_In in Hr. destruct Hr as [Hin Hf].
    rewrite Hc in Hf.
    assert (Hin' : In r (List.filter
              (fun rec => String.eqb (lower (University rec)) (lower (or_empty uni))
                          && campus_like (Campus rec) camp
                          && String.eqb (lower (Department rec)) (lower (or_empty dept))
                          && String.eqb (lower (Program rec)) (lower (or_empty prog))
                          && (Year rec =? y)%Z) (merit_records merit_data))).
    { apply List.filter_In. split; [exact Hin|].
      rewrite !andb_true_iff in Hf. destruct Hf as [[[H1 H2] H3] H4].
      rewrite H1, H2, H3, H4, Hy, Z.eqb_refl. reflexivity. }
    intros E. rewrite E in Hin'. exact Hin'.
  - intros Hne.
    destruct (List.filter _ (merit_records merit_data)) as [|r l] eqn:E; [congruence|].
    assert (Hr : In r (r :: l)) by (left; reflexivity).
    rewrite <- E in Hr. apply List.filter_In in Hr. destruct Hr as [Hin Hf].
    rewrite !andb_true_iff in Hf. destruct Hf as [[[[H1 H2] H3] H4] H5].
    apply Z.eqb_eq in H5. exists r. split; [exact H5|].
    apply List.filter_In. split; [exact Hin|].
    rewrite Hc, H1, H2, H3, H4. reflexivity.
Qed.

(** C3.  Whenever some year is available for the university, department,
    program and campus filter, [closest_year] returns an available year at
    the least absolute distance from the requested year, and among the
    years at that distance the earliest.  So from the years 2019 and 2022 a
    request for 2021 gets 2022, and from 2019 and 2023 it gets 2019. *)
Theorem closest_year_least_distance_earliest
        (merit_data : list record) (uni dept prog : option string) (yr : Z)
        (camp : option string) :
  available_years merit_data uni dept prog camp <> [] ->
  exists y,
    closest_year merit_data uni dept prog yr camp = Some y
    /\ In y (available_years merit_data uni dept prog camp)
    /\ (forall y', In y' (available_years merit_data uni dept prog camp) ->
                   Z.abs (y - yr) <= Z.abs (y' - yr))%Z
    /\ (forall y', In y' (available_years merit_data uni dept prog camp) ->
                   Z.abs (y' - yr) = Z.abs (y - yr) -> y <= y')%Z
    /\ (available_years merit_data uni dept prog camp = [2019; 2022]%Z ->
        yr = 2021%Z -> y = 2022%Z)
    /\ (available_years merit_data uni dept prog camp = [2019; 2023]%Z ->
        yr = 2021%Z -> y = 2019%Z).
Proof.
  intros Hne. unfold closest_year.
  assert (Hs : StronglySorted Z.lt (available_years merit_data uni dept prog camp))
    by apply sorted_set_increasing.
  destruct (available_years merit_data uni dept prog camp) as [|y0 ys] eqn:E;
    [congruence|].
  set (key := fun y : Z => Z.abs (y - yr)).
  destruct (min_by_first_least key ys y0) as (H1 & H2 & H3 & H4).
  exists (min_by key y0 ys). split; [reflexivity|].
  split; [|split; [|split; [|split]]].
  - destruct H1 as [-> | [H1 _]]; [left; reflexivity | right; exact H1].
  - intros y' [<- | Hy']; [exact H2 | apply H3; exact Hy'].
  - intros y' [<- | Hy'] Hk.
    + destruct H1 as [-> | [_ H1]]; [lia | unfold key in *; lia].
    + apply (H4 Hs y' Hy'). exact Hk.
  - intros Hy ->. injection Hy as -> ->. reflexivity.
  - intros Hy ->. injection Hy as -> ->. reflexivity.
Qed.

Lemma closest_year_least_distance_earliest_witness :
  available_years table_years (Some "FAST") (Some "Physics") (Some "BS")
    (Some "Lahore") <> []
  /\ exists y,
       closest_year table_years (Some "FAST") (Some "Physics") (Some "BS") 2021
         (Some "Lahore") = Some y
       /\ y = 2019%Z.
Proof.
  assert (Hne : available_years table_years (Some "FAST") (Some "Physics") (Some "BS")
                  (Some "Lahore") <> []) by (vm_compute; discriminate).
  split; [exact Hne|].
  destruct (closest_year_least_distance_earliest table_years (Some "FAST")
              (Some "Physics") (Some "BS") 2021 (Some "Lahore") Hne)
    as (y & Hy & _ & _ & _ & _ & H23).
  exists y. split; [exact Hy|].
  apply H23; [vm_compute; reflexivity | reflexivity].
Defined.

(** ** Merging the hint with the extractor *)








(** ** Vocabularies and alias tables *)

Lemma dict_get_In d key v : dict_get d key = Some v -> In (key, v) d.
Proof.
  unfold dict_get. destruct (List.find _ d) as [[k' v']|] eqn:E; [|discriminate].
  intros [= <-]. apply List.find_some in E. destruct E as [Hin Hk].
  apply String.eqb_eq in Hk. simpl in Hk. subst k'. exact Hin.
Qed.

Lemma column_In col keep rows x :
  In x (column col keep rows) <-> exists r, In r rows /\ keep r = true /\ col r = x.
Proof.
  unfold column. rewrite (sorted_set_In String.compare String.compare_eq_iff).
  rewrite List.in_map_iff. split.
  - intros (r & Hx & Hr). apply List.filter_In in Hr. destruct Hr. eauto.
  - intros (r & Hr & Hk & Hx). exists r. split; [exact Hx|].
    apply List.filter_In. auto.
Qed.

(** Every text column of a loaded record is stripped. *)
Lemma merit_records_stripped merit_data r :
  In r (merit_records merit_data) ->
  strip (University r) = University r /\ strip (Campus r) = Campus r
  /\ strip (Department r) = Department r /\ strip (Program r) = Program r.
Proof.
  unfold merit_records, grab_merit_data. rewrite List.in_map_iff.
  intros (r0 & <- & _). cbn [University Campus Department Program].
  repeat split; apply strip_idempotent.
Qed.

(** A vocabulary entry is a non-empty string without surrounding white space. *)
Lemma UNIS_entry merit_data u :
  In u (UNIS merit_data) -> nonempty u = true /\ strip u = u.
Proof.
  unfold UNIS. rewrite column_In. intros (r & Hr & Hk & <-).
  split; [exact Hk | apply (merit_records_stripped merit_data r Hr)].
Qed.

Lemma DEPTS_entry merit_data d :
  In d (DEPTS merit_data) -> nonempty d = true /\ strip d = d.
Proof.
  unfold DEPTS. rewrite column_In. intros (r & Hr & Hk & <-).
  split; [exact Hk | apply (merit_records_stripped merit_data r Hr)].
Qed.

Lemma PROGS_entry merit_data p :
  In p (PROGS merit_data) -> nonempty p = true /\ strip p = p.
Proof.
  unfold PROGS. rewrite column_In. intros (r & Hr & Hk & <-).
  split; [exact Hk | apply (merit_records_stripped merit_data r Hr)].
Qed.

Lemma CAMPS_entry merit_data c :
  In c (CAMPS merit_data) -> nonempty c = true /\ strip c = c.
Proof.
  unfold CAMPS. rewrite column_In. intros (r & Hr & Hk & <-).
  split; [exact Hk | apply (merit_records_stripped merit_data r Hr)].
Qed.

Lemma clean_spec s : clean s = true <-> nonempty s = true /\ strip s = s.
Proof.
  unfold clean. rewrite andb_true_iff, String.eqb_eq. reflexivity.
Qed.

Lemma prog_alias_values_clean :
  forallb (fun kv => clean (snd kv)) prog_aliases = true.
Proof. vm_compute. reflexivity. Qed.

Lemma prog_alias_value key v :
  In (key, v) prog_aliases -> nonempty v = true /\ strip v = v.
Proof.
  intros H. apply clean_spec.
  exact (proj1 (forallb_forall _ _) prog_alias_values_clean (key, v) H).
Qed.

Lemma alias_word_In aliases msg_l v :
  alias_word aliases msg_l = Some v -> exists key, In (key, v) aliases.
Proof.
  unfold alias_word. destruct (List.find _ aliases) as [[k' v']|] eqn:E; [|discriminate].
  intros [= <-]. apply List.find_some in E. exists k'. apply E.
Qed.

Lemma vocab_substring_In vocab msg_l v :
  vocab_substring vocab msg_l = Some v -> In v vocab.
Proof. unfold vocab_substring. intros E. apply List.find_some in E. apply E. Qed.

(** ** The program slot *)

Lemma nonempty_strip s : nonempty (strip s) = true -> nonempty s = true.
Proof. destruct s; [discriminate | reflexivity]. Qed.

Lemma prog_found_unfold merit_data now_y msg :
  prog_found (cheap_extract merit_data now_y msg) =
  let a := alias_word prog_aliases (lower msg) in
  let b := if negb (truthy a) then vocab_substring (PROGS merit_data) (lower msg) else a in
  if negb (truthy b) then Some "BS" else b.
Proof. reflexivity. Qed.

(** The extractor always finds a program, and one with visible characters. *)
Lemma prog_found_clean merit_data now_y msg :
  exists p, prog_found (cheap_extract merit_data now_y msg) = Some p
            /\ nonempty p = true /\ strip p = p.
Proof.
  rewrite prog_found_unfold. cbv zeta.
  destruct (alias_word prog_aliases (lower msg)) as [a|] eqn:Ea.
  - apply alias_word_In in Ea. destruct Ea as [key Hk].
    destruct (prog_alias_value key a Hk) as [Hn Hs].
    assert (Ht : truthy (Some a) = true) by exact Hn.
    rewrite Ht. cbn [negb]. rewrite Ht. cbn [negb]. eauto.
  - cbn [truthy negb].
    destruct (vocab_substring (PROGS merit_data) (lower msg)) as [p|] eqn:Ep.
    + apply vocab_substring_In, PROGS_entry in Ep. destruct Ep as [Hn Hs].
      assert (Ht : truthy (Some p) = true) by exact Hn.
      rewrite Ht. cbn [negb]. eauto.
    + cbn [truthy negb]. exists "BS". repeat split; reflexivity.
Qed.

Lemma norm_prog_truthy merit_data s :
  nonempty (strip s) = true -> truthy (norm_prog merit_data s) = true.
Proof.
  intros Hs. unfold norm_prog. rewrite (nonempty_strip s Hs). cbn [negb].
  destruct (dict_get prog_aliases _) as [v|] eqn:Ev.
  - apply dict_get_In, prog_alias_value in Ev. apply Ev.
  - unfold por. destruct (truthy (fuzzy_pick s (PROGS merit_data) cutoff_prog)) eqn:Ef.
    + exact Ef.
    + exact Hs.
Qed.

(** After the fallback the program is set, and a string program has
    visible characters unless the hint's program was blank. *)
Lemma merged_program merit_data now_y msg info :
  hint_program_blank info = false ->
  let m := fallback merit_data now_y msg (llm_extract now_y msg info) in
  (exists s, s_prog m = PStr s /\ nonempty (strip s) = true)
  \/ (pv_truthy (s_prog m) = true /\ forall s, s_prog m <> PStr s).
Proof.
  intros Hb. cbv zeta.
  destruct (prog_found_clean merit_data now_y msg) as (p & Hp & Hpn & Hps).
  assert (Hfall : forall v, pv_truthy v = false ->
            exists s, pv_or v (prog_found (cheap_extract merit_data now_y msg)) = PStr s
                      /\ nonempty (strip s) = true).
  { intros v Hv. unfold pv_or. rewrite Hv, Hp. exists p. split; [reflexivity|].
    rewrite Hps. exact Hpn. }
  unfold fallback.
  set (s := llm_extract now_y msg info).
  assert (Hprog : pv_truthy (s_prog s) = true ->
            (exists x, s_prog s = PStr x /\ nonempty (strip x) = true)
            \/ forall x, s_prog s <> PStr x).
  { subst s. unfold llm_extract. destruct info as [h|]; cbn [s_prog]; [|discriminate].
    unfold hint_program_blank in Hb.
    destruct (h_program h) as [| |x| | | | | |]; cbn [dict_get_or];
      try (intros _; right; discriminate).
    - intros _. left. exists "BS". split; reflexivity.
    - cbn [pv_truthy]. intros Hx. rewrite Hx in Hb. left. exists x. split; [reflexivity|].
      destruct (nonempty (strip x)); [reflexivity | discriminate Hb]. }
  destruct (pv_truthy (s_prog s)) eqn:Ep.
  - assert (Hkeep : (exists x, s_prog s = PStr x /\ nonempty (strip x) = true)
                    \/ (pv_truthy (s_prog s) = true /\ forall x, s_prog s <> PStr x)).
    { destruct (Hprog eq_refl) as [H | H]; [left; exact H | right; split; assumption]. }
    destruct (negb _); cbn [s_prog]; [|exact Hkeep].
    replace (pv_or (s_prog s) (prog_found (cheap_extract merit_data now_y msg)))
      with (s_prog s) by (unfold pv_or; rewrite Ep; reflexivity).
    exact Hkeep.
  - rewrite !andb_false_r, andb_false_l. cbn [negb s_prog].
    left. apply Hfall. exact Ep.
Qed.

Lemma normalize_prog merit_data s n :
  normalize merit_data s = Ok n ->
  norm_if (norm_prog merit_data) (s_prog s) = Ok (n_prog n).
Proof.
  unfold normalize.
  destruct (norm_if (norm_uni merit_data) (s_uni s)); [|discriminate].
  destruct (norm_if (norm_dept merit_data) (s_dept s)); [|discriminate].
  destruct (norm_if (norm_prog merit_data) (s_prog s)); [|discriminate].
  destruct (norm_campus_if merit_data (s_camp s)); [|discriminate].
  intros [= <-]. reflexivity.
Qed.

Lemma program_not_missing (n : normalized) :
  truthy (n_prog n) = true -> ~ In "program" (missing_slots n).
Proof.
  intros Hp. unfold missing_slots. rewrite Hp.
  destruct (truthy (n_uni n)), (truthy (n_dept n)); simpl; intuition discriminate.
Qed.

(** C9, as amended.  Unless the hint supplies a program made of white
    space only, every turn that reaches the slot-completeness check has a
    non-empty program slot: "program" is not among the missing slots and
    the turn does not reply with a program clarification prompt. *)
Theorem program_slot_is_filled
        (merit_data : list record) (now_y : Z) (session msg : string)
        (info : option hint) (w : world) :
  hint_program_blank info = false ->
  (forall n,
      normalize merit_data (fallback merit_data now_y msg (llm_extract now_y msg info)) = Ok n ->
      truthy (n_prog n) = true /\ ~ In "program" (missing_slots n))
  /\ fst (chat merit_data now_y session msg info w) <> Ok AskProgram
  /\ forall dept uni options,
       fst (chat merit_data now_y session msg info w) <> Ok (AskProgramFor dept uni options).
Proof.
  intros Hb.
  assert (H1 : forall n,
      normalize merit_data (fallback merit_data now_y msg (llm_extract now_y msg info)) = Ok n ->
      truthy (n_prog n) = true).
  { intros n Hn. apply normalize_prog in Hn.
    destruct (merged_program merit_data now_y msg info Hb) as [(s & Hs & Hne) | (Ht & Hs)].
    - rewrite Hs in Hn. unfold norm_if in Hn. cbn [pv_truthy] in Hn.
      rewrite (nonempty_strip s Hne) in Hn. injection Hn as <-.
      apply norm_prog_truthy. exact Hne.
    - unfold norm_if in Hn. rewrite Ht in Hn.
      destruct (s_prog _) as [|x| | | | | |]; try discriminate Hn.
      exfalso. apply (Hs x). reflexivity. }
  split; [intros n Hn; split; [apply H1; exact Hn | apply program_not_missing, H1; exact Hn]|].
  assert (H2 : forall r, fst (chat merit_data now_y session msg info w) = Ok r ->
                         r <> AskProgram /\ forall d u o, r <> AskProgramFor d u o).
  { intros r. unfold chat, bind, ctx_get, lift.
    destruct (is_policy_question msg).
    { unfold ret. cbn [fst]. intros [= <-]. split; [|intros d u o]; discriminate. }
    destruct (normalize merit_data _) as [n|e] eqn:Hn; [|discriminate].
    specialize (H1 n eq_refl).
    assert (Ha : forall ctx w0 r0, fst (answer merit_data session msg ctx n w0) = Ok r0 ->
                   r0 <> AskProgram /\ forall d u o, r0 <> AskProgramFor d u o).
    { intros ctx w0 r0. unfold answer, bind, ret, ctx_pop.
      destruct (truthy (option_map awaiting ctx)); cbn [fst];
        match goal with |- context [if ?b then _ else _] => destruct b end;
        cbn [fst]; intros [= <-]; (split; [|intros d u o]; discriminate). }
    destruct (missing_slots n) as [|ask rest] eqn:Hm; [apply Ha|].
    unfold ctx_set, ret.
    assert (Hask : ask <> "program").
    { intros ->. apply (program_not_missing n H1). rewrite Hm. left. reflexivity. }
    destruct (missing_head n ask rest Hm) as [-> | [-> | ->]]; [| |contradiction].
    - cbn. intros [= <-]. split; [|intros d u o]; discriminate.
    - cbn. destruct (truthy (n_uni n)); cbn; intros [= <-];
        (split; [|intros d u o]; discriminate). }
  split.
  - intros E. apply (proj1 (H2 _ E)). reflexivity.
  - intros d u o E. apply (proj2 (H2 _ E) d u o). reflexivity.
Qed.

Lemma program_slot_is_filled_witness :
  hint_program_blank None = false
  /\ fst (chat table_fast 2026 "s" "Physics at FAST" None empty_world) <> Ok AskProgram.
Proof.
  split; [reflexivity|].
  exact (proj1 (proj2 (program_slot_is_filled table_fast 2026 "s" "Physics at FAST"
                         None empty_world eq_refl))).
Defined.

(** C9, the claim as stated fails: a hint whose program is one space passes
    the truth test, is normalized to the empty string, and the turn asks for
    the program. *)
Lemma blank_hint_program_is_asked_for :
  let n := normalize table_fast
             (fallback table_fast 2026 "merit" (llm_extract 2026 "merit" (Some hint_blank_program))) in
  (exists n0, n = Ok n0 /\ n_prog n0 = Some EmptyString /\ missing_slots n0 = ["program"])
  /\ fst (chat table_fast 2026 "s" "merit" (Some hint_blank_program) empty_world)
     = Ok (AskProgramFor "Physics" "FAST" ["BS"]).
Proof.
  split; [eexists; vm_compute; repeat split; reflexivity | vm_compute; reflexivity].
Qed.

(** ** What the matcher returns *)

Lemma star_k_sound p k : forall s prev x,
  star_k p k prev s = Some x ->
  exists prev' s', matches (Star p) prev s prev' s' /\ k prev' s' = Some x.
Proof.
  induction s as [|c s IH]; intros prev x; simpl.
  - intros H. exists prev, EmptyString. split; [constructor | exact H].
  - destruct (p c) eqn:Ep.
    + destruct (star_k p k (Some c) s) as [y|] eqn:Es.
      * intros [= <-]. destruct (IH _ _ Es) as (prev' & s' & Hm & Hk).
        exists prev', s'. split; [apply M_StarS; assumption | exact Hk].
      * intros H. exists prev, (String c s). split; [constructor | exact H].
    + intros H. exists prev, (String c s). split; [constructor | exact H].
Qed.

Lemma rmatch_sound r : forall k prev s x,
  rmatch r k prev s = Some x ->
  exists prev' s', matches r prev s prev' s' /\ k prev' s' = Some x.
Proof.
  induction r as [|p|r1 IH1 r2 IH2|r1 IH1 r2 IH2|p|]; intros k prev s x; simpl.
  - intros H. exists prev, s. split; [constructor | exact H].
  - destruct s as [|c s]; [discriminate|].
    destruct (p c) eqn:Ep; [|discriminate].
    intros H. exists (Some c), s. split; [constructor; exact Ep | exact H].
  - intros H. apply IH1 in H. destruct H as (prev1 & s1 & Hm1 & H).
    apply IH2 in H. destruct H as (prev2 & s2 & Hm2 & H).
    exists prev2, s2. split; [econstructor; eassumption | exact H].
  - destruct (rmatch r1 k prev s) as [y|] eqn:E1.
    + intros [= <-]. apply IH1 in E1. destruct E1 as (prev' & s' & Hm & Hk).
      exists prev', s'. split; [apply M_AltL; exact Hm | exact Hk].
    + intros H. apply IH2 in H. destruct H as (prev' & s' & Hm & Hk).
      exists prev', s'. split; [apply M_AltR; exact Hm | exact Hk].
  - apply star_k_sound.
  - destruct (xorb (word_before prev) (word_after s)) eqn:E; [|discriminate].
    intros H. exists prev, s. split; [constructor; exact E | exact H].
Qed.

Lemma match_here_sound r prev s rest :
  match_here r prev s = Some rest -> exists prev', matches r prev s prev' rest.
Proof.
  unfold match_here. intros H. apply rmatch_sound in H.
  destruct H as (prev' & s' & Hm & [= <-]). eauto.
Qed.

(** A match leaves a suffix of the text. *)
Lemma matches_suffix r prev s prev' s' :
  matches r prev s prev' s' -> exists m, s = m +:+ s'.
Proof.
  induction 1.
  - exists EmptyString. reflexivity.
  - exists (String c EmptyString). reflexivity.
  - destruct IHmatches1 as [m1 ->]. destruct IHmatches2 as [m2 ->].
    exists (m1 +:+ m2). symmetry. apply app_assoc_s.
  - assumption.
  - assumption.
  - exists EmptyString. reflexivity.
  - destruct IHmatches as [m ->]. exists (String c m). reflexivity.
  - exists EmptyString. reflexivity.
Qed.

Lemma length_app_s s t : String.length (s +:+ t) = (String.length s + String.length t)%nat.
Proof.
  induction s as [|c s IH]; [reflexivity|]. rewrite app_cons_s. simpl. rewrite IH. reflexivity.
Qed.

Lemma take_app m s : take (String.length m) (m +:+ s) = m.
Proof.
  induction m as [|c m IH]; [destruct s; reflexivity|].
  rewrite app_cons_s. simpl. rewrite IH. reflexivity.
Qed.

Lemma consumed_app m s : consumed (m +:+ s) s = String.length m.
Proof. unfold consumed. rewrite length_app_s. lia. Qed.

Lemma app_inv_length s1 t1 s2 t2 :
  s1 +:+ t1 = s2 +:+ t2 -> String.length s1 = String.length s2 -> s1 = s2 /\ t1 = t2.
Proof.
  revert s2. induction s1 as [|c s1 IH]; intros [|c2 s2]; try discriminate.
  - rewrite !app_nil_s. auto.
  - rewrite !app_cons_s. intros [= -> H] [= Hl].
    destruct (IH _ H Hl) as [-> ->]. auto.
Qed.

(** [re.search] returns a matched text at the leftmost match. *)
Lemma search_from_leftmost r : forall s prev m,
  search_from r prev s = Some m ->
  exists pre post, leftmost_from prev r s pre m post.
Proof.
  assert (Hhere : forall prev s rest, match_here r prev s = Some rest ->
            leftmost_from prev r s EmptyString (take (consumed s rest) s) rest).
  { intros prev s rest H. destruct (match_here_sound _ _ _ _ H) as [prev' Hm].
    destruct (matches_suffix _ _ _ _ _ Hm) as [m ->].
    rewrite consumed_app, take_app. split; [reflexivity|].
    split; [exists prev'; exact Hm|].
    intros pre' rest' p q _ Hl. simpl in Hl. lia. }
  induction s as [|c s IH]; intros prev m; simpl.
  - destruct (match_here r prev EmptyString) as [rest|] eqn:E; [|discriminate].
    intros [= <-]. exists EmptyString, rest. apply (Hhere _ _ _ E).
  - destruct (match_here r prev (String c s)) as [rest|] eqn:E.
    + intros [= <-]. exists EmptyString, rest. apply (Hhere _ _ _ E).
    + intros H. destruct (IH _ _ H) as (pre & post & Hs & Hm & Hleft).
      exists (String c pre), post. split; [rewrite app_cons_s; congruence|].
      split; [exact Hm|].
      intros pre' rest p q Hs' Hl Hm'.
      destruct pre' as [|c' pre'].
      * rewrite app_nil_s in Hs'. subst rest. simpl in Hm'.
        assert (match_here r prev (String c s) <> None)
          by (apply match_here_matches; eauto).
        congruence.
      * rewrite app_cons_s in Hs'. injection Hs' as <- Hs'.
        apply (Hleft pre' rest p q Hs'); [simpl in Hl; lia | exact Hm'].
Qed.

(** The place of the leftmost match is determined. *)
Lemma leftmost_from_place prev r s pre1 m1 post1 pre2 m2 post2 :
  leftmost_from prev r s pre1 m1 post1 -> leftmost_from prev r s pre2 m2 post2 ->
  pre1 = pre2 /\ m1 +:+ post1 = m2 +:+ post2.
Proof.
  intros (Hs1 & (p1 & Hm1) & Hl1) (Hs2 & (p2 & Hm2) & Hl2).
  apply app_inv_length; [congruence|].
  destruct (Nat.lt_trichotomy (String.length pre1) (String.length pre2)) as [H | [H | H]].
  - exfalso. apply (Hl2 pre1 (m1 +:+ post1) p1 post1 Hs1 H Hm1).
  - exact H.
  - exfalso. apply (Hl1 pre2 (m2 +:+ post2) p2 post2 Hs2 H Hm2).
Qed.

(** ** The year of a message *)

Ltac inv_matches :=
  repeat match goal with
         | H : matches (Seq _ _) _ _ _ _ |- _ => inversion H; clear H; subst
         | H : matches (Alt _ _) _ _ _ _ |- _ => inversion H; clear H; subst
         | H : matches (Chr _) _ _ _ _ |- _ => inversion H; clear H; subst
         | H : matches Eps _ _ _ _ |- _ => inversion H; clear H; subst
         | H : matches WordB _ _ _ _ |- _ => inversion H; clear H; subst
         | H : Ascii.eqb _ _ = true |- _ => apply Ascii.eqb_eq in H; subst
         end.

Lemma four_digit_year_text prev s prev' post :
  matches four_digit_year prev s prev' post ->
  exists m, s = m +:+ post /\ year_text m.
Proof.
  intros H. cbv [four_digit_year whole_word lits lit] in H. inv_matches;
    match goal with
    | |- exists m, String ?a (String ?b (String ?c (String ?d _))) = _ /\ _ =>
        exists (String a (String b (String c (String d EmptyString))));
        split; [reflexivity|]; exists c, d; auto
    end.
Qed.

Lemma isdigit_not_int_space c : isdigit c = true -> int_space c = false.
Proof. destruct c as [[] [] [] [] [] [] [] []]; vm_compute; congruence. Qed.

Lemma isdigit_value c :
  isdigit c = true -> (0 <= Z.of_nat (code c - 48) <= 9)%Z.
Proof. destruct c as [[] [] [] [] [] [] [] []]; vm_compute; intuition congruence. Qed.

Lemma year_text_value m :
  year_text m -> exists y, int_of_string m = Some y /\ (1900 <= y <= 2099)%Z.
Proof.
  intros (c & d & Hc & Hd & [-> | ->]);
    unfold int_of_string;
    cbn [lskip]; (change (int_space "2") with false || change (int_space "1") with false);
    cbv iota; cbn [rskip];
    rewrite (isdigit_not_int_space d Hd); cbv iota;
    cbn [digits_value]; (change (isdigit "2") with true || change (isdigit "1") with true);
    (change (isdigit "0") with true || change (isdigit "9") with true);
    cbv iota; rewrite Hc, Hd; cbv iota;
    eexists; (split; [reflexivity|]);
    pose proof (isdigit_value c Hc); pose proof (isdigit_value d Hd);
    repeat match goal with
           | |- context [Z.of_nat (code ?x - 48)] =>
               tryif is_var x then fail
               else (let v := eval vm_compute in (Z.of_nat (code x - 48)) in
                     change (Z.of_nat (code x - 48)) with v)
           end;
    lia.
Qed.

Lemma year_text_length m : year_text m -> String.length m = 4%nat.
Proof. intros (c & d & _ & _ & [-> | ->]); reflexivity. Qed.

Lemma app_inv_tail_s m1 m2 post : m1 +:+ post = m2 +:+ post -> m1 = m2.
Proof.
  intros H. apply (app_inv_length m1 post m2 post H).
  apply (f_equal String.length) in H. rewrite !length_app_s in H. lia.
Qed.

(** C7, as amended.  The year of a message is always an integer.  When
    the phrase "last year" occurs in the lower-cased message it is the
    current year minus one, whether or not a year is written out as well.
    Otherwise, when a four-digit year 19xx or 20xx occurs as a word, it is
    the value of the leftmost such year.  Otherwise it is the current
    year. *)
Theorem detect_year_rule (now_y : Z) (msg : string) :
  (occurs last_year_pattern (lower msg) ->
   detect_year_from_text now_y msg = (now_y - 1)%Z)
  /\ (~ occurs last_year_pattern (lower msg) ->
      forall pre m post,
        leftmost four_digit_year (lower msg) pre m post ->
        exists y, int_of_string m = Some y /\ (1900 <= y <= 2099)%Z
                  /\ detect_year_from_text now_y msg = y)
  /\ (~ occurs last_year_pattern (lower msg) ->
      ~ occurs four_digit_year (lower msg) ->
      detect_year_from_text now_y msg = now_y).
Proof.
  unfold detect_year_from_text. split; [|split].
  - intros H. apply re_found_occurs in H. rewrite H. reflexivity.
  - intros Hn pre m post Hl.
    destruct (re_found last_year_pattern (lower msg)) eqn:E;
      [exfalso; apply Hn, re_found_occurs; exact E|].
    destruct (re_search four_digit_year (lower msg)) as [m'|] eqn:Es.
    + destruct (search_from_leftmost _ _ _ _ Es) as (pre' & post' & Hl').
      destruct (leftmost_from_place _ _ _ _ _ _ _ _ _ Hl Hl') as [_ Heq].
      destruct Hl as (_ & (p & Hm) & _). destruct Hl' as (_ & (p' & Hm') & _).
      apply four_digit_year_text in Hm. destruct Hm as (m0 & E0 & Hy).
      apply app_inv_tail_s in E0. subst m0.
      apply four_digit_year_text in Hm'. destruct Hm' as (m0 & E0 & Hy').
      apply app_inv_tail_s in E0. subst m0.
      assert (m = m') as <-.
      { apply (app_inv_length _ _ _ _ Heq).
        rewrite (year_text_length _ Hy), (year_text_length _ Hy'). reflexivity. }
      destruct (year_text_value m Hy) as (y & Hv & Hr).
      exists y. rewrite Hv. auto.
    + exfalso. destruct Hl as (Hs & (p & Hm) & _).
      assert (Hocc : occurs four_digit_year (lower msg)).
      { exists pre, (m +:+ post), p, post. auto. }
      apply re_found_occurs in Hocc. unfold re_found in Hocc. rewrite Es in Hocc.
      discriminate.
  - intros Hn Hy.
    destruct (re_found last_year_pattern (lower msg)) eqn:E;
      [exfalso; apply Hn, re_found_occurs; exact E|].
    destruct (re_search four_digit_year (lower msg)) as [m'|] eqn:Es; [|reflexivity].
    exfalso. apply Hy, re_found_occurs. unfold re_found. rewrite Es. reflexivity.
Qed.

Lemma detect_year_rule_witness :
  occurs last_year_pattern (lower "Merit for CS at FAST last  year?")
  /\ detect_year_from_text 2026 "Merit for CS at FAST last  year?" = 2025%Z.
Proof.
  assert (H : occurs last_year_pattern (lower "Merit for CS at FAST last  year?")).
  { apply re_found_occurs. vm_compute. reflexivity. }
  split; [exact H|].
  exact (proj1 (detect_year_rule 2026 "Merit for CS at FAST last  year?") H).
Defined.

(** C7, the claim as stated fails: a message with an explicit year and the
    phrase "last year" gets the current year minus one, not the year
    written in it. *)
Lemma last_year_overrides_explicit_year :
  re_search four_digit_year (lower "Was the 2019 merit higher than last year?") = Some "2019"
  /\ detect_year_from_text 2026 "Was the 2019 merit higher than last year?" = 2025%Z.
Proof. vm_compute. split; reflexivity. Qed.

(** ** The fuzzy step *)

Lemma Qle_bool_false a b : Qle_bool a b = false <-> (b < a)%Q.
Proof.
  split.
  - intros H. apply Qnot_le_lt. intros Hle. apply Qle_bool_iff in Hle. congruence.
  - intros H. destruct (Qle_bool a b) eqn:E; [|reflexivity].
    apply Qle_bool_iff in E. exfalso. apply (Qlt_not_le _ _ H E).
Qed.

(** The loop of [fuzzy_pick] ends with the highest ratio met, and with an
    option that has it unless no option beat the initial ratio. *)
Lemma fuzzy_scan_best candidate : forall options best best_r b r,
  fuzzy_scan candidate options best best_r = (b, r) ->
  (best_r <= r)%Q
  /\ (forall o, In o options -> ratio candidate o <= r)%Q
  /\ ((b = best /\ r = best_r)
      \/ exists o, In o options /\ b = Some o /\ r = ratio candidate o).
Proof.
  induction options as [|o options IH]; intros best best_r b r; simpl.
  - intros [= <- <-]. split; [apply Qle_refl|]. split; [intros o []|]. left. auto.
  - destruct (Qle_bool (ratio candidate o) best_r) eqn:E; cbn [negb]; intros H.
    + apply Qle_bool_iff in E. destruct (IH _ _ _ _ H) as (H1 & H2 & H3).
      split; [exact H1|]. split.
      * intros o' [<- | Ho']; [eapply Qle_trans; eassumption | apply H2; exact Ho'].
      * destruct H3 as [H3 | (o' & Ho' & Hb & Hr)]; [left; exact H3|].
        right. exists o'. auto.
    + apply Qle_bool_false in E. destruct (IH _ _ _ _ H) as (H1 & H2 & H3).
      split; [eapply Qle_trans; [apply Qlt_le_weak; exact E | exact H1]|]. split.
      * intros o' [<- | Ho']; [exact H1 | apply H2; exact Ho'].
      * right. destruct H3 as [[-> ->] | (o' & Ho' & Hb & Hr)].
        -- exists o. auto.
        -- exists o'. auto.
Qed.

Lemma fuzzy_pick_outcome txt vocab cutoff passthrough :
  nonempty txt = true -> (0 < cutoff)%Q ->
  (forall x, In x vocab -> nonempty x = true) ->
  exists r, por (fuzzy_pick txt vocab cutoff) (Some passthrough) = Some r
            /\ fuzzy_outcome txt vocab cutoff passthrough r.
Proof.
  intros Hn Hc Hv. unfold fuzzy_pick. rewrite Hn. cbn [negb orb].
  destruct vocab as [|v0 vocab'] eqn:Ev.
  { exists passthrough. split; [reflexivity|]. right. split; [reflexivity | intros o []]. }
  rewrite <- Ev in *. clear Ev.
  destruct (fuzzy_scan txt vocab None 0) as [b r] eqn:E.
  destruct (fuzzy_scan_best _ _ _ _ _ _ E) as (H0 & Hmax & Hb).
  destruct (Qle_bool cutoff r) eqn:Ec.
  - apply Qle_bool_iff in Ec.
    destruct Hb as [[-> ->] | (o & Ho & -> & ->)].
    + exfalso. apply (Qlt_not_le _ _ Hc Ec).
    + exists o. unfold por, truthy. rewrite (Hv o Ho). split; [reflexivity|].
      left. auto.
  - apply Qle_bool_false in Ec. exists passthrough. split; [reflexivity|].
    right. split; [reflexivity|]. intros o Ho.
    eapply Qle_lt_trans; [apply Hmax; exact Ho | exact Ec].
Qed.

(** ** Splitting a campus text *)

Lemma star_k_ext p (k1 k2 : cont) :
  (forall prev s, k1 prev s = k2 prev s) ->
  forall s prev, star_k p k1 prev s = star_k p k2 prev s.
Proof.
  intros Hk. induction s as [|c s IH]; intros prev; simpl; [apply Hk|].
  rewrite IH, Hk. reflexivity.
Qed.

Lemma star_space_rest s prev :
  star_k isspace (fun _ rest => Some rest) prev s = Some (lstrip s).
Proof.
  revert prev. induction s as [|c s IH]; intros prev; simpl; [reflexivity|].
  destruct (isspace c); [rewrite IH|]; reflexivity.
Qed.

Lemma letter_a_not_ampersand c :
  Ascii.eqb (lower_char c) "a" = true -> Ascii.eqb "&" c = false.
Proof. destruct c as [[] [] [] [] [] [] [] []]; vm_compute; congruence. Qed.

Lemma space_not_token c :
  isspace c = true ->
  Ascii.eqb "," c = false /\ Ascii.eqb (lower_char c) "a" = false /\ Ascii.eqb "&" c = false.
Proof. destruct c as [[] [] [] [] [] [] [] []]; vm_compute; intuition congruence. Qed.

Lemma sep_tail_token prev s :
  rmatch sep_tail (fun _ rest => Some rest) prev s =
  match sep_token s with
  | Some rest => Some (lstrip rest)
  | None => None
  end.
Proof.
  unfold sep_tail, lit, lit_i. cbn [rmatch]. destruct s as [|c s1]; [reflexivity|].
  cbn [sep_token]. destruct (Ascii.eqb "," c) eqn:E1.
  { rewrite star_space_rest. reflexivity. }
  destruct (Ascii.eqb (lower_char c) "a") eqn:E2.
  - rewrite (letter_a_not_ampersand c E2).
    destruct s1 as [|c2 [|c3 s3]]; try reflexivity.
    + destruct (Ascii.eqb (lower_char c2) "n"); reflexivity.
    + destruct (Ascii.eqb (lower_char c2) "n"); [|reflexivity].
      destruct (Ascii.eqb (lower_char c3) "d"); [|reflexivity].
      cbn [andb]. rewrite star_space_rest. reflexivity.
  - destruct (Ascii.eqb "&" c); [rewrite star_space_rest|]; reflexivity.
Qed.

Lemma sep_token_space c s : isspace c = true -> sep_token (String c s) = None.
Proof.
  intros H. destruct (space_not_token c H) as (H1 & H2 & H3).
  cbn [sep_token]. rewrite H1, H2, H3. reflexivity.
Qed.

(** A separator match does not depend on the character before it. *)
Lemma match_here_separator prev s : match_here campus_separator prev s = sep_at s.
Proof.
  unfold match_here, campus_separator. cbn [rmatch]. fold sep_tail.
  rewrite (star_k_ext isspace _ (fun _ t => match sep_token t with
                                           | Some rest => Some (lstrip rest)
                                           | None => None
                                           end))
    by (intros; apply sep_tail_token).
  unfold sep_at. revert prev. induction s as [|c s IH]; intros prev; [reflexivity|].
  cbn [star_k lstrip]. destruct (isspace c) eqn:E.
  - rewrite IH. rewrite (sep_token_space c s E).
    destruct (sep_token (lstrip s)); reflexivity.
  - reflexivity.
Qed.

Lemma split_from_separator_prev : forall s prev prev' skip,
  split_from campus_separator prev s skip = split_from campus_separator prev' s skip.
Proof.
  induction s as [|c s IH]; intros prev prev' skip; [reflexivity|].
  cbn [split_from]. rewrite !match_here_separator.
  destruct skip; [|apply IH]. reflexivity.
Qed.

(** Stepping over the rest of a match. *)
Lemma split_from_skip r : forall m prev rest,
  split_from r prev (m +:+ rest) (String.length m) = split_from r (last_char prev m) rest 0.
Proof.
  induction m as [|c m IH]; intros prev rest.
  - rewrite app_nil_s. reflexivity.
  - rewrite app_cons_s. cbn [String.length split_from last_char]. apply IH.
Qed.

(** A match at the head ends the piece being read. *)
Lemma split_from_head r prev c m rest :
  match_here r prev (String c (m +:+ rest)) = Some rest ->
  split_from r prev (String c (m +:+ rest)) 0 =
  (EmptyString, fst (split_from r (last_char (Some c) m) rest 0)
                  :: snd (split_from r (last_char (Some c) m) rest 0)).
Proof.
  intros H. cbn [split_from]. rewrite H.
  change (String c (m +:+ rest)) with (String c m +:+ rest).
  rewrite consumed_app. cbn [String.length].
  rewrite split_from_skip.
  destruct (split_from r (last_char (Some c) m) rest 0). reflexivity.
Qed.

(** No match at the head lets the piece grow by one character. *)
Lemma split_from_step r prev c s :
  match_here r prev (String c s) = None ->
  split_from r prev (String c s) 0 =
  (String c (fst (split_from r (Some c) s 0)), snd (split_from r (Some c) s 0)).
Proof.
  intros H. cbn [split_from]. rewrite H.
  destruct (split_from r (Some c) s 0). reflexivity.
Qed.

(** ** Campus names *)

Lemma prefix_empty t : String.prefix EmptyString t = true.
Proof. destruct t; reflexivity. Qed.

Lemma contains_cons x c t :
  contains x (String c t) = String.prefix x (String c t) || contains x t.
Proof. reflexivity. Qed.

Lemma quiet_tail c d t : quiet (String c (String d t)) = true -> quiet (String d t) = true.
Proof.
  unfold quiet. rewrite !andb_true_iff, !negb_true_iff, String.eqb_eq.
  intros [[[H1 H2] H3] H4].
  change (lower (String c (String d t))) with (String (lower_char c) (lower (String d t))) in H4.
  rewrite contains_cons in H2, H3, H4.
  apply orb_false_iff in H2, H3, H4.
  rewrite String.eqb_eq. repeat split; try tauto.
  rewrite rstrip_cons in H1. destruct (rstrip (String d t)) as [|e r] eqn:E.
  - destruct (isspace c); discriminate H1.
  - congruence.
Qed.

Lemma quiet_last_not_space c : quiet (String c EmptyString) = true -> isspace c = false.
Proof.
  unfold quiet. rewrite !andb_true_iff, String.eqb_eq. intros [[[H1 _] _] _].
  cbn in H1. destruct (isspace c); [discriminate H1 | reflexivity].
Qed.

(** Inside a quiet text followed by a safe character no separator starts. *)
Lemma no_separator_inside : forall t x,
  t <> EmptyString -> quiet t = true -> safe_next x = true -> sep_at (t +:+ x) = None.
Proof.
  induction t as [|c t IH]; intros x Hne Hq Hx; [congruence|].
  unfold sep_at. rewrite app_cons_s. cbn [lstrip].
  destruct (isspace c) eqn:Ec.
  - destruct t as [|d t].
    + rewrite (quiet_last_not_space c Hq) in Ec. discriminate.
    + apply (IH x); [discriminate | apply (quiet_tail c d t Hq) | exact Hx].
  - pose proof Hq as Hq'. unfold quiet in Hq'.
    rewrite !andb_true_iff, !negb_true_iff in Hq'. destruct Hq' as [[[_ H2] H3] H4].
    change (lower (String c t)) with (String (lower_char c) (lower t)) in H4.
    rewrite contains_cons in H2, H3, H4.
    apply orb_false_iff in H2, H3, H4. destruct H2 as [H2 _], H3 as [H3 _], H4 as [H4 _].
    cbn [sep_token].
    destruct (Ascii.eqb "," c) eqn:E1.
    { apply Ascii.eqb_eq in E1. subst c. cbn in H2. rewrite prefix_empty in H2. discriminate H2. }
    destruct (Ascii.eqb "&" c) eqn:E3.
    { apply Ascii.eqb_eq in E3. subst c. cbn in H3. rewrite prefix_empty in H3. discriminate H3. }
    destruct (Ascii.eqb (lower_char c) "a") eqn:E2; [|reflexivity].
    apply Ascii.eqb_eq in E2. rewrite E2 in H4.
    destruct t as [|c2 [|c3 t3]].
    + rewrite app_nil_s. destruct x as [|x1 [|x2 x]]; [reflexivity| |].
      * reflexivity.
      * cbn [safe_next] in Hx. apply andb_true_iff in Hx. destruct Hx as [Hx _].
        apply negb_true_iff in Hx. rewrite Hx. reflexivity.
    + rewrite app_cons_s, app_nil_s. destruct x as [|x1 x]; [reflexivity|].
      cbn [safe_next] in Hx. apply andb_true_iff in Hx. destruct Hx as [_ Hx].
      apply negb_true_iff in Hx. rewrite Hx, andb_false_r. reflexivity.
    + rewrite !app_cons_s.
      destruct (Ascii.eqb (lower_char c2) "n") eqn:En; [|reflexivity].
      destruct (Ascii.eqb (lower_char c3) "d") eqn:Ed; [|reflexivity].
      apply Ascii.eqb_eq in En, Ed. cbn [lower] in H4. rewrite En, Ed in H4.
      cbn in H4. rewrite prefix_empty in H4. discriminate H4.
Qed.

(** A quiet text is read into the current piece up to its end. *)
Lemma split_from_quiet : forall t prev x,
  (t = EmptyString \/ quiet t = true) -> safe_next x = true ->
  split_from campus_separator prev (t +:+ x) 0 =
  (t +:+ fst (split_from campus_separator None x 0),
   snd (split_from campus_separator None x 0)).
Proof.
  induction t as [|c t IH]; intros prev x Hq Hx.
  - rewrite !app_nil_s. rewrite (split_from_separator_prev x prev None).
    destruct (split_from campus_separator None x 0); reflexivity.
  - destruct Hq as [Hq | Hq]; [discriminate Hq|].
    rewrite app_cons_s. rewrite split_from_step.
    + rewrite (IH (Some c) x); [reflexivity | | exact Hx].
      destruct t as [|d t]; [left; reflexivity | right; apply (quiet_tail c d t Hq)].
    + rewrite match_here_separator. rewrite <- app_cons_s.
      apply no_separator_inside; [discriminate | exact Hq | exact Hx].
Qed.

Lemma separator_safe sep x : In sep separators -> safe_next (sep +:+ x) = true.
Proof.
  intros H. repeat (destruct H as [<- | H]; [reflexivity|]). destruct H.
Qed.

(** Evaluation of the character tests on literal characters. *)
Ltac eval_char_tests :=
  repeat match goal with
         | |- context [isspace (Ascii ?a ?b ?c ?d ?e ?f ?g ?h)] =>
             let v := eval vm_compute in (isspace (Ascii a b c d e f g h)) in
             change (isspace (Ascii a b c d e f g h)) with v
         | |- context [lower_char (Ascii ?a ?b ?c ?d ?e ?f ?g ?h)] =>
             let v := eval vm_compute in (lower_char (Ascii a b c d e f g h)) in
             change (lower_char (Ascii a b c d e f g h)) with v
         | |- context [Ascii.eqb (Ascii ?a ?b ?c ?d ?e ?f ?g ?h)
                                 (Ascii ?a' ?b' ?c' ?d' ?e' ?f' ?g' ?h')] =>
             let v := eval vm_compute in
                        (Ascii.eqb (Ascii a b c d e f g h) (Ascii a' b' c' d' e' f' g' h')) in
             change (Ascii.eqb (Ascii a b c d e f g h) (Ascii a' b' c' d' e' f' g' h')) with v
         end;
  cbv iota.

(** At the end of a name the separator matches, and exactly it. *)
Lemma split_from_separator sep rest prev :
  In sep separators -> no_lead rest = true ->
  split_from campus_separator prev (sep +:+ rest) 0 =
  (EmptyString, fst (split_from campus_separator None rest 0)
                  :: snd (split_from campus_separator None rest 0)).
Proof.
  intros H Hr.
  assert (Hm : sep_at (sep +:+ rest) = Some rest).
  { unfold sep_at.
    repeat (destruct H as [<- | H];
            [rewrite !app_cons_s, app_nil_s;
             repeat (progress (cbn [lstrip sep_token andb]; eval_char_tests));
             rewrite ?(lstrip_id rest Hr); reflexivity|]).
    destruct H. }
  destruct sep as [|c m]; [exfalso; repeat (destruct H as [H | H]; [discriminate H|]); exact H|].
  rewrite app_cons_s in Hm |- *.
  rewrite (split_from_head campus_separator prev c m rest)
    by (rewrite match_here_separator; exact Hm).
  rewrite (split_from_separator_prev rest _ None). reflexivity.
Qed.

Lemma plain_spec n :
  plain n = true ->
  n <> EmptyString /\ no_lead n = true /\ quiet n = true /\ strip n = n.
Proof.
  unfold plain. rewrite !andb_true_iff. intros [[H1 H2] H3].
  split; [apply nonempty_true; exact H1|]. split; [exact H2|]. split; [exact H3|].
  unfold strip. rewrite (lstrip_id n H2).
  unfold quiet in H3. rewrite !andb_true_iff in H3. destruct H3 as [[[H3 _] _] _].
  apply String.eqb_eq in H3. exact H3.
Qed.

Lemma no_lead_app a b : a <> EmptyString -> no_lead a = true -> no_lead (a +:+ b) = true.
Proof. destruct a; [congruence|]. intros _ H. exact H. Qed.

Lemma join_cons sep n n2 l : join sep (n :: n2 :: l) = n +:+ sep +:+ join sep (n2 :: l).
Proof. reflexivity. Qed.

(** Splitting a list of campus names joined by a separator gives the names back. *)
Lemma split_join sep : In sep separators -> forall names n prev,
  plain n = true -> Forall (fun x => plain x = true) names ->
  split_from campus_separator prev (join sep (n :: names)) 0 = (n, names).
Proof.
  intros Hsep. induction names as [|n2 names IH]; intros n prev Hn Hall.
  - destruct (plain_spec n Hn) as (_ & _ & Hq & _).
    cbn [join]. rewrite <- (app_s_nil n) at 1.
    rewrite split_from_quiet; [|right; exact Hq | reflexivity].
    cbn [split_from fst snd]. rewrite app_s_nil. reflexivity.
  - inversion Hall as [|? ? Hn2 Hall']; subst.
    destruct (plain_spec n Hn) as (_ & _ & Hq & _).
    destruct (plain_spec n2 Hn2) as (Hne2 & Hl2 & _ & _).
    rewrite join_cons.
    rewrite split_from_quiet; [|right; exact Hq | apply separator_safe; exact Hsep].
    rewrite split_from_separator; [|exact Hsep|].
    + rewrite (IH n2 None Hn2 Hall'). cbn [fst snd]. rewrite app_s_nil. reflexivity.
    + destruct names as [|n3 names]; [exact Hl2|].
      rewrite join_cons. apply no_lead_app; assumption.
Qed.

Lemma re_split_join sep names :
  In sep separators -> names <> [] -> Forall (fun x => plain x = true) names ->
  re_split campus_separator (join sep names) = names.
Proof.
  intros Hsep Hne Hall. destruct names as [|n names]; [congruence|].
  inversion Hall; subst. unfold re_split.
  rewrite (split_join sep Hsep names n None); auto.
Qed.

Lemma map_strip_plain names :
  Forall (fun x => plain x = true) names ->
  List.filter nonempty (List.map strip names) = names.
Proof.
  induction 1 as [|n names Hn _ IH]; [reflexivity|].
  destruct (plain_spec n Hn) as (Hne & _ & _ & Hs).
  cbn [List.map List.filter]. rewrite Hs, IH.
  apply nonempty_true in Hne. rewrite Hne. reflexivity.
Qed.

Lemma join_nonempty sep n names : n <> EmptyString -> nonempty (join sep (n :: names)) = true.
Proof.
  intros Hn. destruct n as [|c n]; [congruence|]. destruct names; reflexivity.
Qed.

(** ** Removing duplicates twice *)

Lemma dedupe_from_idempotent : forall l seen,
  dedupe_from seen (dedupe_from seen l) = dedupe_from seen l.
Proof.
  induction l as [|c l IH]; intros seen; [reflexivity|].
  cbn [dedupe_from]. destruct (existsb (String.eqb (lower c)) seen) eqn:E.
  - apply IH.
  - cbn [dedupe_from]. rewrite E, IH. reflexivity.
Qed.

Lemma dedupe_from_In : forall l seen x, In x (dedupe_from seen l) -> In x l.
Proof.
  induction l as [|c l IH]; intros seen x; cbn [dedupe_from]; [auto|].
  destruct (existsb _ seen).
  - intros H. right. apply (IH _ _ H).
  - intros [<- | H]; [left; reflexivity | right; apply (IH _ _ H)].
Qed.

(** ** Normalizing several campuses *)

Lemma norm_campus_join merit_data sep names :
  In sep separators -> Forall (fun n => plain n = true) names ->
  norm_campus merit_data (join sep names)
  = join ", " (dedupe_ci (List.map (norm_campus_part merit_data) names)).
Proof.
  intros Hsep Hall. destruct names as [|n names]; [reflexivity|].
  inversion Hall as [|? ? Hn _]; subst.
  unfold norm_campus.
  rewrite (join_nonempty sep n names (proj1 (plain_spec n Hn))). cbn [negb].
  rewrite (re_split_join sep (n :: names) Hsep) by (discriminate || exact Hall).
  rewrite (map_strip_plain _ Hall). reflexivity.
Qed.

Lemma map_fixed {A} (f : A -> A) (l : list A) :
  Forall (fun x => f x = x) l -> List.map f l = l.
Proof. induction 1 as [|x l Hx _ IH]; [reflexivity|]. cbn. rewrite Hx, IH. reflexivity. Qed.

(** The canonical names of the campus alias table are campus names that
    normalization leaves alone. *)
Lemma campus_alias_values_stable :
  forallb (fun kv => plain (snd kv)
                     && match dict_get campus_aliases (lower (snd kv)) with
                        | Some v => String.eqb v (snd kv)
                        | None => false
                        end) campus_aliases = true.
Proof. vm_compute. reflexivity. Qed.

Lemma campus_alias_stable merit_data n v :
  dict_get campus_aliases (lower n) = Some v ->
  norm_campus_part merit_data n = v
  /\ plain v = true /\ norm_campus_part merit_data v = v.
Proof.
  intros H. split; [unfold norm_campus_part; rewrite H; reflexivity|].
  apply dict_get_In in H.
  pose proof (proj1 (forallb_forall _ _) campus_alias_values_stable _ H) as Hv.
  cbn [snd] in Hv. apply andb_true_iff in Hv. destruct Hv as [Hp Hd].
  split; [exact Hp|]. unfold norm_campus_part.
  destruct (dict_get campus_aliases (lower v)); [|discriminate Hd].
  apply String.eqb_eq in Hd. exact Hd.
Qed.

(** A normalized name that is a campus name again and that normalization
    leaves alone. *)
Lemma norm_campus_twice merit_data sep names :
  In sep separators -> Forall (fun n => plain n = true) names ->
  Forall (fun n => plain (norm_campus_part merit_data n) = true
                   /\ norm_campus_part merit_data (norm_campus_part merit_data n)
                      = norm_campus_part merit_data n) names ->
  norm_campus merit_data (norm_campus merit_data (join sep names))
  = norm_campus merit_data (join sep names).
Proof.
  intros Hsep Hall Hst. rewrite (norm_campus_join merit_data sep names Hsep Hall).
  set (out := dedupe_ci (List.map (norm_campus_part merit_data) names)).
  assert (Hout : forall x, In x out ->
            plain x = true /\ norm_campus_part merit_data x = x).
  { intros x Hx. apply dedupe_from_In in Hx. apply List.in_map_iff in Hx.
    destruct Hx as (n & <- & Hn).
    apply (proj1 (List.Forall_forall _ _) Hst n Hn). }
  rewrite (norm_campus_join merit_data ", " out).
  - rewrite map_fixed by (apply List.Forall_forall; intros x Hx; apply (Hout x Hx)).
    unfold out, dedupe_ci. rewrite dedupe_from_idempotent. reflexivity.
  - right. left. reflexivity.
  - apply List.Forall_forall. intros x Hx. apply (Hout x Hx).
Qed.

(** Names known to the alias table, in short or full form and any letter
    case, and names passed through unchanged: normalizing their list twice
    is normalizing it once. *)
Lemma alias_and_unknown_names_idempotent merit_data sep names :
  In sep separators -> Forall (fun n => plain n = true) names ->
  Forall (fun n => dict_get campus_aliases (lower n) <> None
                   \/ norm_campus_part merit_data n = n) names ->
  norm_campus merit_data (norm_campus merit_data (join sep names))
  = norm_campus merit_data (join sep names).
Proof.
  intros Hsep Hall Hk. apply norm_campus_twice; [exact Hsep | exact Hall|].
  apply List.Forall_forall. intros n Hn.
  pose proof (proj1 (List.Forall_forall _ _) Hall n Hn) as Hp.
  destruct (proj1 (List.Forall_forall _ _) Hk n Hn) as [Ha | Hu].
  - destruct (dict_get campus_aliases (lower n)) as [v|] eqn:E; [|congruence].
    destruct (campus_alias_stable merit_data n v E) as (-> & Hv & Hs). auto.
  - rewrite !Hu. auto.
Qed.

(** ** The fuzzy step, field by field *)


Lemma filter_filter {A} (p q : A -> bool) (l : list A) :
  List.filter p (List.filter q l) = List.filter (fun x => q x && p x) l.
Proof.
  induction l as [|x l IH]; [reflexivity|]. cbn [List.filter].
  destruct (q x); cbn [List.filter andb]; [destruct (p x)|]; rewrite IH; reflexivity.
Qed.

Lemma filter_true {A} (l : list A) : List.filter (fun _ => true) l = l.
Proof. induction l as [|x l IH]; [reflexivity|]. cbn [List.filter]. rewrite IH. reflexivity. Qed.

(** The loop that removes duplicates returns the names first seen, less
    the names seen before the loop. *)
Lemma dedupe_from_first_seen : forall l seen,
  dedupe_from seen l
  = List.filter (fun y => negb (existsb (String.eqb (lower y)) seen)) (first_seen l).
Proof.
  induction l as [|c l IH]; intros seen; [reflexivity|].
  cbn [dedupe_from first_seen List.filter].
  destruct (existsb (String.eqb (lower c)) seen) eqn:E; cbn [negb].
  - rewrite IH, filter_filter. apply List.filter_ext. intros y.
    destruct (String.eqb (lower y) (lower c)) eqn:Ey; [|reflexivity].
    apply String.eqb_eq in Ey. rewrite Ey, E. reflexivity.
  - f_equal. rewrite IH, filter_filter. apply List.filter_ext. intros y.
    cbn [existsb]. destruct (String.eqb (lower y) (lower c)); reflexivity.
Qed.

Lemma dedupe_ci_first_seen l : dedupe_ci l = first_seen l.
Proof. unfold dedupe_ci. rewrite dedupe_from_first_seen. apply filter_true. Qed.





(** ** A campus name that holds the letters "and" *)

(** C8, the code at the failing input.  "Mandi Bahauddin" is a campus of
    the vocabulary.  The misspelt "Mndi Bahauddin, Lahore" is normalized
    to "Mandi Bahauddin, Lahore"; normalizing that result again cuts
    "Mandi Bahauddin" at the letters "and" inside "Mandi" and returns
    another text.  The test for several campuses made on the normalized
    text, which asks for "and" as a word, finds no separator in that
    name. *)
Theorem campus_name_is_cut_at_letters_and :
  let once := norm_campus table_mandi "Mndi Bahauddin, Lahore" in
  In "Mandi Bahauddin" (CAMPS table_mandi)
  /\ once = "Mandi Bahauddin, Lahore"
  /\ norm_campus table_mandi once = "M, Mandi Bahauddin, Lahore"
  /\ re_split campus_separator "Mandi Bahauddin" = ["M"; "i Bahauddin"]
  /\ re_found and_or_ampersand "Mandi Bahauddin" = false.
Proof. vm_compute. repeat split; try reflexivity. right. left. reflexivity. Qed.

(** ** Vocabulary strings *)

Lemma ratio_lower a a' b : lower a = lower a' -> ratio a b = ratio a' b.
Proof. intros H. unfold ratio. rewrite H. reflexivity. Qed.

(** When an entry scores at least the cutoff and strictly above every
    other entry, the fuzzy step returns it. *)
Lemma fuzzy_pick_strict_best txt vocab cutoff passthrough v :
  nonempty txt = true -> (0 < cutoff)%Q ->
  (forall x, In x vocab -> nonempty x = true) ->
  In v vocab -> (cutoff <= ratio txt v)%Q ->
  (forall o, In o vocab -> o <> v -> (ratio txt o < ratio txt v)%Q) ->
  por (fuzzy_pick txt vocab cutoff) (Some passthrough) = Some v.
Proof.
  intros Hn Hc Hv Hin Hcut Hbest.
  destruct (fuzzy_pick_outcome txt vocab cutoff passthrough Hn Hc Hv) as (r & -> & Hr).
  f_equal. destruct Hr as [(Hr & _ & Hmax) | (_ & Hlow)].
  - destruct (string_dec r v) as [E | E]; [exact E|].
    exfalso. apply (Qlt_not_le _ _ (Hbest r Hr E)). apply Hmax. exact Hin.
  - exfalso. apply (Qlt_not_le _ _ (Hlow v Hin)). exact Hcut.
Qed.

(** A single campus name is normalized as one part. *)
Lemma norm_campus_single merit_data n :
  plain n = true -> norm_campus merit_data n = norm_campus_part merit_data n.
Proof.
  intros Hn.
  pose proof (norm_campus_join merit_data "," [n]) as H.
  cbn [join List.map] in H. rewrite H; [reflexivity | left; reflexivity | repeat constructor; exact Hn].
Qed.

Lemma find_first_match {A} (f : A -> bool) (l : list A) (v : A) :
  In v l -> f v = true -> exists u, List.find f l = Some u /\ In u l /\ f u = true.
Proof.
  intros Hin Hf. destruct (List.find f l) as [u|] eqn:E.
  - exists u. apply List.find_some in E. intuition.
  - exfalso. pose proof (List.find_none f l E v Hin) as H. congruence.
Qed.

Lemma lower_nonempty_eq a b : lower a = lower b -> nonempty a = nonempty b.
Proof. destruct a, b; simpl; congruence. Qed.

(** C5, as amended.  A string of the university vocabulary, written in any
    letter case, is normalized to a vocabulary entry equal to it up to case,
    found by the exact case-insensitive match that precedes fuzzy matching;
    it is that very string when no other entry differs from it by case only.
    The same holds for a string of the department vocabulary whose lower-case
    form is not a key of the department alias table (an alias key is
    replaced by its alias value before the vocabulary is consulted).
    Program and campus have no exact step: a string of their vocabulary
    that is not an alias key (and, for a campus, is a single campus name) is
    returned when the fuzzy step scores it against itself at or above the
    cutoff and strictly above every other entry. *)
Theorem vocabulary_string_exact_match
        (merit_data : list record) (v txt : string) :
  lower txt = lower v ->
  (In v (UNIS merit_data) ->
   exists u, norm_uni merit_data txt = Some u
             /\ In u (UNIS merit_data) /\ lower u = lower v
             /\ ((forall u', In u' (UNIS merit_data) -> lower u' = lower v -> u' = v) -> u = v))
  /\ (In v (DEPTS merit_data) ->
      dict_get dept_aliases (lower v) = None ->
      exists d, norm_dept merit_data txt = Some d
                /\ In d (DEPTS merit_data) /\ lower d = lower v
                /\ ((forall d', In d' (DEPTS merit_data) -> lower d' = lower v -> d' = v) -> d = v))
  /\ (In v (PROGS merit_data) ->
      dict_get prog_aliases
        (remove_char " " (remove_char "_" (remove_char "-" (lower v)))) = None ->
      (90 # 100 <= ratio v v)%Q ->
      (forall o, In o (PROGS merit_data) -> o <> v -> (ratio v o < ratio v v)%Q) ->
      norm_prog merit_data txt = Some v)
  /\ (In v (CAMPS merit_data) ->
      plain txt = true ->
      dict_get campus_aliases (lower v) = None ->
      (80 # 100 <= ratio v v)%Q ->
      (forall o, In o (CAMPS merit_data) -> o <> v -> (ratio v o < ratio v v)%Q) ->
      norm_campus merit_data txt = v).
Proof.
  intros Hl.
  assert (Hkey : forall vocab, (forall x, In x vocab -> nonempty x = true /\ strip x = x) ->
            In v vocab -> nonempty txt = true /\ lower (strip txt) = lower v).
  { intros vocab Hv Hin. destruct (Hv v Hin) as [Hn Hs]. split.
    - rewrite (lower_nonempty_eq txt v Hl). exact Hn.
    - rewrite <- strip_lower, Hl, strip_lower, Hs. reflexivity. }
  split; [|split; [|split]].
  - intros Hin. destruct (Hkey _ (UNIS_entry merit_data) Hin) as [Hn Hs].
    unfold norm_uni. rewrite Hn, Hs. cbn [negb].
    destruct (find_first_match (fun u => String.eqb (lower u) (lower v))
                (UNIS merit_data) v Hin (String.eqb_refl _)) as (u & -> & Hu & He).
    apply String.eqb_eq in He. exists u. auto.
  - intros Hin Hal. destruct (Hkey _ (DEPTS_entry merit_data) Hin) as [Hn Hs].
    unfold norm_dept. rewrite Hn, Hs, Hal. cbn [negb].
    destruct (find_first_match (fun d => String.eqb (lower d) (lower v))
                (DEPTS merit_data) v Hin (String.eqb_refl _)) as (d & -> & Hd & He).
    apply String.eqb_eq in He. exists d. auto.
  - intros Hin Hal Hcut Hbest. destruct (Hkey _ (PROGS_entry merit_data) Hin) as [Hn Hs].
    unfold norm_prog. rewrite Hn, Hs, Hal. cbn [negb].
    apply fuzzy_pick_strict_best;
      [exact Hn | reflexivity | intros x Hx; apply (PROGS_entry merit_data x Hx) | exact Hin | |].
    + rewrite (ratio_lower txt v v Hl). exact Hcut.
    + intros o Ho Hne. rewrite !(ratio_lower txt v _ Hl). apply Hbest; assumption.
  - intros Hin Hp Hal Hcut Hbest.
    rewrite (norm_campus_single merit_data txt Hp).
    unfold norm_campus_part. rewrite Hl, Hal.
    rewrite (fuzzy_pick_strict_best txt (CAMPS merit_data) cutoff_campus txt v);
      [reflexivity | | reflexivity | intros x Hx; apply (CAMPS_entry merit_data x Hx)
       | exact Hin | |].
    + apply nonempty_true. apply (plain_spec txt Hp).
    + rewrite (ratio_lower txt v v Hl). exact Hcut.
    + intros o Ho Hne. rewrite !(ratio_lower txt v _ Hl). apply Hbest; assumption.
Qed.

Lemma vocabulary_string_exact_match_witness :
  lower "STATISTICS" = lower "Statistics"
  /\ In "Statistics" (DEPTS table_math)
  /\ dict_get dept_aliases (lower "Statistics") = None
  /\ exists d, norm_dept table_math "STATISTICS" = Some d /\ lower d = lower "Statistics".
Proof.
  assert (H1 : lower "STATISTICS" = lower "Statistics") by reflexivity.
  assert (H2 : In "Statistics" (DEPTS table_math)) by (vm_compute; auto).
  assert (H3 : dict_get dept_aliases (lower "Statistics") = None) by reflexivity.
  split; [exact H1|]. split; [exact H2|]. split; [exact H3|].
  destruct (proj1 (proj2 (vocabulary_string_exact_match table_math "Statistics" "STATISTICS" H1))
              H2 H3)
    as (d & Hd & _ & Hl & _).
  exists d. split; [exact Hd | exact Hl].
Defined.

(** C5, the claim as stated fails: "Math" is a string of the department
    vocabulary and is normalized to the alias value "Mathematics". *)
Lemma vocabulary_string_replaced_by_alias :
  In "Math" (DEPTS table_math)
  /\ norm_dept table_math "Math" = Some "Mathematics".
Proof. split; [vm_compute; auto | vm_compute; reflexivity]. Qed.

(** ** The work list of [get_matching_blocks] empties

    Every block found lies inside its window, so the windows pushed are
    smaller than the window popped and the rounds allowed to [blocks_loop]
    are never used up. *)

Lemma scan_row_inside alo i blo bhi j2len : forall js newj2len bst newj2len' bst',
  (alo <= i)%nat ->
  runs_bounded blo (i - alo) j2len ->
  runs_bounded blo (i + 1 - alo) newj2len ->
  block_inside alo (i + 1) blo bhi bst ->
  difflib.scan_row i blo bhi j2len js newj2len bst = (newj2len', bst') ->
  runs_bounded blo (i + 1 - alo) newj2len' /\ block_inside alo (i + 1) blo bhi bst'.
Proof.
  induction js as [|j js IH]; intros newj2len bst newj2len' bst' Hi Hold Hnew Hb; simpl.
  - intros [= <- <-]. auto.
  - destruct (j <? blo)%nat eqn:E1; [apply IH; assumption|].
    destruct (bhi <=? j)%nat eqn:E2; [intros [= <- <-]; auto|].
    apply Nat.ltb_ge in E1. apply Nat.leb_gt in E2.
    set (k := S (match j with O => 0%nat | S j1 => difflib.j2len_get j2len j1 end)).
    assert (Hk : (k <= i + 1 - alo /\ k <= j + 1 - blo)%nat).
    { unfold k. destruct j as [|j1]; [lia|].
      destruct (Hold j1) as [H1 H2]. lia. }
    apply IH; [exact Hi | exact Hold | |].
    + intros j'. simpl. destruct (j =? j')%nat eqn:Ej.
      * apply Nat.eqb_eq in Ej. subst j'. exact Hk.
      * apply Hnew.
    + destruct (difflib.bestsize bst <? k)%nat; [|exact Hb].
      unfold block_inside. simpl. lia.
Qed.

Lemma scan_rows_inside a b alo blo bhi : forall len start j2len bst,
  (alo <= start)%nat -> (blo <= bhi)%nat ->
  runs_bounded blo (start - alo) j2len ->
  block_inside alo start blo bhi bst ->
  block_inside alo (start + len) blo bhi
    (difflib.scan_rows a b blo bhi (seq start len) j2len bst).
Proof.
  induction len as [|len IH]; intros start j2len bst Hs Hb Hj Hbst; simpl.
  - rewrite Nat.add_0_r. exact Hbst.
  - destruct (difflib.scan_row start blo bhi j2len (difflib.b2j b (difflib.at_ a start)) [] bst)
      as [newj2len bst'] eqn:E.
    apply (scan_row_inside alo) in E; [|exact Hs | exact Hj | |].
    + destruct E as [Hj' Hb'].
      replace (start + S len)%nat with (S start + len)%nat by lia.
      apply IH; [lia | exact Hb | |].
      * replace (S start - alo)%nat with (start + 1 - alo)%nat by lia. exact Hj'.
      * replace (S start) with (start + 1)%nat by lia. exact Hb'.
    + intros j. simpl. lia.
    + unfold block_inside in *. lia.
Qed.

Lemma extend_left_inside a b alo e blo bhi : forall fuel bst,
  block_inside alo e blo bhi bst ->
  block_inside alo e blo bhi (difflib.extend_left fuel a b alo blo bst).
Proof.
  induction fuel as [|fuel IH]; intros bst Hb; simpl; [exact Hb|].
  destruct ((alo <? difflib.besti bst)%nat && (blo <? difflib.bestj bst)%nat && _) eqn:E;
    [|exact Hb].
  apply andb_true_iff in E. destruct E as [E _].
  apply andb_true_iff in E. destruct E as [E1 E2].
  apply Nat.ltb_lt in E1, E2.
  apply IH. unfold block_inside in *. simpl. lia.
Qed.

Lemma extend_right_inside a b alo ahi blo bhi : forall fuel bst,
  block_inside alo ahi blo bhi bst ->
  block_inside alo ahi blo bhi (difflib.extend_right fuel a b ahi bhi bst).
Proof.
  induction fuel as [|fuel IH]; intros bst Hb; simpl; [exact Hb|].
  destruct ((difflib.besti bst + difflib.bestsize bst <? ahi)%nat
            && (difflib.bestj bst + difflib.bestsize bst <? bhi)%nat && _) eqn:E;
    [|exact Hb].
  apply andb_true_iff in E. destruct E as [E _].
  apply andb_true_iff in E. destruct E as [E1 E2].
  apply Nat.ltb_lt in E1, E2.
  apply IH. unfold block_inside in *. simpl. lia.
Qed.

Lemma find_longest_match_inside a b alo ahi blo bhi :
  (alo <= ahi)%nat -> (blo <= bhi)%nat ->
  block_inside alo ahi blo bhi (difflib.find_longest_match a b alo ahi blo bhi).
Proof.
  intros Ha Hb. unfold difflib.find_longest_match.
  apply extend_right_inside, extend_left_inside.
  replace ahi with (alo + (ahi - alo))%nat at 1 by lia.
  apply scan_rows_inside; [lia | exact Hb | |].
  - intros j. simpl. lia.
  - unfold block_inside. simpl. lia.
Qed.

Lemma rounds_app q1 q2 : rounds (q1 ++ q2) = (rounds q1 + rounds q2)%nat.
Proof.
  induction q1 as [|[[[alo ahi] blo] bhi] q1 IH]; [reflexivity|].
  cbn [rounds app]. rewrite IH. lia.
Qed.

Lemma windows_ok_app q1 q2 : windows_ok (q1 ++ q2) <-> windows_ok q1 /\ windows_ok q2.
Proof. apply List.Forall_app. Qed.

Lemma blocks_loop_rounds a b : forall fuel queue acc n,
  windows_ok queue -> (rounds queue <= fuel)%nat ->
  difflib.blocks_loop (fuel + n) a b queue acc = difflib.blocks_loop fuel a b queue acc.
Proof.
  induction fuel as [|fuel IH]; intros queue acc n Hok Hr.
  - destruct queue as [|[[[alo ahi] blo] bhi] queue]; [|cbn [rounds] in Hr; lia].
    destruct n; reflexivity.
  - change (S fuel + n)%nat with (S (fuel + n)). cbn [difflib.blocks_loop].
    destruct (rev queue) as [|[[[alo ahi] blo] bhi] rest] eqn:Eq; [reflexivity|].
    assert (Hq : queue = (rev rest ++ [(alo, ahi, blo, bhi)])%list).
    { rewrite <- (rev_involutive queue), Eq. reflexivity. }
    subst queue. apply windows_ok_app in Hok. destruct Hok as [Hok1 Hok2].
    apply List.Forall_inv in Hok2. cbn beta iota in Hok2. destruct Hok2 as [Ha Hb].
    rewrite rounds_app in Hr. cbn [rounds] in Hr.
    pose proof (find_longest_match_inside a b alo ahi blo bhi Ha Hb) as Hin.
    destruct (difflib.find_longest_match a b alo ahi blo bhi) as [i j k].
    unfold block_inside in Hin. cbn [difflib.besti difflib.bestj difflib.bestsize] in *.
    destruct k as [|k]; [apply IH; [exact Hok1 | lia]|].
    apply IH.
    + destruct ((alo <? i)%nat && (blo <? j)%nat),
        ((i + S k <? ahi)%nat && (j + S k <? bhi)%nat);
        repeat (apply windows_ok_app; split); try exact Hok1;
        repeat constructor; lia.
    + destruct ((alo <? i)%nat && (blo <? j)%nat),
        ((i + S k <? ahi)%nat && (j + S k <? bhi)%nat);
        rewrite ?rounds_app; cbn [rounds]; lia.
Qed.

(** More rounds than [get_matching_blocks] allows change nothing: the
    work list is empty when the loop stops. *)
Lemma get_matching_blocks_rounds a b n :
  difflib.blocks_loop (2 * length a + 1 + n) a b [(0, length a, 0, length b)]%nat []
  = difflib.get_matching_blocks a b.
Proof.
  unfold difflib.get_matching_blocks. apply blocks_loop_rounds.
  - repeat constructor; lia.
  - cbn [rounds]. lia.
Qed.

(** The loops that extend a block stop by their own tests. *)
Lemma extend_left_rounds a b alo blo : forall fuel bst n,
  (difflib.besti bst <= fuel)%nat ->
  difflib.extend_left (fuel + n) a b alo blo bst = difflib.extend_left fuel a b alo blo bst.
Proof.
  induction fuel as [|fuel IH]; intros bst n Hf.
  - destruct n; [reflexivity|]. cbn [Nat.add difflib.extend_left].
    replace (alo <? difflib.besti bst)%nat with false
      by (symmetry; apply Nat.ltb_ge; lia).
    reflexivity.
  - change (S fuel + n)%nat with (S (fuel + n)). cbn [difflib.extend_left].
    destruct (_ && _ && _); [|reflexivity].
    apply IH. cbn [difflib.besti]. lia.
Qed.

Lemma extend_right_rounds a b ahi bhi : forall fuel bst n,
  (ahi - (difflib.besti bst + difflib.bestsize bst) <= fuel)%nat ->
  difflib.extend_right (fuel + n) a b ahi bhi bst = difflib.extend_right fuel a b ahi bhi bst.
Proof.
  induction fuel as [|fuel IH]; intros bst n Hf.
  - destruct n; [reflexivity|]. cbn [Nat.add difflib.extend_right].
    replace (difflib.besti bst + difflib.bestsize bst <? ahi)%nat with false
      by (symmetry; apply Nat.ltb_ge; lia).
    reflexivity.
  - change (S fuel + n)%nat with (S (fuel + n)). cbn [difflib.extend_right].
    destruct ((difflib.besti bst + difflib.bestsize bst <? ahi)%nat && _ && _) eqn:E;
      [|reflexivity].
    apply andb_true_iff in E. destruct E as [E _].
    apply andb_true_iff in E. destruct E as [E _]. apply Nat.ltb_lt in E.
    apply IH. cbn [difflib.besti difflib.bestsize]. lia.
Qed.

(** ** A hint value that is not a string *)

(** The values of the hint are normalized outside the [try] block that
    guards the call to the language model: a number given as university
    ends the request with an exception. *)
Example number_as_university_raises :
  fst (chat table_fast 2026 "s" "Physics at FAST"
         (Some {| h_university := JInt 5; h_campus := JAbsent; h_department := JNull;
                  h_program := JAbsent; h_year := JAbsent |}) empty_world)
  = Raise AttributeError.
Proof. vm_compute. reflexivity. Qed.

(** ** The fuzzy pick in detail *)

(** The loop keeps the first option that reaches the highest ratio. *)
Lemma fuzzy_scan_first candidate : forall options best best_r b r,
  fuzzy_scan candidate options best best_r = (b, r) ->
  (b = best /\ r = best_r /\ forall o, In o options -> (ratio candidate o <= best_r)%Q)
  \/ exists before o after,
       options = (before ++ o :: after)%list /\ b = Some o /\ r = ratio candidate o
       /\ (best_r < r)%Q
       /\ (forall x, In x before -> (ratio candidate x < r)%Q)
       /\ (forall x, In x after -> (ratio candidate x <= r)%Q).
Proof.
  induction options as [|o options IH]; intros best best_r b r; simpl.
  - intros [= <- <-]. left. repeat split. intros o [].
  - destruct (Qle_bool (ratio candidate o) best_r) eqn:E; cbn [negb]; intros H.
    + apply Qle_bool_iff in E. apply IH in H.
      destruct H as [(-> & -> & Hall) | (before & o' & after & -> & -> & -> & Hlt & Hb & Ha)].
      * left. repeat split. intros x [<- | Hx]; [exact E | apply Hall; exact Hx].
      * right. exists (o :: before), o', after. repeat split; auto.
        intros x [<- | Hx]; [eapply Qle_lt_trans; eassumption | apply Hb; exact Hx].
    + apply Qle_bool_false in E. apply IH in H. right.
      destruct H as [(-> & -> & Hall) | (before & o' & after & -> & -> & -> & Hlt & Hb & Ha)].
      * exists [], o, options. repeat split; auto. intros x [].
      * exists (o :: before), o', after. repeat split; auto.
        -- eapply Qlt_trans; eassumption.
        -- intros x [<- | Hx]; [exact Hlt | apply Hb; exact Hx].
Qed.

Lemma fuzzy_pick_In candidate options cutoff o :
  fuzzy_pick candidate options cutoff = Some o -> In o options.
Proof.
  unfold fuzzy_pick. destruct (negb (nonempty candidate) || _); [discriminate|].
  destruct (fuzzy_scan candidate options None 0) as [b r] eqn:E.
  destruct (Qle_bool cutoff r); [|discriminate]. intros ->.
  apply fuzzy_scan_first in E.
  destruct E as [(E & _) | (before & o' & after & -> & [= <-] & _)]; [discriminate|].
  apply List.in_or_app. right. left. reflexivity.
Qed.

(** X1.  [fuzzy_pick] answers [None] for an empty candidate and for an
    empty list of options.  An option it returns is the first one in the
    list that reaches the highest ratio of the list: every option before it
    scores strictly less, every option after it scores at most as much, and
    its ratio is positive and meets the cutoff. *)
Theorem fuzzy_pick_first_of_the_best (candidate : string) (options : list string) (cutoff : Q) :
  fuzzy_pick EmptyString options cutoff = None
  /\ fuzzy_pick candidate [] cutoff = None
  /\ forall o, fuzzy_pick candidate options cutoff = Some o ->
       exists before after,
         options = (before ++ o :: after)%list
         /\ (cutoff <= ratio candidate o)%Q /\ (0 < ratio candidate o)%Q
         /\ (forall x, In x before -> (ratio candidate x < ratio candidate o)%Q)
         /\ (forall x, In x after -> (ratio candidate x <= ratio candidate o)%Q).
Proof.
  split; [reflexivity|]. split; [unfold fuzzy_pick; destruct (nonempty candidate); reflexivity|].
  intros o. unfold fuzzy_pick.
  destruct (negb (nonempty candidate) || _); [discriminate|].
  destruct (fuzzy_scan candidate options None 0) as [b r] eqn:E.
  destruct (Qle_bool cutoff r) eqn:Ec; [|discriminate]. intros ->.
  apply Qle_bool_iff in Ec. apply fuzzy_scan_first in E.
  destruct E as [(E & _) | (before & o' & after & -> & [= <-] & -> & Hlt & Hb & Ha)];
    [discriminate|].
  exists before, after. auto.
Qed.

(** X2.  Raising the cutoff can only take fuzzy matches away: an option
    accepted at a cutoff is the option accepted at every lower cutoff. *)
Theorem fuzzy_pick_cutoff_monotone
        (candidate : string) (options : list string) (low high : Q) (o : string) :
  (low <= high)%Q ->
  fuzzy_pick candidate options high = Some o ->
  fuzzy_pick candidate options low = Some o.
Proof.
  intros Hle. unfold fuzzy_pick.
  destruct (negb (nonempty candidate) || _); [discriminate|].
  destruct (fuzzy_scan candidate options None 0) as [b r].
  destruct (Qle_bool high r) eqn:Eh; [|discriminate].
  apply Qle_bool_iff in Eh. intros ->.
  replace (Qle_bool low r) with true; [reflexivity|].
  symmetry. apply Qle_bool_iff. eapply Qle_trans; eassumption.
Qed.

Lemma fuzzy_pick_cutoff_monotone_witness :
  (cutoff_uni <= cutoff_default)%Q
  /\ fuzzy_pick "fst" (UNIS table_fast) cutoff_default = Some "FAST"
  /\ fuzzy_pick "fst" (UNIS table_fast) cutoff_uni = Some "FAST".
Proof.
  assert (H1 : (cutoff_uni <= cutoff_default)%Q) by (vm_compute; discriminate).
  assert (H2 : fuzzy_pick "fst" (UNIS table_fast) cutoff_default = Some "FAST")
    by (vm_compute; reflexivity).
  split; [exact H1|]. split; [exact H2|].
  exact (fuzzy_pick_cutoff_monotone "fst" (UNIS table_fast) _ _ "FAST" H1 H2).
Defined.

Lemma fuzzy_pick_first_of_the_best_witness :
  fuzzy_pick "Statistic" (DEPTS table_math) cutoff_dept = Some "Statistics"
  /\ (cutoff_dept <= ratio "Statistic" "Statistics")%Q.
Proof.
  assert (H : fuzzy_pick "Statistic" (DEPTS table_math) cutoff_dept = Some "Statistics")
    by (vm_compute; reflexivity).
  split; [exact H|].
  destruct (proj2 (proj2 (fuzzy_pick_first_of_the_best "Statistic" (DEPTS table_math)
                            cutoff_dept)) "Statistics" H) as (before & after & _ & Hc & _).
  exact Hc.
Defined.

(** ** Normalizers on empty and on visible input *)

Lemma por_some a x : exists r, por a (Some x) = Some r.
Proof.
  unfold por. destruct (truthy a) eqn:E; [|eauto].
  destruct a as [s|]; [eauto | discriminate E].
Qed.

Lemma por_truthy a x : nonempty x = true -> truthy (por a (Some x)) = true.
Proof. intros Hx. unfold por. destruct (truthy a) eqn:E; [exact E | exact Hx]. Qed.

Lemma dept_alias_values_clean :
  forallb (fun kv => clean (snd kv)) dept_aliases = true.
Proof. vm_compute. reflexivity. Qed.

Lemma dept_alias_value key v :
  In (key, v) dept_aliases -> nonempty v = true /\ strip v = v.
Proof.
  intros H. apply clean_spec.
  exact (proj1 (forallb_forall _ _) dept_alias_values_clean (key, v) H).
Qed.

Lemma norm_campus_part_nonempty merit_data p :
  nonempty p = true -> nonempty (norm_campus_part merit_data p) = true.
Proof.
  intros Hp. unfold norm_campus_part.
  destruct (dict_get campus_aliases (lower p)) as [v|] eqn:Ev.
  - destruct (campus_alias_stable merit_data p v Ev) as (_ & Hv & _).
    apply nonempty_true, (plain_spec v Hv).
  - pose proof (por_truthy (fuzzy_pick p (CAMPS merit_data) cutoff_campus) p Hp) as H.
    destruct (por (fuzzy_pick p (CAMPS merit_data) cutoff_campus) (Some p)) as [r|];
      [exact H | discriminate H].
Qed.

Lemma filter_none {A} (f : A -> bool) (l : list A) :
  List.filter f l = [] <-> forall x, In x l -> f x = false.
Proof.
  induction l as [|a l IH]; cbn [List.filter].
  - split; [intros _ x [] | reflexivity].
  - destruct (f a) eqn:E; split.
    + discriminate.
    + intros H. rewrite (H a (or_introl eq_refl)) in E. discriminate E.
    + intros H x [<- | Hx]; [exact E | apply (proj1 IH H x Hx)].
    + intros H. apply IH. intros x Hx. apply H. right. exact Hx.
Qed.

(** X3.  The normalizers of university, department and program answer
    [None] for the empty string and for nothing else, and never an empty
    value for an input with a visible character.  The campus normalizer
    answers the empty string exactly when every piece of its input between
    separators is blank: for the empty string, and also for inputs with
    visible characters such as "," and "and". *)
Theorem normalizers_empty_and_visible (merit_data : list record) (txt : string) :
  (norm_uni merit_data txt = None <-> txt = EmptyString)
  /\ (norm_dept merit_data txt = None <-> txt = EmptyString)
  /\ (norm_prog merit_data txt = None <-> txt = EmptyString)
  /\ (nonempty (strip txt) = true ->
      truthy (norm_uni merit_data txt) = true
      /\ truthy (norm_dept merit_data txt) = true
      /\ truthy (norm_prog merit_data txt) = true)
  /\ (norm_campus merit_data txt = EmptyString <->
      forall p, In p (re_split campus_separator txt) -> strip p = EmptyString)
  /\ norm_campus merit_data EmptyString = EmptyString
  /\ norm_campus merit_data "," = EmptyString
  /\ norm_campus merit_data "and" = EmptyString
  /\ norm_campus merit_data " & " = EmptyString.
Proof.
  split; [|split; [|split; [|split; [|split]]]].
  - unfold norm_uni. destruct txt as [|c txt]; [split; reflexivity|]. cbn [nonempty negb].
    split; [|discriminate]. destruct (List.find _ _); [discriminate|].
    destruct (por_some (fuzzy_pick (String c txt) (UNIS merit_data) cutoff_uni)
                (strip (String c txt))) as [r ->]. discriminate.
  - unfold norm_dept. destruct txt as [|c txt]; [split; reflexivity|]. cbn [nonempty negb].
    split; [|discriminate]. destruct (dict_get _ _); [discriminate|].
    destruct (List.find _ _); [discriminate|].
    destruct (por_some (fuzzy_pick (String c txt) (DEPTS merit_data) cutoff_dept)
                (strip (String c txt))) as [r ->]. discriminate.
  - unfold norm_prog. destruct txt as [|c txt]; [split; reflexivity|]. cbn [nonempty negb].
    split; [|discriminate]. destruct (dict_get _ _); [discriminate|].
    destruct (por_some (fuzzy_pick (String c txt) (PROGS merit_data) cutoff_prog)
                (strip (String c txt))) as [r ->]. discriminate.
  - intros Hs. pose proof (nonempty_strip txt Hs) as Hn. split; [|split].
    + unfold norm_uni. rewrite Hn. cbn [negb].
      destruct (List.find _ (UNIS merit_data)) as [u|] eqn:E.
      * apply List.find_some in E. apply (UNIS_entry merit_data u), E.
      * apply por_truthy. exact Hs.
    + unfold norm_dept. rewrite Hn. cbn [negb].
      destruct (dict_get dept_aliases _) as [v|] eqn:Ev.
      * apply dict_get_In, dept_alias_value in Ev. apply Ev.
      * destruct (List.find _ (DEPTS merit_data)) as [d|] eqn:E.
        -- apply List.find_some in E. apply (DEPTS_entry merit_data d), E.
        -- apply por_truthy. exact Hs.
    + apply norm_prog_truthy. exact Hs.
  - unfold norm_campus. destruct (nonempty txt) eqn:Hn; cbn [negb].
    { assert (Hblank : (forall p, In p (re_split campus_separator txt) -> strip p = EmptyString)
                       <-> List.filter nonempty
                             (List.map strip (re_split campus_separator txt)) = []).
      { rewrite filter_none. split.
        - intros H x Hx. apply List.in_map_iff in Hx. destruct Hx as (p & <- & Hp).
          rewrite (H p Hp). reflexivity.
        - intros H p Hp.
          pose proof (H (strip p) (List.in_map strip _ p Hp)) as Hf.
          destruct (strip p); [reflexivity | discriminate Hf]. }
      rewrite Hblank.
      destruct (List.filter nonempty (List.map strip (re_split campus_separator txt)))
        as [|q parts] eqn:Ef.
      - split; reflexivity.
      - split; [|discriminate]. intros Hj. exfalso.
        assert (Hq : nonempty q = true).
        { assert (Hin : In q (List.filter nonempty
                                (List.map strip (re_split campus_separator txt))))
            by (rewrite Ef; left; reflexivity).
          apply List.filter_In in Hin. apply Hin. }
        rewrite dedupe_ci_first_seen in Hj. cbn [List.map first_seen] in Hj.
        pose proof (join_nonempty ", " (norm_campus_part merit_data q)
                      (List.filter
                         (fun y => negb (String.eqb (lower y)
                                           (lower (norm_campus_part merit_data q))))
                         (first_seen (List.map (norm_campus_part merit_data) parts)))
                      (proj1 (nonempty_true _) (norm_campus_part_nonempty merit_data q Hq)))
          as Hne.
        rewrite Hj in Hne. discriminate Hne. }
    destruct txt; [|discriminate Hn]. split; [|reflexivity].
    intros _ p Hp. vm_compute in Hp. destruct Hp as [<- | []]. reflexivity.
  - repeat split; reflexivity.
Qed.

Lemma normalizers_empty_and_visible_witness :
  nonempty (strip "  Fizzix ") = true
  /\ truthy (norm_dept table_fast "  Fizzix ") = true.
Proof.
  split; [reflexivity|].
  exact (proj1 (proj2 (proj1 (proj2 (proj2 (proj2
           (normalizers_empty_and_visible table_fast "  Fizzix ")))) eq_refl))).
Defined.

(** ** Names without duplicates *)

Lemma existsb_eqb_In x seen : existsb (String.eqb x) seen = true <-> In x seen.
Proof.
  rewrite existsb_exists. split.
  - intros (y & Hy & E). apply String.eqb_eq in E. subst y. exact Hy.
  - intros H. exists x. split; [exact H | apply String.eqb_refl].
Qed.

Lemma dedupe_from_nodup : forall l seen,
  List.NoDup (List.map lower (dedupe_from seen l))
  /\ forall x, In x (dedupe_from seen l) -> ~ In (lower x) seen.
Proof.
  induction l as [|c l IH]; intros seen; cbn [dedupe_from].
  - split; [apply List.NoDup_nil | intros x []].
  - destruct (existsb (String.eqb (lower c)) seen) eqn:E; [apply IH|].
    destruct (IH (lower c :: seen)) as [Hnd Hseen].
    assert (Hc : ~ In (lower c) seen).
    { intros H. apply existsb_eqb_In in H. congruence. }
    split.
    + cbn [List.map]. apply List.NoDup_cons; [|exact Hnd].
      intros H. apply List.in_map_iff in H. destruct H as (y & Hy & Hin).
      apply (Hseen y Hin). left. congruence.
    + intros x [<- | Hx]; [exact Hc|].
      intros H. apply (Hseen x Hx). right. exact H.
Qed.

(** Every name is represented, up to letter case, in the result or in
    the names already seen. *)
Lemma dedupe_from_covers : forall l seen x,
  In x l -> In (lower x) seen \/ exists y, In y (dedupe_from seen l) /\ lower y = lower x.
Proof.
  induction l as [|c l IH]; intros seen x; [intros []|]. cbn [dedupe_from].
  destruct (existsb (String.eqb (lower c)) seen) eqn:E.
  - intros [<- | Hx]; [left; apply existsb_eqb_In; exact E | apply IH; exact Hx].
  - intros [<- | Hx]; [right; exists c; split; [left|]; reflexivity|].
    destruct (IH (lower c :: seen) x Hx) as [[Hc | Hs] | (y & Hy & Hl)].
    + right. exists c. split; [left; reflexivity | exact Hc].
    + left. exact Hs.
    + right. exists y. split; [right; exact Hy | exact Hl].
Qed.

(** X4.  The campus normalizer returns names joined by ", " such that no
    two names are equal up to letter case, no name is empty, every name is
    a canonical name of the alias table, an entry of the campus vocabulary
    or a stripped piece of the input, and every non-blank piece of the
    input is represented by the name it is normalized to, up to case. *)
Theorem norm_campus_names (merit_data : list record) (txt : string) :
  exists names,
    norm_campus merit_data txt = join ", " names
    /\ List.NoDup (List.map lower names)
    /\ (forall x, In x names ->
          nonempty x = true
          /\ ((exists key, In (key, x) campus_aliases)
              \/ In x (CAMPS merit_data)
              \/ In x (List.map strip (re_split campus_separator txt))))
    /\ (txt <> EmptyString ->
        forall p, In p (List.map strip (re_split campus_separator txt)) ->
          nonempty p = true ->
          exists x, In x names /\ lower x = lower (norm_campus_part merit_data p)).
Proof.
  unfold norm_campus. destruct (nonempty txt) eqn:Hn; cbn [negb].
  2:{ exists []. split; [reflexivity|]. split; [apply List.NoDup_nil|].
      split; [intros x []|]. intros H. apply nonempty_true in H. congruence. }
  set (parts := List.filter nonempty (List.map strip (re_split campus_separator txt))).
  exists (dedupe_ci (List.map (norm_campus_part merit_data) parts)).
  split; [reflexivity|]. split; [apply dedupe_from_nodup|]. split.
  - intros x Hx. apply dedupe_from_In in Hx. apply List.in_map_iff in Hx.
    destruct Hx as (p & <- & Hp). apply List.filter_In in Hp. destruct Hp as [Hp Hpn].
    unfold norm_campus_part.
    destruct (dict_get campus_aliases (lower p)) as [v|] eqn:Ev.
    + destruct (campus_alias_stable merit_data p v Ev) as (_ & Hv & _).
      split; [apply nonempty_true; apply (plain_spec v Hv)|].
      left. exists (lower p). apply dict_get_In. exact Ev.
    + unfold por. destruct (truthy (fuzzy_pick p (CAMPS merit_data) cutoff_campus)) eqn:Ef.
      * destruct (fuzzy_pick p (CAMPS merit_data) cutoff_campus) as [o|] eqn:Eo;
          [|discriminate Ef].
        cbn [or_empty]. split; [exact Ef|]. right. left.
        apply fuzzy_pick_In in Eo. exact Eo.
      * cbn [or_empty]. split; [exact Hpn|]. right. right. exact Hp.
  - intros _ p Hp Hpn.
    assert (Hin : In (norm_campus_part merit_data p)
                     (List.map (norm_campus_part merit_data) parts)).
    { apply List.in_map. apply List.filter_In. auto. }
    destruct (dedupe_from_covers _ [] _ Hin) as [[] | (y & Hy & Hl)].
    exists y. auto.
Qed.

(** ** The campus filter *)

Lemma comma_head (c : ascii) (t : string) :
  contains "," (String c t) = Ascii.eqb "," c || contains "," t.
Proof.
  rewrite contains_cons. f_equal. cbn [String.prefix].
  destruct (ascii_dec "," c) as [<- | N].
  - rewrite prefix_empty. reflexivity.
  - symmetry. apply Ascii.eqb_neq. exact N.
Qed.

Lemma match_here_comma prev s :
  match_here comma_separator prev s =
  match s with
  | String c s' => if Ascii.eqb "," c then Some (lstrip s') else None
  | EmptyString => None
  end.
Proof.
  unfold match_here, comma_separator, lit. cbn [rmatch].
  destruct s as [|c s']; [reflexivity|].
  destruct (Ascii.eqb "," c); [apply star_space_rest | reflexivity].
Qed.

Lemma length_lstrip s : (String.length (lstrip s) <= String.length s)%nat.
Proof. induction s as [|c s IH]; simpl; [lia|]. destruct (isspace c); simpl; lia. Qed.

(** A text without a comma is one piece. *)
Lemma split_comma_free : forall s prev,
  contains "," s = false -> split_from comma_separator prev s 0 = (s, []).
Proof.
  induction s as [|c s IH]; intros prev H; [reflexivity|].
  rewrite comma_head in H. apply orb_false_iff in H. destruct H as [Hc Hs].
  cbn [split_from]. rewrite match_here_comma, Hc, (IH _ Hs). reflexivity.
Qed.

(** No piece of a text split at commas holds a comma. *)
Lemma split_from_pieces_comma_free : forall s prev skip,
  contains "," (fst (split_from comma_separator prev s skip)) = false
  /\ List.Forall (fun p => contains "," p = false)
       (snd (split_from comma_separator prev s skip)).
Proof.
  induction s as [|c s IH]; intros prev skip; cbn [split_from].
  - split; [reflexivity | constructor].
  - destruct skip as [|n]; [|apply IH].
    rewrite match_here_comma. destruct (Ascii.eqb "," c) eqn:E.
    + destruct (consumed (String c s) (lstrip s)) as [|n] eqn:Ec.
      * exfalso. unfold consumed in Ec. pose proof (length_lstrip s). simpl in Ec. lia.
      * destruct (IH (Some c) n) as [H1 H2].
        destruct (split_from comma_separator (Some c) s n) as [p ps]. cbn [fst snd] in *.
        split; [reflexivity | constructor; assumption].
    + destruct (IH (Some c) 0%nat) as [H1 H2].
      destruct (split_from comma_separator (Some c) s 0) as [p ps]. cbn [fst snd] in *.
      split; [|exact H2]. rewrite comma_head, E, H1. reflexivity.
Qed.

Lemma re_split_pieces_comma_free s p :
  In p (re_split comma_separator s) -> contains "," p = false.
Proof.
  unfold re_split. destruct (split_from_pieces_comma_free s None 0) as [H1 H2].
  destruct (split_from comma_separator None s 0) as [q qs]. cbn [fst snd] in *.
  intros [<- | H]; [exact H1|].
  exact (proj1 (List.Forall_forall _ _) H2 p H).
Qed.

Lemma re_split_comma_free s : contains "," s = false -> re_split comma_separator s = [s].
Proof. intros H. unfold re_split. rewrite (split_comma_free s None H). reflexivity. Qed.

Lemma prefix_refl p : String.prefix p p = true.
Proof.
  induction p as [|c p IH]; [reflexivity|]. cbn [String.prefix].
  destruct (ascii_dec c c); [exact IH | congruence].
Qed.

Lemma contains_refl p : contains p p = true.
Proof. destruct p; cbn [contains]; rewrite prefix_refl; reflexivity. Qed.

Lemma eqb_or_contains p c : String.eqb p c || contains p c = contains p c.
Proof.
  destruct (String.eqb_spec p c) as [-> | N]; [|reflexivity].
  rewrite contains_refl. reflexivity.
Qed.

(** The test of [campus_like], one name of the filter at a time. *)
Lemma campus_like_existsb c f :
  nonempty f = true ->
  campus_like c (Some f) =
  existsb (fun p => nonempty (strip p) && contains (lower (strip p)) (lower c))
          (re_split comma_separator f).
Proof.
  intros Hf. unfold campus_like. cbn [truthy or_empty]. rewrite Hf. cbn [negb].
  induction (re_split comma_separator f) as [|p ps IH]; [reflexivity|].
  cbn [List.filter existsb]. destruct (nonempty (strip p)).
  - cbn [List.map existsb]. rewrite eqb_or_contains, IH. reflexivity.
  - exact IH.
Qed.

(** X5.  [campus_like] lets every campus through when there is no filter
    ([None] or the empty string).  Otherwise the filter is cut at commas
    and a campus passes exactly when one of the names, trimmed and not
    blank, occurs inside the campus name, letter case ignored; for a
    filter without a comma this is one substring test, and a blank filter
    lets nothing through. *)
Theorem campus_like_is_substring_test (c f : string) :
  campus_like c None = true
  /\ campus_like c (Some EmptyString) = true
  /\ (nonempty f = true ->
      (campus_like c (Some f) = true <->
       exists p, In p (re_split comma_separator f) /\ contains "," p = false
                 /\ nonempty (strip p) = true
                 /\ contains (lower (strip p)) (lower c) = true)
      /\ (contains "," f = false ->
          campus_like c (Some f)
          = nonempty (strip f) && contains (lower (strip f)) (lower c))).
Proof.
  split; [reflexivity|]. split; [reflexivity|]. intros Hf. split.
  - rewrite (campus_like_existsb c f Hf), existsb_exists. split.
    + intros (p & Hp & H). apply andb_true_iff in H. destruct H as [H1 H2].
      exists p. split; [exact Hp|]. split; [|split; assumption].
      apply (re_split_pieces_comma_free f p Hp).
    + intros (p & Hp & _ & H1 & H2). exists p. split; [exact Hp|].
      rewrite H1, H2. reflexivity.
  - intros Hc. rewrite (campus_like_existsb c f Hf), (re_split_comma_free f Hc).
    cbn [existsb]. apply orb_false_r.
Qed.

Lemma campus_like_is_substring_test_witness :
  nonempty "lahore " = true /\ contains "," "lahore " = false
  /\ campus_like "Lahore Cantt" (Some "lahore ") = true.
Proof.
  split; [reflexivity|]. split; [reflexivity|].
  rewrite (proj2 (proj2 (proj2 (campus_like_is_substring_test "Lahore Cantt" "lahore "))
                    eq_refl) eq_refl).
  reflexivity.
Defined.

(** ** The umbrella department *)

(** X6.  [adjust_dept_for_uni] returns its department or "Computing"; it
    changes the department only when the department is one of Computer
    Science, Software Engineering and Cyber Security (in any letter case)
    and the university lists a department "computing" and none "computer
    science", both up to letter case.  Adjusting twice is adjusting once,
    and a non-empty department stays non-empty. *)
Theorem adjust_dept_for_uni_once (merit_data : list record) (uni dept : option string) :
  let adjusted := adjust_dept_for_uni merit_data uni dept in
  (adjusted <> dept ->
   adjusted = Some "Computing"
   /\ In (lower (or_empty dept)) ["computer science"; "software engineering"; "cyber security"]
   /\ (exists d, In d (departments_at_uni merit_data uni) /\ lower d = "computing")
   /\ ~ (exists d, In d (departments_at_uni merit_data uni) /\ lower d = "computer science"))
  /\ adjust_dept_for_uni merit_data uni adjusted = adjusted
  /\ (truthy dept = true -> truthy adjusted = true).
Proof.
  cbv zeta. unfold adjust_dept_for_uni.
  set (uni_deps := List.map lower (departments_at_uni merit_data uni)).
  destruct (truthy uni) eqn:Hu; cbn [negb orb];
    [|split; [congruence | split; [reflexivity | auto]]].
  destruct (truthy dept) eqn:Hd; cbn [negb];
    [|rewrite ?Hd; split; [congruence | split; [reflexivity | auto]]].
  destruct (existsb (String.eqb (lower (or_empty dept))) _) eqn:E1; cbn [andb];
    [|rewrite ?Hd, ?E1; split; [congruence | split; [reflexivity | auto]]].
  destruct (existsb (String.eqb "computer science") uni_deps) eqn:E2; cbn [negb andb];
    [rewrite ?Hd, ?E1; split; [congruence | split; [reflexivity | auto]]|].
  destruct (existsb (String.eqb "computing") uni_deps) eqn:E3;
    [|rewrite ?Hd, ?E1; split; [congruence | split; [reflexivity | auto]]].
  split; [|split; [reflexivity | reflexivity]].
  intros _. split; [reflexivity|]. split; [|split].
  - apply existsb_exists in E1. destruct E1 as (x & Hx & E). apply String.eqb_eq in E.
    rewrite E. exact Hx.
  - apply existsb_exists in E3. destruct E3 as (x & Hx & E). apply String.eqb_eq in E.
    subst x. apply List.in_map_iff in Hx. destruct Hx as (d & Hd' & Hin). eauto.
  - intros (d & Hin & Hl).
    assert (H : existsb (String.eqb "computer science") uni_deps = true); [|congruence].
    apply existsb_exists. exists (lower d). split; [apply List.in_map; exact Hin|].
    rewrite Hl. reflexivity.
Qed.

Lemma adjust_dept_for_uni_once_witness :
  adjust_dept_for_uni (table_fast ++ [row "FAST" "Lahore" "Computing" "BS" 2023])%list
    (Some "FAST") (Some "Software Engineering") = Some "Computing".
Proof.
  refine (proj1 (proj1 (adjust_dept_for_uni_once
            (table_fast ++ [row "FAST" "Lahore" "Computing" "BS" 2023])%list
            (Some "FAST") (Some "Software Engineering")) _)).
  vm_compute. discriminate.
Defined.

(** ** Sorted sets of strings *)

Lemma ascii_compare_refl a : Ascii.compare a a = Eq.
Proof. unfold Ascii.compare. apply N.compare_refl. Qed.

Lemma ascii_lt_trans a b c :
  Ascii.compare a b = Lt -> Ascii.compare b c = Lt -> Ascii.compare a c = Lt.
Proof.
  unfold Ascii.compare. rewrite !N.compare_lt_iff. apply N.lt_trans.
Qed.

Lemma string_lt_trans : forall x y z, string_lt x y -> string_lt y z -> string_lt x z.
Proof.
  unfold string_lt.
  induction x as [|a x IH]; intros [|b y] [|c z]; simpl; try congruence.
  destruct (Ascii.compare a b) eqn:Eab; try discriminate;
    destruct (Ascii.compare b c) eqn:Ebc; try discriminate.
  - apply Ascii.compare_eq_iff in Eab, Ebc. subst b c. rewrite ascii_compare_refl. apply IH.
  - apply Ascii.compare_eq_iff in Eab. subst b. rewrite Ebc. reflexivity.
  - apply Ascii.compare_eq_iff in Ebc. subst c. rewrite Eab. reflexivity.
  - rewrite (ascii_lt_trans a b c Eab Ebc). reflexivity.
Qed.

Lemma string_compare_refl s : String.compare s s = Eq.
Proof. induction s as [|a s IH]; simpl; [reflexivity|]. rewrite ascii_compare_refl. exact IH. Qed.

Lemma string_lt_irrefl s : ~ string_lt s s.
Proof. unfold string_lt. rewrite string_compare_refl. discriminate. Qed.

Lemma string_gt_lt x y : String.compare x y = Gt -> string_lt y x.
Proof.
  unfold string_lt. intros H. rewrite String.compare_antisym, H. reflexivity.
Qed.

Lemma insert_sorted_string x l :
  StronglySorted string_lt l -> StronglySorted string_lt (insert_sorted String.compare x l).
Proof.
  induction 1 as [|y l Hs IH Hy]; simpl.
  - repeat constructor.
  - rewrite List.Forall_forall in Hy.
    destruct (String.compare x y) eqn:E.
    + constructor; [assumption|]. apply List.Forall_forall. exact Hy.
    + constructor; [constructor; [assumption | apply List.Forall_forall; exact Hy]|].
      constructor; [exact E|].
      apply List.Forall_forall. intros z Hz.
      apply (string_lt_trans x y z E). apply Hy. exact Hz.
    + constructor; [exact IH|].
      apply List.Forall_forall. intros z Hz.
      apply (insert_sorted_In String.compare String.compare_eq_iff) in Hz.
      destruct Hz as [-> | Hz]; [apply string_gt_lt; exact E | apply Hy; exact Hz].
Qed.

Lemma sorted_set_string l : StronglySorted string_lt (sorted_set String.compare l).
Proof.
  induction l as [|x l IH]; simpl; [constructor|].
  apply insert_sorted_string. exact IH.
Qed.

Lemma sorted_strings_nodup l : StronglySorted string_lt l -> List.NoDup l.
Proof.
  induction 1 as [|y l Hs IH Hy]; constructor; [|exact IH].
  intros Hin. rewrite List.Forall_forall in Hy.
  exact (string_lt_irrefl y (Hy y Hin)).
Qed.

Lemma column_sorted col keep rows : StronglySorted string_lt (column col keep rows).
Proof. apply sorted_set_string. Qed.

Lemma merit_records_In merit_data r :
  In r (merit_records merit_data) <->
  exists r0, In r0 merit_data
    /\ r = {| University := strip (University r0); Campus := strip (Campus r0);
              Department := strip (Department r0); Program := strip (Program r0);
              Year := Year r0; MinimumMerit := MinimumMerit r0;
              MaximumMerit := MaximumMerit r0 |}.
Proof.
  unfold merit_records, grab_merit_data. rewrite List.in_map_iff.
  split.
  - intros (r0 & H1 & H2). exists r0. split; [exact H2 | symmetry; exact H1].
  - intros (r0 & H1 & ->). exists r0. split; [reflexivity | exact H1].
Qed.

Lemma vocabulary_column merit_data (col : record -> string) :
  (forall r0 r, In r0 merit_data ->
     r = {| University := strip (University r0); Campus := strip (Campus r0);
            Department := strip (Department r0); Program := strip (Program r0);
            Year := Year r0; MinimumMerit := MinimumMerit r0;
            MaximumMerit := MaximumMerit r0 |} -> col r = strip (col r0)) ->
  let vocab := column col (fun r => nonempty (col r)) (merit_records merit_data) in
  StronglySorted string_lt vocab /\ List.NoDup vocab
  /\ forall x, In x vocab <->
       x <> EmptyString /\ exists r0, In r0 merit_data /\ strip (col r0) = x.
Proof.
  intros Hcol vocab. split; [apply column_sorted|].
  split; [apply sorted_strings_nodup, column_sorted|].
  intros x. unfold vocab. rewrite column_In. split.
  - intros (r & Hr & Hn & <-). apply merit_records_In in Hr. destruct Hr as (r0 & H0 & E).
    split; [intros E'; rewrite E' in Hn; discriminate|].
    exists r0. split; [exact H0|]. symmetry. apply (Hcol r0 r H0 E).
  - intros (Hx & r0 & H0 & <-).
    set (r := {| University := strip (University r0); Campus := strip (Campus r0);
                 Department := strip (Department r0); Program := strip (Program r0);
                 Year := Year r0; MinimumMerit := MinimumMerit r0;
                 MaximumMerit := MaximumMerit r0 |}).
    exists r. assert (E : col r = strip (col r0)) by (apply (Hcol r0 r H0); reflexivity).
    split; [apply merit_records_In; exists r0; auto|].
    split; [|exact E]. rewrite E. destruct (strip (col r0)); [congruence | reflexivity].
Qed.

(** X7.  Each of the four vocabularies [UNIS], [DEPTS], [PROGS] and
    [CAMPS] is strictly increasing in the order of [sorted], so it has no
    duplicates, and it holds exactly the non-empty trimmed values of its
    column of the table. *)
Theorem vocabularies_are_sorted_sets (merit_data : list record) :
  List.Forall
    (fun vc : list string * (record -> string) =>
       StronglySorted string_lt (fst vc) /\ List.NoDup (fst vc)
       /\ forall x, In x (fst vc) <->
            x <> EmptyString /\ exists r0, In r0 merit_data /\ strip (snd vc r0) = x)
    [ (UNIS merit_data, University); (DEPTS merit_data, Department);
      (PROGS merit_data, Program); (CAMPS merit_data, Campus) ].
Proof.
  apply List.Forall_cons; [|apply List.Forall_cons; [|apply List.Forall_cons;
    [|apply List.Forall_cons; [|apply List.Forall_nil]]]]; cbn [fst snd].
  - apply (vocabulary_column merit_data University). intros r0 r _ ->. reflexivity.
  - apply (vocabulary_column merit_data Department). intros r0 r _ ->. reflexivity.
  - apply (vocabulary_column merit_data Program). intros r0 r _ ->. reflexivity.
  - apply (vocabulary_column merit_data Campus). intros r0 r _ ->. reflexivity.
Qed.

(** ** Years on record *)

Lemma min_by_In key : forall ys best, min_by key best ys = best \/ In (min_by key best ys) ys.
Proof.
  intros ys best. destruct (min_by_first_least key ys best) as ([H | [H _]] & _); auto.
Qed.

(** X8.  [closest_year] answers [None] exactly when the exact lookup
    finds no row in any year, under the same campus filter.  A year it
    returns has rows, and when the requested year has rows it is the year
    returned. *)
Theorem closest_year_has_rows
        (merit_data : list record) (uni dept prog : option string) (yr : Z)
        (camp : option string) :
  (closest_year merit_data uni dept prog yr camp = None <->
   forall y, lookup_rows merit_data uni camp dept prog y = [])
  /\ (forall cy, closest_year merit_data uni dept prog yr camp = Some cy ->
        lookup_rows merit_data uni camp dept prog cy <> [])
  /\ (lookup_rows merit_data uni camp dept prog yr <> [] ->
      closest_year merit_data uni dept prog yr camp = Some yr).
Proof.
  pose proof (available_year_has_rows merit_data uni dept prog camp) as Hav.
  unfold closest_year.
  destruct (available_years merit_data uni dept prog camp) as [|y0 ys] eqn:E.
  - split; [split; [|reflexivity]|split; [discriminate|]].
    + intros _ y. destruct (lookup_rows merit_data uni camp dept prog y) eqn:El;
        [reflexivity|]. exfalso. apply (proj2 (Hav y)). rewrite El. discriminate.
    + intros Hne. exfalso. apply (proj2 (Hav yr)). exact Hne.
  - set (key := fun y : Z => Z.abs (y - yr)).
    split; [split; [discriminate|]|split].
    + intros Hall. exfalso. apply (proj1 (Hav y0)); [left; reflexivity | apply Hall].
    + intros cy [= <-]. apply Hav.
      destruct (min_by_In key ys y0) as [-> | H]; [left; reflexivity | right; exact H].
    + intros Hne. apply Hav in Hne. f_equal.
      destruct (min_by_first_least key ys y0) as (_ & H2 & H3 & _).
      assert (Hk : (key (min_by key y0 ys) <= key yr)%Z).
      { destruct Hne as [<- | Hin]; [exact H2 | apply H3; exact Hin]. }
      change (Z.abs (min_by key y0 ys - yr) <= Z.abs (yr - yr))%Z in Hk. lia.
Qed.

Lemma closest_year_has_rows_witness :
  closest_year table_years (Some "FAST") (Some "Physics") (Some "BS") 2023 (Some "Lahore")
  = Some 2023%Z.
Proof.
  refine (proj2 (proj2 (closest_year_has_rows table_years (Some "FAST") (Some "Physics")
                          (Some "BS") 2023 (Some "Lahore"))) _).
  vm_compute. discriminate.
Defined.

(** ** Campuses by university *)

Lemma campus_sets_fold (l : list record) :
  forall (m : gmap string (gset string)) (u : string),
  let m' := foldl (fun m rec =>
                     <[University rec := {[Campus rec]} ∪ default ∅ (m !! University rec)]> m)
                  m l in
  (is_Some (m' !! u) <-> is_Some (m !! u) \/ exists r, In r l /\ University r = u)
  /\ forall c, c ∈ default ∅ (m' !! u) <->
       c ∈ default ∅ (m !! u) \/ exists r, In r l /\ University r = u /\ Campus r = c.
Proof.
  induction l as [|r l IH]; intros m u; cbn [foldl].
  - split; [|intros c]; (split; [auto|]); intros [H | (r & [] & _)]; exact H.
  - destruct (IH (<[University r := {[Campus r]} ∪ default ∅ (m !! University r)]> m) u)
      as [H1 H2].
    cbv zeta. split.
    + rewrite H1, lookup_insert. destruct (decide (University r = u)) as [E|N].
      * split; [|intros _; left; eauto].
        intros _. right. exists r. split; [left; reflexivity | exact E].
      * split; intros [H | (r' & Hin & E)]; auto.
        -- right. exists r'. split; [right; exact Hin | exact E].
        -- destruct Hin as [<- | Hin]; [congruence | right; eauto].
    + intros c. rewrite H2, lookup_insert. destruct (decide (University r = u)) as [E|N].
      * change (default ∅ (Some ?x)) with x.
        rewrite elem_of_union, elem_of_singleton. subst u. split.
        -- intros [[-> | H] | (r' & Hin & E & Ec)].
           ++ right. exists r. split; [left; reflexivity | auto].
           ++ left. exact H.
           ++ right. exists r'. split; [right; exact Hin | auto].
        -- intros [H | (r' & [<- | Hin] & E & Ec)].
           ++ left. right. exact H.
           ++ left. left. symmetry. exact Ec.
           ++ right. exists r'. auto.
      * split; intros [H | (r' & Hin & E & Ec)]; auto.
        -- right. exists r'. split; [right; exact Hin | auto].
        -- destruct Hin as [<- | Hin]; [congruence | right; exists r'; auto].
Qed.

(** X9.  [UNI_TO_CAMP] has a key for exactly the university names that
    occur in a row, the empty name included, compared with letter case.
    The value of a key is the strictly increasing list of the campuses of
    the rows with that very university name; it is never empty, and it
    holds the empty campus name when such a row has no campus. *)
Theorem UNI_TO_CAMP_campuses (merit_data : list record) (u : string) :
  (UNI_TO_CAMP merit_data !! u = None <->
   forall r, In r (merit_records merit_data) -> University r <> u)
  /\ forall camps, UNI_TO_CAMP merit_data !! u = Some camps ->
       camps <> [] /\ StronglySorted string_lt camps
       /\ forall c, In c camps <->
            exists r, In r (merit_records merit_data) /\ University r = u /\ Campus r = c.
Proof.
  unfold UNI_TO_CAMP. rewrite lookup_fmap.
  destruct (campus_sets_fold (merit_records merit_data) ∅ u) as [H1 H2].
  cbv zeta in H1, H2. fold (campus_sets merit_data) in H1, H2.
  rewrite lookup_empty in H1, H2. change (default ∅ None) with (∅ : gset string) in H2.
  destruct (campus_sets merit_data !! u) as [s|] eqn:E; cbn [fmap option_fmap option_map].
  - assert (Hex : exists r, In r (merit_records merit_data) /\ University r = u).
    { destruct (proj1 H1 (ex_intro _ s eq_refl)) as [[x Hx] | H]; [discriminate | exact H]. }
    assert (Hin : forall c, In c (sorted_set String.compare (elements s)) <->
              exists r, In r (merit_records merit_data) /\ University r = u /\ Campus r = c).
    { intros c. rewrite (sorted_set_In String.compare String.compare_eq_iff).
      rewrite <- list_elem_of_In, elem_of_elements.
      change s with (default ∅ (Some s)). rewrite H2.
      split; [intros [H | H]; [set_solver | exact H] | auto]. }
    split; [split; [discriminate|]|].
    + intros Hall. destruct Hex as (r & Hr & Er). exfalso. exact (Hall r Hr Er).
    + intros camps [= <-]. split; [|split; [apply sorted_set_string | exact Hin]].
      destruct Hex as (r & Hr & Er). intros Enil.
      assert (Hc : In (Campus r) (sorted_set String.compare (elements s)))
        by (apply Hin; eauto).
      rewrite Enil in Hc. exact Hc.
  - split; [split; [|reflexivity] | discriminate].
    intros _ r Hr Er.
    destruct (proj2 H1 (or_intror (ex_intro _ r (conj Hr Er)))) as [x Hx]. discriminate.
Qed.

Lemma UNI_TO_CAMP_campuses_witness :
  In "Lahore" ["Islamabad"; "Lahore"] <->
  exists r, In r (merit_records table_years) /\ University r = "FAST" /\ Campus r = "Lahore".
Proof.
  assert (H : UNI_TO_CAMP table_years !! "FAST" = Some ["Islamabad"; "Lahore"])
    by (vm_compute; reflexivity).
  exact (proj2 (proj2 (proj2 (UNI_TO_CAMP_campuses table_years "FAST") _ H)) "Lahore").
Defined.

(** ** Campuses offering a programme *)

(** X10.  [campuses_offering] for a year lists exactly the campuses of
    the rows that the lookup without a campus filter returns for that
    year; without a year it lists the campuses offered in some year, and
    it is empty exactly when no year is on record for the programme. *)
Theorem campuses_offering_lookup
        (merit_data : list record) (uni dept prog : option string) :
  (forall y c, In c (campuses_offering merit_data uni dept prog (Some y)) <->
               exists r, In r (lookup_rows merit_data uni None dept prog y) /\ Campus r = c)
  /\ (forall c, In c (campuses_offering merit_data uni dept prog None) <->
                exists y, In c (campuses_offering merit_data uni dept prog (Some y)))
  /\ (campuses_offering merit_data uni dept prog None = [] <->
      available_years merit_data uni dept prog None = [])
  /\ forall yr, StronglySorted string_lt (campuses_offering merit_data uni dept prog yr).
Proof.
  assert (Hy : forall y c, In c (campuses_offering merit_data uni dept prog (Some y)) <->
               exists r, In r (lookup_rows merit_data uni None dept prog y) /\ Campus r = c).
  { intros y c. unfold campuses_offering, lookup_rows. rewrite column_In.
    split; intros (r & H1 & H2).
    - destruct H2 as [H2 <-]. exists r. split; [|reflexivity].
      apply List.filter_In. split; [exact H1|]. cbn [campus_like truthy negb].
      rewrite !andb_true_iff in *. tauto.
    - apply List.filter_In in H1. destruct H1 as [H1 H3]. exists r.
      split; [exact H1|]. split; [|exact H2]. cbn [campus_like truthy negb] in H3.
      rewrite !andb_true_iff in *. tauto. }
  assert (Hn : forall c, In c (campuses_offering merit_data uni dept prog None) <->
               exists y, In c (campuses_offering merit_data uni dept prog (Some y))).
  { intros c. unfold campuses_offering. rewrite column_In. split.
    - intros (r & H1 & H2 & H3). exists (Year r). apply column_In. exists r.
      split; [exact H1|]. split; [|exact H3].
      rewrite !andb_true_iff in *. rewrite Z.eqb_refl. tauto.
    - intros (y & H). apply column_In in H. destruct H as (r & H1 & H2 & H3).
      exists r. split; [exact H1|]. split; [|exact H3].
      rewrite !andb_true_iff in *. tauto. }
  split; [exact Hy|]. split; [exact Hn|]. split; [|intros yr; apply column_sorted].
  split; intros E.
  - destruct (available_years merit_data uni dept prog None) as [|y ys] eqn:Ea;
      [reflexivity|]. exfalso.
    assert (Hin : In y (available_years merit_data uni dept prog None))
      by (rewrite Ea; left; reflexivity).
    apply available_year_has_rows in Hin.
    destruct (lookup_rows merit_data uni None dept prog y) as [|r rs] eqn:El; [congruence|].
    assert (Hc : In (Campus r) (campuses_offering merit_data uni dept prog None)).
    { apply Hn. exists y. apply Hy. exists r. rewrite El. split; [left|]; reflexivity. }
    rewrite E in Hc. exact Hc.
  - destruct (campuses_offering merit_data uni dept prog None) as [|c cs] eqn:Ec;
      [reflexivity|]. exfalso.
    destruct (proj1 (Hn c) (or_introl eq_refl)) as (y & Hin). apply Hy in Hin.
    destruct Hin as (r & Hr & _).
    assert (Ha : In y (available_years merit_data uni dept prog None)).
    { apply available_year_has_rows. intros El. rewrite El in Hr. exact Hr. }
    rewrite E in Ha. exact Ha.
Qed.

(** ** Rows behind a reply *)

Lemma lookup_rows_In merit_data uni camp dept prog y r :
  In r (lookup_rows merit_data uni camp dept prog y) <->
  In r (merit_records merit_data)
  /\ lower (University r) = lower (or_empty uni)
  /\ campus_like (Campus r) camp = true
  /\ lower (Department r) = lower (or_empty dept)
  /\ lower (Program r) = lower (or_empty prog)
  /\ Year r = y.
Proof.
  unfold lookup_rows.
  rewrite List.filter_In, !andb_true_iff, !String.eqb_eq, Z.eqb_eq. tauto.
Qed.

Lemma programs_for_In merit_data uni dept p :
  In p (programs_for merit_data uni dept) <->
  exists r, In r (merit_records merit_data)
    /\ lower (University r) = lower (or_empty uni)
    /\ lower (Department r) = lower (or_empty dept) /\ Program r = p.
Proof.
  unfold programs_for. rewrite column_In. split; intros (r & H1 & H2 & H3); exists r.
  - rewrite andb_true_iff, !String.eqb_eq in H2. tauto.
  - rewrite andb_true_iff, !String.eqb_eq. tauto.
Qed.

Lemma departments_at_uni_In merit_data uni d :
  In d (departments_at_uni merit_data uni) <->
  exists r, In r (merit_records merit_data)
    /\ lower (University r) = lower (or_empty uni) /\ Department r = d.
Proof.
  unfold departments_at_uni. rewrite column_In. split; intros (r & H1 & H2 & H3); exists r.
  - rewrite String.eqb_eq in H2. tauto.
  - rewrite String.eqb_eq. tauto.
Qed.

Lemma campuses_offering_In merit_data uni dept prog c :
  In c (campuses_offering merit_data uni dept prog None) <->
  exists r, In r (merit_records merit_data)
    /\ lower (University r) = lower (or_empty uni)
    /\ lower (Department r) = lower (or_empty dept)
    /\ lower (Program r) = lower (or_empty prog) /\ Campus r = c.
Proof.
  unfold campuses_offering. rewrite column_In. split; intros (r & H1 & H2 & H3); exists r.
  - rewrite !andb_true_iff, !String.eqb_eq in H2. tauto.
  - rewrite !andb_true_iff, !String.eqb_eq. tauto.
Qed.

(** Without an available year no row of the programme passes the campus
    filter. *)
Lemma no_year_no_row merit_data uni dept prog camp r :
  available_years merit_data uni dept prog camp = [] ->
  In r (merit_records merit_data) ->
  lower (University r) = lower (or_empty uni) ->
  lower (Department r) = lower (or_empty dept) ->
  lower (Program r) = lower (or_empty prog) ->
  campus_like (Campus r) camp = false.
Proof.
  intros Ea Hr Hu Hd Hp. destruct (campus_like (Campus r) camp) eqn:Ec; [|reflexivity].
  exfalso.
  assert (Hin : In (Year r) (available_years merit_data uni dept prog camp)).
  { apply available_year_has_rows. intros El.
    assert (H : In r (lookup_rows merit_data uni camp dept prog (Year r)))
      by (apply lookup_rows_In; auto 10).
    rewrite El in H. exact H. }
  rewrite Ea in Hin. exact Hin.
Qed.

Lemma closest_year_none merit_data uni dept prog yr camp :
  closest_year merit_data uni dept prog yr camp = None <->
  available_years merit_data uni dept prog camp = [].
Proof.
  unfold closest_year.
  destruct (available_years merit_data uni dept prog camp); split; congruence.
Qed.

Lemma closest_year_available merit_data uni dept prog yr camp cy :
  closest_year merit_data uni dept prog yr camp = Some cy ->
  In cy (available_years merit_data uni dept prog camp).
Proof.
  unfold closest_year.
  destruct (available_years merit_data uni dept prog camp) as [|y0 ys]; [discriminate|].
  intros [= <-].
  destruct (min_by_first_least (fun y => Z.abs (y - yr)) ys y0) as ([-> | [H _]] & _);
    [left; reflexivity | right; exact H].
Qed.

(** The lookups see a campus filter only through [campus_like]. *)
Lemma lookup_rows_filter merit_data uni dept prog y f1 f2 :
  (forall c, campus_like c f1 = campus_like c f2) ->
  lookup_rows merit_data uni f1 dept prog y = lookup_rows merit_data uni f2 dept prog y.
Proof.
  intros H. unfold lookup_rows. apply List.filter_ext. intros r. rewrite H. reflexivity.
Qed.

Lemma optional_filter camp c :
  campus_like c (if nonempty camp then Some camp else None) = campus_like c (Some camp).
Proof. destruct camp; reflexivity. Qed.

(** A closest year found under a campus filter has rows under it. *)
Lemma closest_year_rows merit_data uni dept prog yr camp cy :
  closest_year merit_data uni dept prog yr (if nonempty camp then Some camp else None)
  = Some cy ->
  lookup_rows merit_data uni (Some camp) dept prog cy <> [].
Proof.
  intros H. apply closest_year_available, available_year_has_rows in H.
  rewrite (lookup_rows_filter merit_data uni dept prog cy _ (Some camp)
             (optional_filter camp)) in H. exact H.
Qed.

(** *** One campus or none *)

(** X11.  What each reply of [reply_for_single_or_uncamped] means.  An
    exact reply shows the rows of the requested year.  The closest-year
    reply is given whenever the requested year has no row and some year
    has one: the second lookup never comes back empty.  Every later reply
    therefore means that no year has a row under the campus filter, and
    with a campus named the reply is always one of the three suggestions:
    campuses that offer the programme, none of which passes the filter;
    else programs of the department, none of which is the requested one;
    else the departments of the university, none of which is the
    requested one.  The three replies without a suggestion of campuses
    for the programme are reached only when no campus is named. *)
Theorem single_reply_cases
        (merit_data : list record) (uni dept prog : option string) (camp : string) (yr : Z) :
  let no_rows f := forall y, lookup_rows merit_data uni f dept prog y = [] in
  let other_programs progs :=
    progs = programs_for merit_data uni dept /\ progs <> []
    /\ forall p, In p progs -> lower p <> lower (or_empty prog) in
  let other_departments deps :=
    programs_for merit_data uni dept = [] /\ deps = departments_at_uni merit_data uni
    /\ forall d, In d deps -> lower d <> lower (or_empty dept) in
  match reply_for_single_or_uncamped merit_data uni dept prog camp yr with
  | ExactOne r => lookup_rows merit_data uni (Some camp) dept prog yr = [r]
  | ExactMany rows =>
      lookup_rows merit_data uni (Some camp) dept prog yr = rows /\ (2 <= length rows)%nat
  | ClosestYear cy r =>
      lookup_rows merit_data uni (Some camp) dept prog yr = []
      /\ closest_year merit_data uni dept prog yr (if nonempty camp then Some camp else None)
         = Some cy
      /\ cy <> yr
      /\ exists rest, lookup_rows merit_data uni (Some camp) dept prog cy = r :: rest
  | OfferedElsewhere camps =>
      nonempty camp = true /\ no_rows (Some camp)
      /\ camps = campuses_offering merit_data uni dept prog None /\ camps <> []
      /\ forall c, In c camps -> campus_like c (Some camp) = false
  | OtherPrograms progs =>
      nonempty camp = true /\ no_rows None /\ other_programs progs
  | NotAvailable deps =>
      nonempty camp = true /\ no_rows None /\ other_departments deps
  | NoProgramData progs =>
      camp = EmptyString /\ no_rows None /\ other_programs progs
  | NoMatchAtUniversity camps deps =>
      camp = EmptyString /\ no_rows None /\ other_departments deps
      /\ exists u, uni = Some u /\ UNI_TO_CAMP merit_data !! u = Some camps
  | NothingMatched =>
      camp = EmptyString /\ no_rows None /\ programs_for merit_data uni dept = []
      /\ forall u, uni = Some u -> UNI_TO_CAMP merit_data !! u = None
  end.
Proof.
  cbv zeta. unfold reply_for_single_or_uncamped.
  destruct (lookup_rows merit_data uni (Some camp) dept prog yr) as [|r0 [|r1 rows]] eqn:El;
    [|reflexivity | split; [reflexivity | simpl; lia]].
  destruct (closest_year merit_data uni dept prog yr (if nonempty camp then Some camp else None))
    as [cy|] eqn:Ec.
  { pose proof (closest_year_rows _ _ _ _ _ _ _ Ec) as Hne.
    destruct (lookup_rows merit_data uni (Some camp) dept prog cy) as [|r rest] eqn:Ecy;
      [congruence|].
    split; [reflexivity|]. split; [reflexivity|]. split; [|eauto].
    intros ->. congruence. }
  apply closest_year_none in Ec.
  (* no row of the programme passes the filter *)
  assert (Hnone : forall r, In r (merit_records merit_data) ->
            lower (University r) = lower (or_empty uni) ->
            lower (Department r) = lower (or_empty dept) ->
            lower (Program r) = lower (or_empty prog) ->
            campus_like (Campus r) (Some camp) = false).
  { intros r Hr Hu Hd Hp. rewrite <- optional_filter.
    apply (no_year_no_row merit_data uni dept prog _ r Ec); assumption. }
  assert (Hrows : forall f, (forall r, In r (merit_records merit_data) ->
            lower (University r) = lower (or_empty uni) ->
            lower (Department r) = lower (or_empty dept) ->
            lower (Program r) = lower (or_empty prog) ->
            campus_like (Campus r) f = false) ->
            forall y, lookup_rows merit_data uni f dept prog y = []).
  { intros f Hf y. destruct (lookup_rows merit_data uni f dept prog y) as [|r rs] eqn:E;
      [reflexivity|]. exfalso.
    assert (Hin : In r (lookup_rows merit_data uni f dept prog y))
      by (rewrite E; left; reflexivity).
    apply lookup_rows_In in Hin. destruct Hin as (H1 & H2 & H3 & H4 & H5 & _).
    rewrite (Hf r H1 H2 H4 H5) in H3. discriminate. }
  assert (Hprogs : (forall r, In r (merit_records merit_data) ->
            lower (University r) = lower (or_empty uni) ->
            lower (Department r) = lower (or_empty dept) ->
            lower (Program r) = lower (or_empty prog) -> False) ->
            forall p, In p (programs_for merit_data uni dept) ->
                      lower p <> lower (or_empty prog)).
  { intros Hno p Hp E. apply programs_for_In in Hp. destruct Hp as (r & H1 & H2 & H3 & <-).
    exact (Hno r H1 H2 H3 E). }
  assert (Hdeps : programs_for merit_data uni dept = [] ->
            forall d, In d (departments_at_uni merit_data uni) ->
                      lower d <> lower (or_empty dept)).
  { intros Hno d Hd E. apply departments_at_uni_In in Hd. destruct Hd as (r & H1 & H2 & <-).
    assert (Hin : In (Program r) (programs_for merit_data uni dept))
      by (apply programs_for_In; eauto 10).
    rewrite Hno in Hin. exact Hin. }
  destruct (nonempty camp) eqn:Hcamp.
  - (* a campus is named *)
    rewrite Ec.
    destruct (campuses_offering merit_data uni dept prog None) as [|c cs] eqn:Eo.
    + assert (Hno : forall r, In r (merit_records merit_data) ->
                lower (University r) = lower (or_empty uni) ->
                lower (Department r) = lower (or_empty dept) ->
                lower (Program r) = lower (or_empty prog) -> False).
      { intros r H1 H2 H3 H4.
        assert (Hin : In (Campus r) (campuses_offering merit_data uni dept prog None))
          by (apply campuses_offering_In; eauto 10).
        rewrite Eo in Hin. exact Hin. }
      assert (Hall : forall y, lookup_rows merit_data uni None dept prog y = []).
      { apply Hrows. intros r H1 H2 H3 H4. destruct (Hno r H1 H2 H3 H4). }
      destruct (programs_for merit_data uni dept) as [|p ps] eqn:Ep.
      * split; [reflexivity|]. split; [exact Hall|]. split; [reflexivity|].
        split; [reflexivity|]. apply Hdeps. reflexivity.
      * split; [reflexivity|]. split; [exact Hall|]. split; [reflexivity|].
        split; [discriminate|]. apply Hprogs. exact Hno.
    + split; [reflexivity|]. split; [apply Hrows; exact Hnone|]. split; [reflexivity|].
      split; [discriminate|]. intros c' Hc'. rewrite <- Eo in Hc'.
      apply campuses_offering_In in Hc'. destruct Hc' as (r & H1 & H2 & H3 & H4 & <-).
      apply Hnone; assumption.
  - (* no campus is named *)
    destruct camp; [|discriminate Hcamp].
    assert (Hno : forall r, In r (merit_records merit_data) ->
              lower (University r) = lower (or_empty uni) ->
              lower (Department r) = lower (or_empty dept) ->
              lower (Program r) = lower (or_empty prog) -> False).
    { intros r H1 H2 H3 H4. specialize (Hnone r H1 H2 H3 H4). discriminate Hnone. }
    assert (Hall : forall y, lookup_rows merit_data uni None dept prog y = []).
    { apply Hrows. intros r H1 H2 H3 H4. destruct (Hno r H1 H2 H3 H4). }
    destruct (programs_for merit_data uni dept) as [|p ps] eqn:Ep.
    + destruct uni as [u|]; cbn [mbind option_bind].
      * destruct (UNI_TO_CAMP merit_data !! u) as [camps|] eqn:Eu.
        -- split; [reflexivity|]. split; [exact Hall|].
           split; [split; [reflexivity | split; [reflexivity | apply Hdeps; reflexivity]]|].
           eauto.
        -- split; [reflexivity|]. split; [exact Hall|]. split; [reflexivity|].
           intros u' [= <-]. exact Eu.
      * split; [reflexivity|]. split; [exact Hall|]. split; [reflexivity|]. discriminate.
    + split; [reflexivity|]. split; [exact Hall|]. split; [reflexivity|].
      split; [discriminate|]. apply Hprogs. exact Hno.
Qed.

Lemma single_reply_cases_witness :
  reply_for_single_or_uncamped table_years (Some "FAST") (Some "Physics") (Some "BS")
    "Karachi" 2023 = OfferedElsewhere ["Islamabad"; "Lahore"]
  /\ campus_like "Lahore" (Some "Karachi") = false.
Proof.
  pose proof (single_reply_cases table_years (Some "FAST") (Some "Physics") (Some "BS")
                "Karachi" 2023) as H.
  assert (E : reply_for_single_or_uncamped table_years (Some "FAST") (Some "Physics")
                (Some "BS") "Karachi" 2023 = OfferedElsewhere ["Islamabad"; "Lahore"])
    by (vm_compute; reflexivity).
  split; [exact E|]. rewrite E in H.
  exact (proj2 (proj2 (proj2 (proj2 H))) "Lahore" (or_intror (or_introl eq_refl))).
Defined.

(** *** Several campuses *)

Lemma lstrip_comma_free s : contains "," s = false -> contains "," (lstrip s) = false.
Proof.
  induction s as [|c s IH]; [auto|]. intros H. cbn [lstrip].
  destruct (isspace c); [|exact H].
  rewrite comma_head in H. apply orb_false_iff in H. apply IH, H.
Qed.

Lemma rstrip_comma_free s : contains "," s = false -> contains "," (rstrip s) = false.
Proof.
  induction s as [|c s IH]; [auto|]. intros H.
  rewrite comma_head in H. apply orb_false_iff in H. destruct H as [Hc Hs].
  specialize (IH Hs). rewrite rstrip_cons.
  destruct (rstrip s) as [|a s0].
  - destruct (isspace c); [reflexivity|]. rewrite comma_head, Hc. reflexivity.
  - rewrite comma_head, Hc, IH. reflexivity.
Qed.

Lemma strip_comma_free s : contains "," s = false -> contains "," (strip s) = false.
Proof. intros H. apply rstrip_comma_free, lstrip_comma_free, H. Qed.

(** A campus name passes itself as a filter. *)
Lemma campus_like_self c :
  nonempty c = true -> strip c = c -> contains "," c = false ->
  campus_like c (Some c) = true.
Proof.
  intros Hn Hs Hc. rewrite (campus_like_existsb c c Hn), (re_split_comma_free c Hc).
  cbn [existsb]. rewrite Hs, Hn, contains_refl. reflexivity.
Qed.

(** The names in [camp_list]: trimmed, not empty, without a comma. *)
Lemma camp_list_names camp c :
  In c (List.map strip
          (List.filter (fun c => nonempty (strip c)) (re_split comma_separator camp))) ->
  nonempty c = true /\ strip c = c /\ contains "," c = false.
Proof.
  intros H. apply List.in_map_iff in H. destruct H as (p & <- & Hp).
  apply List.filter_In in Hp. destruct Hp as [Hp Hn].
  split; [exact Hn|]. split; [apply strip_idempotent|].
  apply strip_comma_free, (re_split_pieces_comma_free camp p Hp).
Qed.

Lemma campus_reply_cases merit_data uni dept prog yr c :
  nonempty c = true -> strip c = c -> contains "," c = false ->
  match campus_reply merit_data uni dept prog yr c with
  | LineExact c' r =>
      c' = c /\ exists rest, lookup_rows merit_data uni (Some c) dept prog yr = r :: rest
  | LineClosest c' cy r =>
      c' = c /\ lookup_rows merit_data uni (Some c) dept prog yr = []
      /\ closest_year merit_data uni dept prog yr (Some c) = Some cy /\ cy <> yr
      /\ exists rest, lookup_rows merit_data uni (Some c) dept prog cy = r :: rest
  | LineNotOffered c' offered_any =>
      c' = c /\ (forall y, lookup_rows merit_data uni (Some c) dept prog y = [])
      /\ offered_any = campuses_offering merit_data uni dept prog None
      /\ offered_any <> []
      /\ forall o, In o offered_any -> campus_like o (Some c) = false
  | LineNoData c' =>
      c' = c /\ campuses_offering merit_data uni dept prog None = []
  end.
Proof.
  intros Hn Hs Hc. unfold campus_reply.
  destruct (lookup_rows merit_data uni (Some c) dept prog yr) as [|r0 rows] eqn:El;
    [|split; [reflexivity | eauto]].
  destruct (closest_year merit_data uni dept prog yr (Some c)) as [cy|] eqn:Ec.
  { pose proof (closest_year_available _ _ _ _ _ _ _ Ec) as Hne.
    apply available_year_has_rows in Hne.
    destruct (lookup_rows merit_data uni (Some c) dept prog cy) as [|r rest] eqn:Ecy;
      [congruence|].
    split; [reflexivity|]. split; [reflexivity|]. split; [reflexivity|]. split; [|eauto].
    intros ->. congruence. }
  apply closest_year_none in Ec.
  assert (Hnone : forall o, In o (campuses_offering merit_data uni dept prog None) ->
                            campus_like o (Some c) = false).
  { intros o Ho. apply campuses_offering_In in Ho.
    destruct Ho as (r & H1 & H2 & H3 & H4 & <-).
    apply (no_year_no_row merit_data uni dept prog _ r Ec); assumption. }
  destruct (campuses_offering merit_data uni dept prog None) as [|o os] eqn:Eo;
    [split; reflexivity|].
  cbn [andb]. destruct (existsb (String.eqb c) (o :: os)) eqn:Ex; cbn [negb].
  - exfalso. apply existsb_exists in Ex. destruct Ex as (x & Hx & E).
    apply String.eqb_eq in E. subst x.
    specialize (Hnone c Hx). rewrite (campus_like_self c Hn Hs Hc) in Hnone. discriminate.
  - split; [reflexivity|]. split; [|split; [reflexivity | split; [discriminate | exact Hnone]]].
    intros y. destruct (lookup_rows merit_data uni (Some c) dept prog y) as [|r rs] eqn:E;
      [reflexivity|]. exfalso.
    assert (Hin : In y (available_years merit_data uni dept prog (Some c))).
    { apply available_year_has_rows. rewrite E. discriminate. }
    rewrite Ec in Hin. exact Hin.
Qed.

(** X12.  [reply_for_multi_campus] answers with one line for each name
    of the campus text cut at commas, blank names dropped, in their order.
    A line shows the first row of the requested year when there is one,
    else the first row of the closest year whenever any year has a row for
    that campus.  Of the two remaining lines, "not offered here" lists
    campuses none of which passes the name as a filter, and "no data" is
    given only when the programme is on record at no campus at all. *)
Theorem multi_campus_lines
        (merit_data : list record) (uni dept prog : option string) (camp : string) (yr : Z) :
  List.Forall2
    (fun c line =>
       nonempty c = true /\ contains "," c = false
       /\ match line with
          | LineExact c' r =>
              c' = c
              /\ exists rest, lookup_rows merit_data uni (Some c) dept prog yr = r :: rest
          | LineClosest c' cy r =>
              c' = c /\ lookup_rows merit_data uni (Some c) dept prog yr = []
              /\ closest_year merit_data uni dept prog yr (Some c) = Some cy /\ cy <> yr
              /\ exists rest, lookup_rows merit_data uni (Some c) dept prog cy = r :: rest
          | LineNotOffered c' offered_any =>
              c' = c /\ (forall y, lookup_rows merit_data uni (Some c) dept prog y = [])
              /\ offered_any = campuses_offering merit_data uni dept prog None
              /\ offered_any <> []
              /\ forall o, In o offered_any -> campus_like o (Some c) = false
          | LineNoData c' =>
              c' = c /\ campuses_offering merit_data uni dept prog None = []
          end)
    (List.map strip
       (List.filter (fun c => nonempty (strip c)) (re_split comma_separator camp)))
    (reply_for_multi_campus merit_data uni dept prog camp yr).
Proof.
  unfold reply_for_multi_campus.
  pose proof (camp_list_names camp) as Hnames.
  induction (List.map strip
               (List.filter (fun c => nonempty (strip c)) (re_split comma_separator camp)))
    as [|c l IH]; cbn [List.map]; constructor.
  - destruct (Hnames c (or_introl eq_refl)) as (Hn & Hs & Hc).
    split; [exact Hn|]. split; [exact Hc|].
    apply campus_reply_cases; assumption.
  - apply IH. intros x Hx. apply Hnames. right. exact Hx.
Qed.

Lemma multi_campus_lines_witness :
  reply_for_multi_campus table_years (Some "FAST") (Some "Physics") (Some "BS")
    "Lahore, Karachi" 2022
  = [ LineClosest "Lahore" 2023 (row "FAST" "Lahore" "Physics" "BS" 2023);
      LineNotOffered "Karachi" ["Islamabad"; "Lahore"] ]
  /\ forall o, In o ["Islamabad"; "Lahore"] -> campus_like o (Some "Karachi") = false.
Proof.
  assert (E : reply_for_multi_campus table_years (Some "FAST") (Some "Physics") (Some "BS")
                "Lahore, Karachi" 2022
              = [ LineClosest "Lahore" 2023 (row "FAST" "Lahore" "Physics" "BS" 2023);
                  LineNotOffered "Karachi" ["Islamabad"; "Lahore"] ])
    by (vm_compute; reflexivity).
  split; [exact E|].
  pose proof (multi_campus_lines table_years (Some "FAST") (Some "Physics") (Some "BS")
                "Lahore, Karachi" 2022) as H.
  rewrite E in H.
  assert (L : List.map strip
                (List.filter (fun c => nonempty (strip c))
                   (re_split comma_separator "Lahore, Karachi")) = ["Lahore"; "Karachi"])
    by (vm_compute; reflexivity).
  rewrite L in H.
  apply List.Forall2_cons_iff in H. destruct H as [_ H].
  apply List.Forall2_cons_iff in H. destruct H as [H _].
  exact (proj2 (proj2 (proj2 (proj2 (proj2 (proj2 H)))))).
Defined.

(** ** The turn as a whole *)

(** The first missing slot and what it says about the slots before it. *)
Lemma missing_first (n : normalized) ask rest :
  missing_slots n = ask :: rest ->
  (ask = "university" /\ truthy (n_uni n) = false)
  \/ (ask = "department" /\ truthy (n_uni n) = true /\ truthy (n_dept n) = false)
  \/ (ask = "program" /\ truthy (n_uni n) = true /\ truthy (n_dept n) = true
      /\ truthy (n_prog n) = false).
Proof.
  unfold missing_slots.
  destruct (truthy (n_uni n)), (truthy (n_dept n)), (truthy (n_prog n));
    simpl; intros H; inversion H; auto 10.
Qed.

Lemma truthy_some o : truthy o = true -> o = Some (or_empty o) /\ nonempty (or_empty o) = true.
Proof. destruct o as [s|]; [|discriminate]. auto. Qed.

(** With nothing missing, the block that plugs an awaited slot in changes
    no slot: it pops the session when a slot was awaited. *)
Lemma answer_complete merit_data session msg ctx (n : normalized) w :
  missing_slots n = [] ->
  answer merit_data session msg ctx n w =
  (Ok (if nonempty (n_camp n)
          && (contains "," (n_camp n) || re_found and_or_ampersand (n_camp n))
       then MultiCampusReply (n_uni n) (n_dept n) (n_prog n) (n_camp n) (n_yr n)
       else SingleReply (n_uni n) (n_dept n) (n_prog n) (n_camp n) (n_yr n)),
   if truthy (option_map awaiting ctx)
   then {| user_context := delete session (user_context w);
           oplog := oplog w ++ [OpPop session] |}
   else w).
Proof.
  intros H. destruct (missing_nil_truthy n H) as (Hu & Hd & Hp).
  unfold answer, bind, ret, ctx_pop. rewrite Hu, Hd, Hp. cbn [negb].
  rewrite !andb_false_r.
  destruct (truthy (option_map awaiting ctx)); cbn beta iota;
    destruct (nonempty (n_camp n) && _); reflexivity.
Qed.

(** X13.  What a turn does to the session store.  The entries of other
    sessions are never touched.  A turn that ends in a question stores a
    context for its session whose awaited slot is the first of university,
    department and program that is empty among the values it stores.  A
    turn that ends in an answer removes the session's context when that
    context awaits a slot and leaves the store as it is otherwise.  A
    policy reply or an exception leaves the store as it is.  Every turn
    starts by reading the session's context. *)
Theorem chat_store_discipline
        (merit_data : list record) (now_y : Z) (session msg : string)
        (info : option hint) (w : world) :
  let out := chat merit_data now_y session msg info w in
  (forall other, other <> session ->
     user_context (snd out) !! other = user_context w !! other)
  /\ match fst out with
     | Ok (AskUniversity _) | Ok (AskDepartmentAt _ _) | Ok (AskDepartment _)
     | Ok (AskProgramFor _ _ _) | Ok AskProgram =>
         exists c rest,
           user_context (snd out) = <[session := c]> (user_context w)
           /\ oplog (snd out) = (oplog w ++ [OpGet session] ++ [OpSet session c])%list
           /\ missing_slots (known_slots c) = awaiting c :: rest
     | Ok (MultiCampusReply _ _ _ _ _) | Ok (SingleReply _ _ _ _ _) =>
         if truthy (option_map awaiting (user_context w !! session))
         then user_context (snd out) = delete session (user_context w)
              /\ oplog (snd out) = (oplog w ++ [OpGet session] ++ [OpPop session])%list
         else user_context (snd out) = user_context w
              /\ oplog (snd out) = (oplog w ++ [OpGet session])%list
     | Ok PolicyReply | Raise _ =>
         user_context (snd out) = user_context w
         /\ oplog (snd out) = (oplog w ++ [OpGet session])%list
     end.
Proof.
  cbv zeta. unfold chat, bind, ctx_get, lift.
  destruct (is_policy_question msg); [cbn; auto|].
  destruct (normalize merit_data (fallback merit_data now_y msg
              (llm_extract now_y msg info))) as [n|e]; [|cbn; auto].
  destruct (missing_slots n) as [|ask rest] eqn:Hm.
  - rewrite (answer_complete merit_data session msg _ n _ Hm).
    cbn [fst snd user_context oplog].
    destruct (truthy (option_map awaiting (user_context w !! session)));
      cbn [user_context oplog].
    + split; [intros other Ho; apply lookup_delete_ne; congruence|].
      destruct (nonempty (n_camp n) && _); (split; [reflexivity|]);
        rewrite <- List.app_assoc; reflexivity.
    + split; [reflexivity|]. destruct (nonempty (n_camp n) && _); auto.
  - unfold ctx_set, ret.
    set (c := {| awaiting := ask; known_university := n_uni n;
                 known_department := n_dept n; known_program := n_prog n;
                 known_campus := n_camp n; known_year := n_yr n |}).
    assert (Hc : exists c' rest',
              <[session := c]> (user_context w) = <[session := c']> (user_context w)
              /\ ((oplog w ++ [OpGet session]) ++ [OpSet session c])%list
                 = (oplog w ++ [OpGet session] ++ [OpSet session c'])%list
              /\ missing_slots (known_slots c') = awaiting c' :: rest').
    { exists c, rest. split; [reflexivity|]. split; [symmetry; apply List.app_assoc|].
      destruct n; exact Hm. }
    assert (Ho : forall other, other <> session ->
              <[session := c]> (user_context w) !! other = user_context w !! other).
    { intros other Hne. apply lookup_insert_ne. congruence. }
    destruct (missing_first n ask rest Hm) as [[-> Hu] | [(-> & Hu & Hd) | (-> & Hu & Hd & Hp)]];
      cbn [String.eqb Ascii.eqb Bool.eqb fst snd user_context oplog].
    + split; [exact Ho | exact Hc].
    + rewrite Hu. cbn [fst snd user_context oplog]. split; [exact Ho | exact Hc].
    + rewrite Hu, Hd. cbn [andb fst snd user_context oplog]. split; [exact Ho | exact Hc].
Qed.

Lemma chat_store_discipline_witness :
  "t" <> "s"
  /\ user_context (snd (chat table_fast 2026 "s" "FAST" None empty_world)) !! "t"
     = user_context empty_world !! "t".
Proof.
  assert (H : "t" <> "s") by discriminate.
  split; [exact H|].
  pose proof (chat_store_discipline table_fast 2026 "s" "FAST" None empty_world) as P.
  cbv zeta in P. destruct P as [P _]. exact (P "t" H).
Defined.

(** The year is always known after the fallback step. *)
Lemma fallback_year merit_data now_y msg s :
  exists y, s_yr (fallback merit_data now_y msg s) = Some y.
Proof.
  unfold fallback.
  destruct (pv_truthy (s_uni s) && pv_truthy (s_dept s) && pv_truthy (s_prog s)
            && yr_truthy (s_yr s)) eqn:E; cbn [negb].
  - apply andb_true_iff in E. destruct E as [_ E].
    destruct (s_yr s) as [y|]; [eauto | discriminate E].
  - generalize (cheap_extract merit_data now_y msg). intros f. cbn [s_yr].
    unfold yr_or. destruct (yr_truthy (s_yr s)) eqn:E'; [|eauto].
    destruct (s_yr s) as [y|]; [eauto | discriminate E'].
Qed.

Lemma normalize_year merit_data s n : normalize merit_data s = Ok n -> n_yr n = s_yr s.
Proof.
  unfold normalize.
  destruct (norm_if _ (s_uni s)); [|discriminate].
  destruct (norm_if _ (s_dept s)); [|discriminate].
  destruct (norm_if _ (s_prog s)); [|discriminate].
  destruct (norm_campus_if _ (s_camp s)); [|discriminate].
  intros [= <-]. reflexivity.
Qed.

(** X14.  What the replies of a turn carry.  The question for the
    university shows the first eight universities.  The question for the
    department always names the university and shows departments of that
    university: the variant without a university, which would show the
    global list, is never produced.  The question for the program always
    names department and university; the bare question is never produced.
    An answer is built only from a non-empty university, department and
    program and a year, and goes to the builder for several campuses
    exactly when the campus text is not empty and holds a comma, an
    ampersand or the word "and". *)
Theorem chat_replies_well_formed
        (merit_data : list record) (now_y : Z) (session msg : string)
        (info : option hint) (w : world) :
  match fst (chat merit_data now_y session msg info w) with
  | Ok PolicyReply => is_policy_question msg = true
  | Ok (AskUniversity examples) => examples = firstn 8 (UNIS merit_data)
  | Ok (AskDepartmentAt uni examples) =>
      nonempty uni = true
      /\ examples = firstn 8 (departments_at_uni merit_data (Some uni))
  | Ok (AskProgramFor dept uni options) =>
      nonempty dept = true /\ nonempty uni = true
      /\ options = programs_for merit_data (Some uni) (Some dept)
  | Ok (AskDepartment _) | Ok AskProgram => False
  | Ok (MultiCampusReply uni dept prog camp yr) =>
      truthy uni = true /\ truthy dept = true /\ truthy prog = true
      /\ (exists y, yr = Some y)
      /\ nonempty camp = true
      /\ (contains "," camp || re_found and_or_ampersand camp) = true
  | Ok (SingleReply uni dept prog camp yr) =>
      truthy uni = true /\ truthy dept = true /\ truthy prog = true
      /\ (exists y, yr = Some y)
      /\ nonempty camp && (contains "," camp || re_found and_or_ampersand camp) = false
  | Raise _ => is_policy_question msg = false
  end.
Proof.
  unfold chat, bind, ctx_get, lift.
  destruct (is_policy_question msg); [reflexivity|].
  destruct (normalize merit_data (fallback merit_data now_y msg
              (llm_extract now_y msg info))) as [n|e] eqn:En; [|reflexivity].
  destruct (missing_slots n) as [|ask rest] eqn:Hm.
  - rewrite (answer_complete merit_data session msg _ n _ Hm). cbn [fst].
    destruct (missing_nil_truthy n Hm) as (Hu & Hd & Hp).
    assert (Hy : exists y, n_yr n = Some y).
    { rewrite (normalize_year _ _ _ En). apply fallback_year. }
    destruct (nonempty (n_camp n) && _) eqn:Ec.
    + apply andb_true_iff in Ec. tauto.
    + tauto.
  - unfold ctx_set, ret.
    destruct (missing_first n ask rest Hm) as [[-> Hu] | [(-> & Hu & Hd) | (-> & Hu & Hd & Hp)]];
      cbn [String.eqb Ascii.eqb Bool.eqb fst].
    + reflexivity.
    + rewrite Hu. cbn [fst]. destruct (truthy_some _ Hu) as [E Hn].
      split; [exact Hn|]. rewrite <- E. reflexivity.
    + rewrite Hu, Hd. cbn [andb fst].
      destruct (truthy_some _ Hu) as [E Hn]. destruct (truthy_some _ Hd) as [E' Hn'].
      split; [exact Hn'|]. split; [exact Hn|]. rewrite <- E, <- E'. reflexivity.
Qed.

(** ** Values in the hint that are not texts *)

Lemma pv_not_text_or v o : pv_not_text (pv_or v o) = pv_not_text v.
Proof.
  unfold pv_or. destruct (pv_truthy v) eqn:E; [reflexivity|].
  destruct v; cbn [pv_not_text] in *; rewrite ?E; destruct o; reflexivity.
Qed.

Lemma pv_not_text_get v default :
  pv_not_text default = false -> pv_not_text (dict_get_or v default) = jv_not_text v.
Proof. intros H. destruct v; [exact H | reflexivity..]. Qed.

Lemma norm_if_cases norm v :
  norm_if norm v = if pv_not_text v then Raise AttributeError
                   else Ok (match v with PStr s => if nonempty s then norm s else None
                                    | _ => None end).
Proof.
  unfold norm_if. destruct v as [|s| | | | | |]; cbn [pv_not_text];
    try (destruct (pv_truthy _); reflexivity).
  cbn [pv_truthy]. destruct (nonempty s); reflexivity.
Qed.

Lemma norm_campus_if_cases merit_data v :
  exists c, norm_campus_if merit_data v = if pv_not_text v then Raise TypeError else Ok c.
Proof.
  unfold norm_campus_if.
  destruct v as [|s| | | | | |];
    try (exists EmptyString; cbn [pv_not_text]; destruct (pv_truthy _); reflexivity).
  exists (if nonempty s then norm_campus merit_data s else EmptyString).
  cbn [pv_truthy pv_not_text]. destruct (nonempty s); reflexivity.
Qed.

(** [normalize] raises exactly on a truthy value that is not a string, the
    text slots first. *)
Lemma normalize_cases merit_data s :
  if pv_not_text (s_uni s) || pv_not_text (s_dept s) || pv_not_text (s_prog s)
  then normalize merit_data s = Raise AttributeError
  else if pv_not_text (s_camp s) then normalize merit_data s = Raise TypeError
  else exists n, normalize merit_data s = Ok n.
Proof.
  unfold normalize. rewrite !norm_if_cases.
  destruct (norm_campus_if_cases merit_data (s_camp s)) as [c ->].
  destruct (pv_not_text (s_uni s)); [reflexivity|].
  destruct (pv_not_text (s_dept s)); [reflexivity|].
  destruct (pv_not_text (s_prog s)); [reflexivity|].
  destruct (pv_not_text (s_camp s)); [reflexivity | eexists; reflexivity].
Qed.

Lemma fallback_not_text merit_data now_y msg s :
  let m := fallback merit_data now_y msg s in
  pv_not_text (s_uni m) = pv_not_text (s_uni s)
  /\ pv_not_text (s_dept m) = pv_not_text (s_dept s)
  /\ pv_not_text (s_prog m) = pv_not_text (s_prog s)
  /\ pv_not_text (s_camp m) = pv_not_text (s_camp s).
Proof.
  cbv zeta. unfold fallback. generalize (cheap_extract merit_data now_y msg). intros f.
  destruct (negb _); cbn [s_uni s_dept s_prog s_camp]; rewrite ?pv_not_text_or; auto.
Qed.

(** X15.  For a message and a session identifier that are strings, a turn
    ends in an exception exactly when the message is not a policy question
    and the hint gives, where a text is expected, a value that passes the
    truth test and is not a string (a number other than zero, true, a float
    other than zero, a non-empty array or object): [AttributeError] when
    such a value stands for the university, the department or the program,
    [TypeError] when it stands for the campus only.  Without a hint, and
    with a hint whose four values are strings, nulls, absent or falsy,
    every turn ends in a reply. *)
Theorem chat_raises_on_non_text
        (merit_data : list record) (now_y : Z) (session msg : string)
        (info : option hint) (w : world) (e : exn) :
  fst (chat merit_data now_y session msg info w) = Raise e <->
  is_policy_question msg = false
  /\ exists h, info = Some h
       /\ let not_text :=
            jv_not_text (h_university h) || jv_not_text (h_department h)
            || jv_not_text (h_program h) in
          (not_text = true /\ e = AttributeError)
          \/ (not_text = false /\ jv_not_text (h_campus h) = true /\ e = TypeError).
Proof.
  unfold chat, bind, ctx_get, lift.
  destruct (is_policy_question msg); [split; [discriminate | intros [H _]; discriminate]|].
  pose proof (normalize_cases merit_data
                (fallback merit_data now_y msg (llm_extract now_y msg info))) as Hn.
  destruct (fallback_not_text merit_data now_y msg (llm_extract now_y msg info))
    as (E1 & E2 & E3 & E4).
  rewrite E1, E2, E3, E4 in Hn. clear E1 E2 E3 E4.
  set (r := normalize merit_data (fallback merit_data now_y msg (llm_extract now_y msg info)))
    in *.
  clearbody r.
  destruct info as [h|]; cbn [llm_extract s_uni s_dept s_prog s_camp] in Hn.
  - rewrite !pv_not_text_get in Hn by reflexivity. cbv zeta.
    destruct (jv_not_text (h_university h) || jv_not_text (h_department h)
              || jv_not_text (h_program h)) eqn:Et.
    + rewrite Hn. cbn [fst]. split.
      * intros [= <-]. split; [reflexivity|]. exists h. split; [reflexivity|].
        left. split; [exact Et | reflexivity].
      * intros (_ & h' & [= <-] & [[_ ->] | (H & _)]); [reflexivity | congruence].
    + destruct (jv_not_text (h_campus h)) eqn:Ec.
      * rewrite Hn. cbn [fst]. split.
        -- intros [= <-]. split; [reflexivity|]. exists h. split; [reflexivity|].
           right. split; [exact Et|]. split; [exact Ec | reflexivity].
        -- intros (_ & h' & [= <-] & [[H _] | (_ & _ & ->)]); [congruence | reflexivity].
      * destruct Hn as [n ->]. split.
        -- destruct (missing_slots n) as [|ask rest] eqn:Hm.
           ++ rewrite (answer_complete merit_data session msg _ n _ Hm). discriminate.
           ++ unfold ctx_set, ret.
              destruct (missing_first n ask rest Hm)
                as [[-> Hu] | [(-> & Hu & Hd) | (-> & Hu & Hd & Hp)]];
                cbn [String.eqb Ascii.eqb Bool.eqb fst]; rewrite ?Hu, ?Hd; discriminate.
        -- intros (_ & h' & [= <-] & [[H _] | (_ & H & _)]); congruence.
  - cbn [pv_not_text pv_truthy orb] in Hn. destruct Hn as [n ->]. split.
    + destruct (missing_slots n) as [|ask rest] eqn:Hm.
      * rewrite (answer_complete merit_data session msg _ n _ Hm). discriminate.
      * unfold ctx_set, ret.
        destruct (missing_first n ask rest Hm)
          as [[-> Hu] | [(-> & Hu & Hd) | (-> & Hu & Hd & Hp)]];
          cbn [String.eqb Ascii.eqb Bool.eqb fst]; rewrite ?Hu, ?Hd; discriminate.
    + intros (_ & h & H & _). discriminate.
Qed.

Lemma chat_raises_on_non_text_witness :
  fst (chat table_fast 2026 "s" "Physics at FAST"
         (Some {| h_university := JStr "FAST"; h_campus := JArray [JStr "Islamabad"];
                  h_department := JNull; h_program := JAbsent; h_year := JAbsent |})
         empty_world)
  = Raise TypeError.
Proof.
  apply (proj2 (chat_raises_on_non_text table_fast 2026 "s" "Physics at FAST" _ empty_world
                  TypeError)).
  split; [vm_compute; reflexivity|]. eexists. split; [reflexivity|].
  right. repeat split.
Defined.

(** ** Where the extracted values come from *)

Lemma first_truthy_some {A} (f : A -> option string) : forall l v,
  first_truthy f l = Some v -> nonempty v = true /\ exists x, In x l /\ f x = Some v.
Proof.
  induction l as [|x l IH]; intros v; cbn [first_truthy]; [discriminate|].
  destruct (truthy (f x)) eqn:E.
  - intros H. rewrite H in E. split; [exact E|]. exists x. split; [left; reflexivity | exact H].
  - intros H. destruct (IH v H) as (Hn & y & Hy & Hf). split; [exact Hn|].
    exists y. split; [right; exact Hy | exact Hf].
Qed.

Lemma uni_found_unfold merit_data now_y msg :
  uni_found (cheap_extract merit_data now_y msg) =
  let a := vocab_substring (UNIS merit_data) (lower msg) in
  if negb (truthy a)
  then first_truthy (fun token => fuzzy_pick token (UNIS merit_data) cutoff_default)
         (re_findall token3 (lower msg))
  else a.
Proof. reflexivity. Qed.

Lemma dept_found_unfold merit_data now_y msg :
  dept_found (cheap_extract merit_data now_y msg) =
  let a := alias_word dept_aliases (lower msg) in
  let b := if negb (truthy a) then vocab_substring (DEPTS merit_data) (lower msg) else a in
  if negb (truthy b)
  then first_truthy (fun token => fuzzy_pick token (DEPTS merit_data) cutoff_dept)
         (re_findall token2 (lower msg))
  else b.
Proof. reflexivity. Qed.

Lemma camp_found_unfold merit_data now_y msg :
  camp_found (cheap_extract merit_data now_y msg) =
  let camps_detected :=
    (List.map snd
       (List.filter (fun kv => re_found (whole_word (lits (fst kv))) (lower msg))
          campus_aliases)
     ++ List.filter (fun c => contains (lower c) (lower msg)) (CAMPS merit_data))%list in
  match camps_detected with
  | [] => None
  | _ => Some (join ", " (dedupe_ci camps_detected))
  end.
Proof. reflexivity. Qed.

Lemma campus_alias_value key v : In (key, v) campus_aliases -> nonempty v = true.
Proof.
  intros H.
  pose proof (proj1 (forallb_forall _ _) campus_alias_values_stable (key, v) H) as Hv.
  cbn [snd] in Hv. apply andb_true_iff in Hv. destruct Hv as [Hp _].
  apply nonempty_true, (plain_spec v Hp).
Qed.

(** X16.  Where the values that [cheap_extract] returns come from.  A
    university is an entry of the university vocabulary; a department is a
    canonical name of the alias table or a vocabulary entry; a program is
    always returned and is a canonical name of the alias table (the
    default "BS" is one) or a vocabulary entry; a campus text is a list of
    one or more names joined by ", ", all different up to letter case,
    each a canonical name of the alias table or a vocabulary entry; the
    year is the one [detect_year_from_text] finds.  No value returned is
    the empty string. *)
Theorem cheap_extract_provenance (merit_data : list record) (now_y : Z) (msg : string) :
  let f := cheap_extract merit_data now_y msg in
  (forall u, uni_found f = Some u -> In u (UNIS merit_data))
  /\ (forall d, dept_found f = Some d ->
        (exists key, In (key, d) dept_aliases) \/ In d (DEPTS merit_data))
  /\ (exists p, prog_found f = Some p
        /\ ((exists key, In (key, p) prog_aliases) \/ In p (PROGS merit_data)))
  /\ (forall c, camp_found f = Some c ->
        exists names,
          c = join ", " names /\ names <> [] /\ List.NoDup (List.map lower names)
          /\ forall x, In x names ->
               (exists key, In (key, x) campus_aliases) \/ In x (CAMPS merit_data))
  /\ year_found f = detect_year_from_text now_y msg
  /\ forall v, In (Some v) [uni_found f; dept_found f; prog_found f; camp_found f] ->
               nonempty v = true.
Proof.
  cbv zeta.
  assert (Hu : forall u, uni_found (cheap_extract merit_data now_y msg) = Some u ->
                         In u (UNIS merit_data)).
  { intros u. rewrite uni_found_unfold. cbv zeta.
    destruct (negb (truthy (vocab_substring (UNIS merit_data) (lower msg)))).
    - intros H. apply first_truthy_some in H. destruct H as (_ & x & _ & H).
      apply fuzzy_pick_In in H. exact H.
    - apply vocab_substring_In. }
  assert (Hd : forall d, dept_found (cheap_extract merit_data now_y msg) = Some d ->
             (exists key, In (key, d) dept_aliases) \/ In d (DEPTS merit_data)).
  { intros d. rewrite dept_found_unfold. cbv zeta.
    destruct (negb (truthy (if negb (truthy (alias_word dept_aliases (lower msg)))
                            then vocab_substring (DEPTS merit_data) (lower msg)
                            else alias_word dept_aliases (lower msg)))).
    - intros H. apply first_truthy_some in H. destruct H as (_ & x & _ & H).
      right. apply fuzzy_pick_In in H. exact H.
    - destruct (negb (truthy (alias_word dept_aliases (lower msg)))).
      + intros H. right. apply vocab_substring_In in H. exact H.
      + intros H. left. apply alias_word_In in H. exact H. }
  assert (Hp : exists p, prog_found (cheap_extract merit_data now_y msg) = Some p
             /\ ((exists key, In (key, p) prog_aliases) \/ In p (PROGS merit_data))).
  { rewrite prog_found_unfold. cbv zeta.
    destruct (alias_word prog_aliases (lower msg)) as [a|] eqn:Ea.
    - pose proof (alias_word_In _ _ _ Ea) as [key Hk].
      assert (Ht : truthy (Some a) = true) by apply (prog_alias_value key a Hk).
      rewrite Ht. cbn [negb]. rewrite Ht. cbn [negb]. eauto.
    - cbn [truthy negb].
      destruct (vocab_substring (PROGS merit_data) (lower msg)) as [p|] eqn:Ep.
      + pose proof (vocab_substring_In _ _ _ Ep) as Hin.
        assert (Ht : truthy (Some p) = true) by apply (PROGS_entry merit_data p Hin).
        rewrite Ht. cbn [negb]. eauto.
      + cbn [truthy negb]. exists "BS". split; [reflexivity|]. left. exists "bs".
        left. reflexivity. }
  assert (Hc : forall c, camp_found (cheap_extract merit_data now_y msg) = Some c ->
             exists names,
               c = join ", " names /\ names <> [] /\ List.NoDup (List.map lower names)
               /\ forall x, In x names ->
                    (exists key, In (key, x) campus_aliases) \/ In x (CAMPS merit_data)).
  { intros c. rewrite camp_found_unfold. cbv zeta.
    set (detected := (List.map snd _ ++ List.filter _ (CAMPS merit_data))%list).
    assert (Hdet : forall x, In x detected ->
              (exists key, In (key, x) campus_aliases) \/ In x (CAMPS merit_data)).
    { intros x Hx. apply List.in_app_or in Hx. destruct Hx as [Hx | Hx].
      - left. apply List.in_map_iff in Hx. destruct Hx as ([key v] & <- & Hin).
        apply List.filter_In in Hin. exists key. apply Hin.
      - right. apply List.filter_In in Hx. apply Hx. }
    clearbody detected. destruct detected as [|x0 l]; [discriminate|].
    intros [= <-]. exists (dedupe_ci (x0 :: l)).
    split; [reflexivity|]. split; [discriminate|].
    split; [apply dedupe_from_nodup|].
    intros x Hx. apply Hdet. apply dedupe_from_In in Hx. exact Hx. }
  split; [exact Hu|]. split; [exact Hd|]. split; [exact Hp|]. split; [exact Hc|].
  split; [reflexivity|].
  intros v [H | [H | [H | [H | []]]]].
  - apply Hu, UNIS_entry in H. apply H.
  - destruct (Hd v H) as [[key Hk] | Hin].
    + apply (dept_alias_value key v Hk).
    + apply (DEPTS_entry merit_data v Hin).
  - destruct Hp as (p & Ep & Hp). rewrite Ep in H. injection H as ->.
    destruct Hp as [[key Hk] | Hin].
    + apply (prog_alias_value key v Hk).
    + apply (PROGS_entry merit_data v Hin).
  - destruct (Hc v H) as (names & -> & Hne & _ & Hall).
    destruct names as [|n names]; [congruence|].
    apply join_nonempty. intros ->.
    destruct (Hall EmptyString (or_introl eq_refl)) as [[key Hk] | Hin].
    + apply campus_alias_value in Hk. discriminate.
    + apply CAMPS_entry in Hin. destruct Hin as [Hn _]. discriminate.
Qed.

Lemma cheap_extract_provenance_witness :
  uni_found (cheap_extract table_fast 2026 "merit of fastt physics") = Some "FAST"
  /\ In "FAST" (UNIS table_fast).
Proof.
  assert (E : uni_found (cheap_extract table_fast 2026 "merit of fastt physics") = Some "FAST")
    by (vm_compute; reflexivity).
  split; [exact E|].
  pose proof (cheap_extract_provenance table_fast 2026 "merit of fastt physics") as P.
  cbv zeta in P. destruct P as [P _]. exact (P "FAST" E).
Defined.

(** ** Policy keywords *)

Lemma matches_lits w : forall prev s, matches (lits w) prev (w +:+ s) (last_char prev w) s.
Proof.
  induction w as [|c w IH]; intros prev s.
  - rewrite app_nil_s. apply M_Eps.
  - rewrite app_cons_s. cbn [lits last_char].
    eapply M_Seq; [apply M_Chr; apply Ascii.eqb_refl | apply IH].
Qed.

(** A word and an optional "s" after it. *)
Lemma matches_plural w prev post :
  matches (Seq (lits w) (opt (lit "s"))) prev (w +:+ post) (last_char prev w) post
  /\ matches (Seq (lits w) (opt (lit "s"))) prev (w +:+ String "s" post) (Some "s"%char) post.
Proof.
  split.
  - eapply M_Seq; [apply matches_lits | apply M_AltR, M_Eps].
  - eapply M_Seq; [apply matches_lits | apply M_AltL, M_Chr; reflexivity].
Qed.

Lemma whole_word_occurs body s pre m post prev' :
  s = pre +:+ m +:+ post ->
  matches body (last_char None pre) (m +:+ post) prev' post ->
  xorb (word_before (last_char None pre)) (word_after (m +:+ post)) = true ->
  xorb (word_before prev') (word_after post) = true ->
  occurs (whole_word body) s.
Proof.
  intros -> Hm H1 H2. exists pre, (m +:+ post), prev', post. split; [reflexivity|].
  unfold whole_word. eapply M_Seq; [apply M_WordB; exact H1|].
  eapply M_Seq; [exact Hm | apply M_WordB; exact H2].
Qed.

(** "merit", white space or none, "list", and an optional "s". *)
Lemma matches_merit_list prev post :
  let r := Seq (lits "merit") (Seq (Star isspace) (Seq (lits "list") (opt (lit "s")))) in
  matches r prev ("merit list" +:+ post) (Some "t"%char) post
  /\ matches r prev ("merit lists" +:+ post) (Some "s"%char) post
  /\ matches r prev ("meritlist" +:+ post) (Some "t"%char) post.
Proof.
  cbv zeta. split; [|split].
  - change ("merit list" +:+ post) with ("merit" +:+ String " " ("list" +:+ post)).
    eapply M_Seq; [apply matches_lits|].
    eapply M_Seq; [apply M_StarS; [reflexivity | apply M_Star0]|].
    apply (proj1 (matches_plural "list" _ post)).
  - change ("merit lists" +:+ post) with ("merit" +:+ String " " ("list" +:+ String "s" post)).
    eapply M_Seq; [apply matches_lits|].
    eapply M_Seq; [apply M_StarS; [reflexivity | apply M_Star0]|].
    apply (proj2 (matches_plural "list" _ post)).
  - change ("meritlist" +:+ post) with ("merit" +:+ ("list" +:+ post)).
    eapply M_Seq; [apply matches_lits|].
    eapply M_Seq; [apply M_Star0|].
    apply (proj1 (matches_plural "list" _ post)).
Qed.

(** X17.  A message is taken for a policy question whenever one of the
    keywords of the pattern stands in it as a whole word, in any letter
    case: the text before the keyword does not end, and the text after it
    does not start, with a letter, a digit or an underscore. *)
Theorem policy_keywords_detected (msg pre kw post : string) :
  In kw [ "vacant seat"; "vacant seats"; "vacancies"; "merit list"; "merit lists";
          "meritlist"; "policy"; "how many list"; "how many lists" ] ->
  lower msg = pre +:+ kw +:+ post ->
  word_before (last_char None pre) = false ->
  word_after post = false ->
  is_policy_question msg = true.
Proof.
  intros Hkw Hmsg Hpre Hpost. unfold is_policy_question. apply re_found_occurs.
  unfold policy_pattern.
  destruct Hkw as [<- | [<- | [<- | [<- | [<- | [<- | [<- | [<- | [<- | []]]]]]]]]];
    eapply (whole_word_occurs _ _ pre _ post _ Hmsg).
  - apply M_AltL. apply (proj1 (matches_plural "vacant seat" _ post)).
  - rewrite Hpre. reflexivity.
  - rewrite Hpost. reflexivity.
  - apply M_AltL. apply (proj2 (matches_plural "vacant seat" _ post)).
  - rewrite Hpre. reflexivity.
  - rewrite Hpost. reflexivity.
  - apply M_AltR, M_AltL. apply matches_lits.
  - rewrite Hpre. reflexivity.
  - rewrite Hpost. reflexivity.
  - apply M_AltR, M_AltR, M_AltL. apply (proj1 (matches_merit_list _ post)).
  - rewrite Hpre. reflexivity.
  - rewrite Hpost. reflexivity.
  - apply M_AltR, M_AltR, M_AltL. apply (proj1 (proj2 (matches_merit_list _ post))).
  - rewrite Hpre. reflexivity.
  - rewrite Hpost. reflexivity.
  - apply M_AltR, M_AltR, M_AltL. apply (proj2 (proj2 (matches_merit_list _ post))).
  - rewrite Hpre. reflexivity.
  - rewrite Hpost. reflexivity.
  - apply M_AltR, M_AltR, M_AltR, M_AltL. apply matches_lits.
  - rewrite Hpre. reflexivity.
  - rewrite Hpost. reflexivity.
  - apply M_AltR, M_AltR, M_AltR, M_AltR. apply (proj1 (matches_plural "how many list" _ post)).
  - rewrite Hpre. reflexivity.
  - rewrite Hpost. reflexivity.
  - apply M_AltR, M_AltR, M_AltR, M_AltR. apply (proj2 (matches_plural "how many list" _ post)).
  - rewrite Hpre. reflexivity.
  - rewrite Hpost. reflexivity.
Qed.

Lemma policy_keywords_detected_witness :
  is_policy_question "Any Vacancies, please?" = true.
Proof.
  apply (policy_keywords_detected "Any Vacancies, please?" "any " "vacancies" ", please?").
  - right. right. left. reflexivity.
  - reflexivity.
  - reflexivity.
  - reflexivity.
Defined.

(** ** The ratio is a fraction of the text *)

Lemma room_a_app q1 q2 : room_a (q1 ++ q2) = (room_a q1 + room_a q2)%nat.
Proof.
  induction q1 as [|[[[alo ahi] blo] bhi] q1 IH]; [reflexivity|].
  cbn [room_a app]. rewrite IH. lia.
Qed.

Lemma room_b_app q1 q2 : room_b (q1 ++ q2) = (room_b q1 + room_b q2)%nat.
Proof.
  induction q1 as [|[[[alo ahi] blo] bhi] q1 IH]; [reflexivity|].
  cbn [room_b app]. rewrite IH. lia.
Qed.

Lemma matched_app l1 l2 : matched (l1 ++ l2) = (matched l1 + matched l2)%nat.
Proof.
  unfold matched. induction l1 as [|x l1 IH]; [reflexivity|].
  cbn [fold_right app]. rewrite IH. lia.
Qed.

Lemma matched_snoc l x : matched (l ++ [x]) = (matched l + difflib.bestsize x)%nat.
Proof. rewrite matched_app. unfold matched at 2. cbn [fold_right]. lia. Qed.

(** The blocks found never hold more characters than the windows they
    are found in. *)
Lemma blocks_loop_room a b : forall fuel queue acc,
  windows_ok queue ->
  (matched (difflib.blocks_loop fuel a b queue acc) <= matched acc + room_a queue
   /\ matched (difflib.blocks_loop fuel a b queue acc) <= matched acc + room_b queue)%nat.
Proof.
  induction fuel as [|fuel IH]; intros queue acc Hok; cbn [difflib.blocks_loop]; [lia|].
  destruct (rev queue) as [|[[[alo ahi] blo] bhi] rest] eqn:Eq; [lia|].
  assert (Hq : queue = (rev rest ++ [(alo, ahi, blo, bhi)])%list).
  { rewrite <- (rev_involutive queue), Eq. reflexivity. }
  subst queue. apply windows_ok_app in Hok. destruct Hok as [Hok1 Hok2].
  apply List.Forall_inv in Hok2. cbn beta iota in Hok2. destruct Hok2 as [Ha Hb].
  rewrite room_a_app, room_b_app. cbn [room_a room_b].
  pose proof (find_longest_match_inside a b alo ahi blo bhi Ha Hb) as Hin.
  destruct (difflib.find_longest_match a b alo ahi blo bhi) as [i j k] eqn:Ef.
  unfold block_inside in Hin. cbn [difflib.besti difflib.bestj difflib.bestsize] in *.
  destruct k as [|k]; cbn beta iota zeta.
  - destruct (IH (rev rest) acc Hok1). lia.
  - match goal with
    | |- context [difflib.blocks_loop fuel a b ?q ?acc'] =>
        assert (Hok' : windows_ok q
                       /\ (room_a q <= room_a (rev rest) + (i - alo) + (ahi - (i + S k)))%nat
                       /\ (room_b q <= room_b (rev rest) + (j - blo) + (bhi - (j + S k)))%nat);
        [|destruct Hok' as (Hw & Hra & Hrb); destruct (IH q acc' Hw) as [H1 H2]]
    end.
    + destruct ((alo <? i)%nat && (blo <? j)%nat),
        ((i + S k <? ahi)%nat && (j + S k <? bhi)%nat);
        rewrite ?room_a_app, ?room_b_app; cbn [room_a room_b];
        (split; [repeat (apply windows_ok_app; split); try exact Hok1;
                 repeat constructor; lia | lia]).
    + rewrite matched_snoc in H1, H2. cbn [difflib.bestsize] in H1, H2. lia.
Qed.

Lemma matched_bound a b :
  (matched (difflib.get_matching_blocks a b) <= length a
   /\ matched (difflib.get_matching_blocks a b) <= length b)%nat.
Proof.
  unfold difflib.get_matching_blocks.
  destruct (blocks_loop_room a b (2 * length a + 1) [(0, length a, 0, length b)]%nat [])
    as [H1 H2].
  - repeat constructor; lia.
  - cbn [room_a room_b matched fold_right] in H1, H2. lia.
Qed.

Lemma difflib_ratio_bounds a b : (0 <= difflib.ratio a b)%Q /\ (difflib.ratio a b <= 1)%Q.
Proof.
  unfold difflib.ratio.
  destruct (matched_bound (difflib.chars a) (difflib.chars b)) as [Ha Hb].
  fold (matched (difflib.get_matching_blocks (difflib.chars a) (difflib.chars b))).
  set (m := matched _) in *.
  destruct (length (difflib.chars a) + length (difflib.chars b))%nat as [|n] eqn:El.
  - split; [discriminate | apply Qle_refl].
  - unfold Qle. cbn [Qnum Qden]. rewrite Zpos_P_of_succ_nat. lia.
Qed.

(** X18.  The similarity ratio lies between 0 and 1: the matching blocks
    of two texts never hold more characters than either text.  So a cutoff
    above 1 can never be met. *)
Theorem ratio_between_0_and_1 (a b : string) :
  (0 <= ratio a b)%Q /\ (ratio a b <= 1)%Q
  /\ forall options cutoff, (1 < cutoff)%Q -> fuzzy_pick a options cutoff = None.
Proof.
  assert (Hr : forall x y, (0 <= ratio x y)%Q /\ (ratio x y <= 1)%Q)
    by (intros x y; apply difflib_ratio_bounds).
  split; [apply Hr|]. split; [apply Hr|].
  intros options cutoff Hc. destruct (fuzzy_pick a options cutoff) as [o|] eqn:E;
    [|reflexivity]. exfalso.
  unfold fuzzy_pick in E. destruct (negb (nonempty a) || _); [discriminate|].
  destruct (fuzzy_scan a options None 0) as [best r] eqn:Es.
  destruct (Qle_bool cutoff r) eqn:Eq; [|discriminate]. apply Qle_bool_iff in Eq.
  destruct (fuzzy_scan_best a options None 0 best r Es) as (_ & _ & [[-> _] | (o' & _ & _ & ->)]);
    [discriminate|].
  destruct (Hr a o') as [_ H1]. apply (Qlt_irrefl 1).
  eapply Qlt_le_trans; [exact Hc|]. eapply Qle_trans; eassumption.
Qed.

Lemma ratio_between_0_and_1_witness :
  (1 < 11 # 10)%Q /\ fuzzy_pick "FAST" (UNIS table_fast) (11 # 10) = None.
Proof.
  assert (H : (1 < 11 # 10)%Q) by reflexivity.
  split; [exact H|].
  exact (proj2 (proj2 (ratio_between_0_and_1 "FAST" "FAST")) (UNIS table_fast) (11 # 10)%Q H).
Defined.

(** ** From the normalized campus text to the lines of the reply *)

Lemma split_comma_piece : forall t prev x,
  contains "," t = false ->
  split_from comma_separator prev (t +:+ x) 0 =
  (t +:+ fst (split_from comma_separator (last_char prev t) x 0),
   snd (split_from comma_separator (last_char prev t) x 0)).
Proof.
  induction t as [|c t IH]; intros prev x H.
  - rewrite !app_nil_s. cbn [last_char]. destruct (split_from _ _ _ _); reflexivity.
  - rewrite comma_head in H. apply orb_false_iff in H. destruct H as [Hc Ht].
    rewrite app_cons_s, split_from_step by (rewrite match_here_comma, Hc; reflexivity).
    rewrite (IH _ _ Ht). cbn [fst snd last_char]. rewrite app_cons_s. reflexivity.
Qed.

Lemma stripped_no_lead n : strip n = n -> no_lead n = true.
Proof. intros <-. apply rstrip_no_lead, lstrip_no_lead. Qed.

Lemma join_no_lead sep n names :
  nonempty n = true -> no_lead n = true -> no_lead (join sep (n :: names)) = true.
Proof.
  intros Hn Hl. destruct names as [|n2 names]; [exact Hl|].
  rewrite join_cons. apply no_lead_app; [|exact Hl].
  intros ->. discriminate.
Qed.

(** Names joined by ", " come back when the text is cut at commas. *)
Lemma split_comma_join : forall names n prev,
  List.Forall (fun x => nonempty x = true /\ strip x = x /\ contains "," x = false)
    (n :: names) ->
  split_from comma_separator prev (join ", " (n :: names)) 0 = (n, names).
Proof.
  induction names as [|n2 names IH]; intros n prev Hall.
  - apply List.Forall_inv in Hall. destruct Hall as (_ & _ & Hc).
    cbn [join]. rewrite <- (app_s_nil n) at 1.
    rewrite (split_comma_piece n prev EmptyString Hc). cbn [split_from fst snd].
    rewrite app_s_nil. reflexivity.
  - pose proof (List.Forall_inv Hall) as (_ & _ & Hc).
    pose proof (List.Forall_inv_tail Hall) as Hrest.
    pose proof (List.Forall_inv Hrest) as (Hn2 & Hs2 & _).
    rewrite join_cons, (split_comma_piece n prev _ Hc).
    set (J := join ", " (n2 :: names)).
    change (", " +:+ J) with (String "," (" " +:+ J)).
    assert (Hm : match_here comma_separator (last_char prev n) (String "," (" " +:+ J))
                 = Some J).
    { rewrite match_here_comma. cbn [Ascii.eqb Bool.eqb]. f_equal.
      change (" " +:+ J) with (String " " J). cbn [lstrip].
      replace (isspace " ") with true by reflexivity.
      apply lstrip_id, join_no_lead; [exact Hn2 | apply stripped_no_lead, Hs2]. }
    rewrite (split_from_head _ _ _ _ _ Hm). unfold J. rewrite (IH n2 _ Hrest).
    cbn [fst snd]. rewrite app_s_nil. reflexivity.
Qed.

Lemma contains_middle p : forall a b, contains p (a +:+ p +:+ b) = true.
Proof.
  induction a as [|c a IH]; intros b.
  - rewrite app_nil_s.
    assert (H : forall p b, String.prefix p (p +:+ b) = true).
    { clear. induction p as [|c p IH]; intros b; [apply prefix_empty|].
      rewrite app_cons_s. cbn [String.prefix].
      destruct (ascii_dec c c); [apply IH | congruence]. }
    destruct (p +:+ b) eqn:E; cbn [contains]; rewrite <- E, H; reflexivity.
  - rewrite app_cons_s, contains_cons, IH. apply orb_true_r.
Qed.

(** X19.  A campus text made of names joined by ", ", each name trimmed,
    not empty and without a comma, is answered by [reply_for_multi_campus]
    with one line for each name, in the order of the names; and with two
    names or more such a text holds a comma, which is what sends the turn
    to that builder. *)
Theorem multi_campus_one_line_per_name
        (merit_data : list record) (uni dept prog : option string) (yr : Z)
        (names : list string) :
  List.Forall (fun x => nonempty x = true /\ strip x = x /\ contains "," x = false) names ->
  reply_for_multi_campus merit_data uni dept prog (join ", " names) yr
  = List.map (campus_reply merit_data uni dept prog yr) names
  /\ ((2 <= length names)%nat -> contains "," (join ", " names) = true).
Proof.
  intros Hall. split.
  - unfold reply_for_multi_campus. f_equal.
    destruct names as [|n names]; [reflexivity|].
    unfold re_split. rewrite (split_comma_join names n None Hall).
    induction (n :: names) as [|x l IH]; [reflexivity|].
    pose proof (List.Forall_inv Hall) as (Hn & Hs & _).
    cbn [List.filter]. rewrite Hs, Hn. cbn [List.map]. rewrite Hs.
    f_equal. apply IH. exact (List.Forall_inv_tail Hall).
  - destruct names as [|n [|n2 names]]; cbn [length]; try lia. intros _.
    rewrite join_cons. change (", " +:+ join ", " (n2 :: names))
      with ("," +:+ (" " +:+ join ", " (n2 :: names))).
    apply contains_middle.
Qed.

Lemma multi_campus_one_line_per_name_witness :
  reply_for_multi_campus table_years (Some "FAST") (Some "Physics") (Some "BS")
    (join ", " ["Islamabad"; "Lahore"]) 2019
  = List.map (campus_reply table_years (Some "FAST") (Some "Physics") (Some "BS") 2019)
      ["Islamabad"; "Lahore"].
Proof.
  refine (proj1 (multi_campus_one_line_per_name table_years (Some "FAST") (Some "Physics")
                   (Some "BS") 2019 ["Islamabad"; "Lahore"] _)).
  repeat constructor.
Defined.

(** ** Tokens of a message *)

(** Every text [re.findall] returns is a non-empty part of the input that
    the pattern matches where it stands. *)
Lemma findall_from_matched r : forall s prev skip t,
  In t (findall_from r prev s skip) ->
  exists pre post prev0 prev',
    s = pre +:+ t +:+ post /\ matches r prev0 (t +:+ post) prev' post.
Proof.
  induction s as [|c s IH]; intros prev skip t; cbn [findall_from]; [intros []|].
  assert (Hlater : forall n, In t (findall_from r (Some c) s n) ->
            exists pre post prev0 prev',
              String c s = pre +:+ t +:+ post /\ matches r prev0 (t +:+ post) prev' post).
  { intros n H. destruct (IH _ _ _ H) as (pre & post & prev0 & prev' & -> & Hm).
    exists (String c pre), post, prev0, prev'. split; [reflexivity | exact Hm]. }
  destruct skip as [|n]; [|apply Hlater].
  destruct (match_here r prev (String c s)) as [rest|] eqn:Em; [|apply Hlater].
  destruct (consumed (String c s) rest) as [|n] eqn:Ec; [apply Hlater|].
  intros [<- | H]; [|exact (Hlater n H)].
  apply match_here_sound in Em. destruct Em as [prev' Hm].
  destruct (matches_suffix _ _ _ _ _ Hm) as [m E].
  rewrite E in Ec, Hm |- *. rewrite consumed_app in Ec. rewrite <- Ec, take_app.
  exists EmptyString, rest, prev, prev'. split; [reflexivity | exact Hm].
Qed.

Lemma star_matches_all p prev s prev' rest :
  matches (Star p) prev s prev' rest ->
  exists m, s = m +:+ rest /\ forallb p (list_ascii_of_string m) = true.
Proof.
  intros H. remember (Star p) as r eqn:Er. revert Er.
  induction H; intros Er; try discriminate Er; injection Er as ->.
  - exists EmptyString. split; reflexivity.
  - destruct (IHmatches eq_refl) as (m & -> & Hall).
    exists (String c m). split; [reflexivity|].
    cbn [list_ascii_of_string forallb]. rewrite H, Hall. reflexivity.
Qed.

Lemma token2_matched prev s prev' rest :
  matches token2 prev s prev' rest ->
  exists m, s = m +:+ rest /\ (2 <= String.length m)%nat
            /\ forallb istoken (list_ascii_of_string m) = true.
Proof.
  intros H. unfold token2 in H. inv_matches.
  match goal with
  | Hs : matches (Star istoken) _ _ _ _ |- _ =>
      destruct (star_matches_all _ _ _ _ _ Hs) as (m & -> & Hall)
  end.
  match goal with
  | |- exists m', String ?c1 (String ?c2 _) = _ /\ _ =>
      exists (String c1 (String c2 m))
  end.
  split; [reflexivity|]. split; [simpl; lia|].
  cbn [list_ascii_of_string forallb].
  repeat match goal with H : istoken _ = true |- _ => rewrite H; clear H end.
  exact Hall.
Qed.

Lemma token3_matched prev s prev' rest :
  matches token3 prev s prev' rest ->
  exists m, s = m +:+ rest /\ (3 <= String.length m)%nat
            /\ forallb istoken (list_ascii_of_string m) = true.
Proof.
  intros H. unfold token3 in H. inversion H as [| |? ? ? ? ? ? ? ? H1 H2| | | | |]; subst.
  inversion H1; subst. clear H H1.
  destruct (token2_matched _ _ _ _ H2) as (m & -> & Hlen & Hall).
  exists (String c m). split; [reflexivity|]. split; [simpl; lia|].
  cbn [list_ascii_of_string forallb].
  match goal with H : istoken c = true |- _ => rewrite H end. exact Hall.
Qed.

(** X20.  The tokens that the extractor matches against the vocabularies
    are parts of the message made of letters, digits and apostrophes
    only, at least three characters long for the university and at least
    two for the department. *)
Theorem tokens_are_words (s t : string) :
  (In t (re_findall token3 s) ->
   (3 <= String.length t)%nat /\ forallb istoken (list_ascii_of_string t) = true
   /\ exists pre post, s = pre +:+ t +:+ post)
  /\ (In t (re_findall token2 s) ->
      (2 <= String.length t)%nat /\ forallb istoken (list_ascii_of_string t) = true
      /\ exists pre post, s = pre +:+ t +:+ post).
Proof.
  split; intros H; apply findall_from_matched in H;
    destruct H as (pre & post & prev0 & prev' & E & Hm).
  - destruct (token3_matched _ _ _ _ Hm) as (m & Em & Hlen & Hall).
    apply app_inv_tail_s in Em. subst m. eauto.
  - destruct (token2_matched _ _ _ _ Hm) as (m & Em & Hlen & Hall).
    apply app_inv_tail_s in Em. subst m. eauto.
Qed.

Lemma tokens_are_words_witness :
  In "fast" (re_findall token3 "bs cs at fast?") /\ (3 <= String.length "fast")%nat.
Proof.
  assert (H : In "fast" (re_findall token3 "bs cs at fast?"))
    by (vm_compute; left; reflexivity).
  split; [exact H|].
  exact (proj1 (proj1 (tokens_are_words "bs cs at fast?" "fast") H)).
Defined.

(** ** What a normalizer can return *)

Lemma por_fuzzy_cases txt vocab cutoff passthrough r :
  por (fuzzy_pick txt vocab cutoff) (Some passthrough) = Some r ->
  In r vocab \/ r = passthrough.
Proof.
  unfold por. destruct (truthy (fuzzy_pick txt vocab cutoff)).
  - intros H. left. apply fuzzy_pick_In in H. exact H.
  - intros [= <-]. right. reflexivity.
Qed.

(** X21.  A normalizer returns nothing new: the university is an entry
    of the university vocabulary or the trimmed input; the department and
    the program are a canonical name of their alias table, an entry of
    their vocabulary or the trimmed input. *)
Theorem normalizers_return_known_names (merit_data : list record) (txt r : string) :
  (norm_uni merit_data txt = Some r -> In r (UNIS merit_data) \/ r = strip txt)
  /\ (norm_dept merit_data txt = Some r ->
      (exists key, In (key, r) dept_aliases) \/ In r (DEPTS merit_data) \/ r = strip txt)
  /\ (norm_prog merit_data txt = Some r ->
      (exists key, In (key, r) prog_aliases) \/ In r (PROGS merit_data) \/ r = strip txt).
Proof.
  split; [|split].
  - unfold norm_uni. destruct (negb (nonempty txt)); [discriminate|].
    destruct (List.find _ (UNIS merit_data)) as [u|] eqn:E.
    + intros [= <-]. left. apply List.find_some in E. apply E.
    + apply por_fuzzy_cases.
  - unfold norm_dept. destruct (negb (nonempty txt)); [discriminate|].
    destruct (dict_get dept_aliases _) as [v|] eqn:Ev.
    + intros [= <-]. left. eexists. apply dict_get_In. exact Ev.
    + destruct (List.find _ (DEPTS merit_data)) as [d|] eqn:E.
      * intros [= <-]. right. left. apply List.find_some in E. apply E.
      * intros H. right. apply por_fuzzy_cases in H. exact H.
  - unfold norm_prog. destruct (negb (nonempty txt)); [discriminate|].
    destruct (dict_get prog_aliases _) as [v|] eqn:Ev.
    + intros [= <-]. left. eexists. apply dict_get_In. exact Ev.
    + intros H. right. apply por_fuzzy_cases in H. exact H.
Qed.

Lemma normalizers_return_known_names_witness :
  In "Mathematics" (DEPTS table_math) \/ (exists key, In (key, "Mathematics") dept_aliases).
Proof.
  assert (H : norm_dept table_math " math " = Some "Mathematics") by (vm_compute; reflexivity).
  destruct (proj1 (proj2 (normalizers_return_known_names table_math " math " "Mathematics")) H)
    as [Hk | [Hin | E]].
  - right. exact Hk.
  - left. exact Hin.
  - discriminate E.
Defined.

(** ** Loading the table twice *)

(** X22.  Loading trims the text columns, so loading a loaded table
    changes nothing: the rows, and with them the four vocabularies, are
    the same. *)
Theorem grab_merit_data_idempotent (table : list record) :
  grab_merit_data (grab_merit_data table) = grab_merit_data table
  /\ UNIS (grab_merit_data table) = UNIS table
  /\ DEPTS (grab_merit_data table) = DEPTS table
  /\ PROGS (grab_merit_data table) = PROGS table
  /\ CAMPS (grab_merit_data table) = CAMPS table.
Proof.
  assert (H : grab_merit_data (grab_merit_data table) = grab_merit_data table).
  { unfold grab_merit_data. rewrite List.map_map. apply List.map_ext. intros r.
    cbn [University Campus Department Program Year MinimumMerit MaximumMerit].
    rewrite !strip_idempotent. reflexivity. }
  unfold UNIS, DEPTS, PROGS, CAMPS, merit_records. rewrite H. auto.
Qed.
